(* ===== verification/_CoqProject ===== *)
-Q . S2P
Prelude.v
GoLib.v
Config.v
SizeParser.v
FileSys.v
Manager.v
Retention.v
Writer.v
BufferWriter.v
Async.v
Constructor.v
Logx.v
