(* ===== verification/Prelude.v ===== *)
(** * A verification development for [logx] and its [rollingwriter] package

    ** The program

    [src/logx.go] sets up a zap logger whose output is a [RollingWriter]
    from [src/rollingwriter].  The rolling writer keeps one active log file
    [LogPath/FileName.log]; a [manager] ([manager.go]) decides when to
    rotate and offers the name of the next historical file on its unbuffered
    [fire] channel, from a cron job (time policy) or from a goroutine that
    polls the file size every second (size policy, threshold parsed by
    [ParseVolume]).  Each [Write] polls [fire]; on a name it calls [Reopen],
    which renames the active file, opens a fresh one, swaps the handle and
    starts a goroutine that compresses the old file when [Compress] is set
    and pushes the name into [rollingfilech], a channel of capacity
    [MaxRemain] whose overflow deletes the oldest file ([DoRemove]).  The
    constructor [NewWriterFromConfig] ([writer.go]) opens the active file,
    starts the manager, scans the directory for earlier historical files,
    sorts them by time tag and pushes them through the same retention
    queue, then picks the writer type from [WriterMode].  The configuration
    struct, its defaults and the [With...] options are in the package's
    config file ([src/unnamed/part_001]); [src/unnamed/part_000] is its
    test [TestOptions].

    ** The files

    - [Prelude] (this file): byte slices, the error values [goerr] of the
      package and of [os], the result type [result] with [x <-? c ;; k],
      the state-and-error monad [st] with [x <- m ;; k] (Go code that keeps
      the effects done before an early [return err]), [int64] wrap-around
      [wrap64], the closure [star] of a step relation with
      [star_invariant], its labelled form [lstar] (runs of a labelled
      transition system, with [lstar_invariant] and [lstar_iterate]),
      and [lastn]/[firstn_over], what a bounded FIFO keeps and evicts.  Hint databases [logx] and [logx_rw]; tactics [inv_ok]
      and [by_decide].
    - [GoLib]: the Go library functions the package calls, translated from
      the Go sources: [strings.ToUpper]/[ToLower]/[Contains]/[TrimSpace],
      [strconv.Atoi], [path.Ext]/[Clean]/[Join], [filepath.Dir], the
      UTF-8 decoder and encoder and [unicode.IsSpace] that [TrimSpace]
      and [ToLower] fall back to on non-ASCII input (the case tables of
      [unicode] are the class [CaseTables]), the run-time limits of
      [make] ([makeslice_ok], [makechan_ok]), and the insertion sort
      [sort.Slice] uses on at most 12 elements, with its proof of
      sorting.  [ToUpper] is modelled on ASCII input only.  Not mapped.
    - [Config] (Module [Config]): [Config], [NewDefaultConfig],
      [LogFilePath], every option, and [apply_options], the option loop of
      [NewWriter]; the test [TestOptions].
    - [SizeParser] (Module [SizeParser]): [manager.ParseVolume] with Go's
      slicing panics made explicit ([go_slice_to], [go_index]), the
      [fallthrough] switch and the [int64] product.
    - [FileSys] (Module [FS]): the [os] file system the writer uses: names
      to inodes, handles to inodes (a renamed file keeps its inode, so an
      open handle follows it), [OpenFile], [Rename], [Remove], [Write],
      [Close], [ReadAll], [ReadDir], [MkdirAll]; a set [denied] of names
      that cannot be created, through which the error returns are reached.
      Not mapped: it is the library's contract.
    - [Manager] (Module [Manager]): the [manager] struct, [NewManager],
      [GenLogFileName], [Close], the cron job [cron_tick] and the poller's
      iterations [poll_tick]/[poll_exit] as the step relation [mstep].  The
      unbuffered [fire] channel is the FIFO of names held by blocked
      senders.  Time formatting and parsing and the cron spec parser are the
      class [Env], with the instance [TestEnv] used by the witnesses.
    - [Retention] (Module [Retention]): the channel [rollingfilech] as a
      list and its capacity, [DoRemove], the [select]/[default]/[goto retry]
      loop [TryEnqueue], and [enqueue_all].
    - [Writer] (Module [Writer]): the [world] the [Writer] struct shares
      with its goroutines (disk, manager, active handle and path, config,
      retention queue, pending goroutines of [Reopen], log lines);
      [Write] (also [LockedWriter.Write], the same body under the mutex),
      [Reopen], the goroutine [bg_run] with [CompressFile] and [retain],
      and [Close].  Compression is the class [Gzip] with its round-trip law.
    - [BufferWriter] (Module [BufferWriter]): the ["buffer"] mode: the
      [Writer]'s world with the buffer [buf] and the flag [swaping];
      [Write] (rotation, [append_and_swap]: append, and past
      [BufferWriterThreshold] swap in an empty buffer and write the old
      one, its error dropped) and [Close], each one step; concurrent
      calls as the relation [bstep], which splits a call at its load and
      store of [*w.buf] ([write_load], [store_and_swap]).
    - [Async] (Module [Async]): the ["async"] mode as a labelled
      transition system [astep] on [astate] (the world, the queue, the
      pool as slice lengths, [closed], [ctx], the consumer goroutine, the
      calls in their chunk loop, the calls between their load of
      [closed] and their [select] or blocked on a full queue, the [Close]
      call).  A [Write] loads [closed], then takes its [select]
      ([write_err], [write_fire], [write_default]), in one step or two
      with other goroutines in between, blocks on a full queue and sends,
      and, on the rotation branch, takes two steps per chunk
      ([chunk_step]: the pool [Get] and copy, then the send); the consumer
      [w.writer()] receives, loads [w.file], writes through the handle it
      loaded and returns in separate steps ([consumer_recv],
      [consumer_load], [consumer_write], [consumer_exit]); [Close] is
      [close_cas], [close_ctx], the [onClose] turns [close_drain] and
      [close_finish]; the manager and [Reopen]'s goroutines step too.  The
      labels record what each call returns.  [chunk_loop] is the loop run
      alone, with fuel.
    - [Constructor] (Module [Constructor]): [NewWriterFromConfig] and
      [NewWriter]: argument check, [MkdirAll], opening the active file,
      [NewManager], the directory scan [scan]/[is_history], the sort
      [sort_by_time], the retention of the files found, the [make]
      calls that can panic ([rollingfilech_ok], [buffer_ok]), the mode
      switch [mode_switch] and the writer value [start] of each mode,
      with the [Write] half of the [RollingWriter] interface as the class
      [RollingWriterI] (instances for the plain and buffered writers and
      for the asynchronous writer's state); [NewWriterFromConfigFile]
      (open, read, decode by [typ] through the interface [Decoders],
      build, deferred close).
    - [Logx] (Module [Logx]): [src/logx.go]: the package [Config] and its
      appenders, the [var (...)] block run at package initialisation
      ([init_vars], [package_init]), [Init] with its loop [build_cores]
      over [NewWriterFromConfig] (stdout when it fails with an error, the
      panic propagated when it panics: [writer_or_stdout]), [encoder],
      [logLevel], [newEncoderConfig], [runner], [GetLogger],
      [GetSLogger] and [Close].  The part of zap the package relies on
      (levels, cores, loggers, [WithOptions], [Sugar], [Sync]) is a
      contract stated in the file.

    Files depend on each other in the order of [_CoqProject]; the writer
    variants are clients of [Writer]: [BufferWriter] and [Async] lift its
    operations into their own state ([on_world], [on_aw]) and are related
    to it by [append_active], the world with pending bytes written out.

    ** What is proved

    - Rotation ([Writer]): a write with a pending name rotates (historical
      file = finished segment, active file = the new bytes, handle bound to
      it); without one it appends; with compression the goroutine leaves a
      file that decompresses to the segment; a failed rename loses the
      rotation; a failed open after the rename sends later writes into the
      historical file; two rotations in the same time tag overwrite the
      first historical file; [Close] does not stop the manager, so a later
      rotation reopens the log.  The invariant [writer_inv] (disk well
      formed, active handle open, pending goroutines hold older handles)
      holds in every state reached by [wstep], by rule induction.
    - Buffered mode ([BufferWriter]): refinement: with no rotation pending,
      a write seen through [flushed] is exactly the plain [Write]; the
      buffer stays within the threshold; a failed flush is dropped with
      its bytes; buffered bytes move into the next segment on rotation;
      [Close] flushes and closes; two concurrent writes can lose the
      first one's bytes.
    - Asynchronous mode ([Async]): refinement: while no rotation or
      [Close] is under way every step, seen through [aflushed], is a step
      of the plain writer or a stutter; the invariant [async_inv] (queue
      within [QueueSize], handle open until [Close] closes it, consumer
      blocked only after that) holds on every run, and from the writer the
      constructor starts ([Constructor]); the chunk loop terminates with
      positive slices, its chunks concatenate to the input, and run alone
      a rotating [Write] running alone queues chunks that concatenate to
      its bytes and returns their length.  Defects shown by explicit
      schedules: a zero-length pooled slice makes a rotating [Write]
      cycle forever;
      [Close] racing with the consumer loses a slice and leaks the
      goroutine on [errChan] for good; a [Write] that loaded [closed]
      before [Close] queues its bytes after [Close] and the consumer have
      returned, reports them written, and they are never written; a
      consumer that loaded [w.file] before a rotation closed it writes
      through the closed handle, and the error it sends on [errChan] is
      the one the next [Write] returns for its own, written bytes; a
      rotating [Write]'s chunks
      interleave with another [Write]; queued bytes land in the next
      segment after a rotation.
    - Constructor ([Constructor]): each writer type is an instance of
      [RollingWriterI], whose law is [io.Writer]'s ([n = len(b)] without
      error); in any state reached from the writer the constructor
      builds, a plain [Write] returns [len(b)] or the error of a rotation,
      never a closed-file error; in ["async"] mode the started writer
      keeps [async_inv] on every run.  The
      constructor panics exactly on the [make] calls Go rejects: in
      ["buffer"] mode when twice [BufferWriterThreshold] wraps negative
      or past the allocation limit, after its effects on disk.
    - Retention ([Retention], [Constructor]): the retry loop terminates and
      keeps exactly the newest [MaxRemain] names, deleting the others; at
      start-up the files found are a permutation of the scan, sorted by
      time tag, and the same holds;
      the scan also takes other loggers' files whose name contains
      [FileName.log]; an invalid [WriterMode] fails only after all these
      effects; [NewWriterFromConfigFile] with an unknown [typ] ignores the
      file and builds from the defaults.
    - Manager ([Manager]): under the size policy at most one name is ever
      pending (an invariant of [mstep], by rule induction); under the time
      policy names accumulate; a second [Close] panics; the poller fires
      exactly above the threshold.
    - Size parsing ([SizeParser]): total (no slicing panic), exact on
      number+unit, 1 GiB without a unit, 0 on a malformed number, and the
      product wraps as [int64] (an example shows it negative).
    - Front end ([Logx]): the package's initialisation panics ([Sugar()]
      on the nil [logger]); [Init] builds one core per appender in order
      with [logLevel]'s level, fails only by a panic, and, when no
      appender's writer can panic, panics exactly on an appender without
      a [rolling] section; it prints the binary's path, with its newline,
      as the work directory, and ignores [Development]; [logLevel] maps
      each level name, maps every other string to [InfoLevel], ignores
      case and surrounding white space, and cannot give [DPanicLevel].

    ** Bounds and fuel

    [TryEnqueue] runs the retry loop with fuel; two rounds suffice when the
    capacity is positive (one eviction makes room), and [enqueue] uses 2,
    which the retention theorems show is never exhausted.  [chunk_loop]
    takes fuel [length b], enough when every pooled slice is non-empty
    (each turn copies a byte); the interleaved model needs no fuel, its
    runs being explicit lists of steps.  [Path.Clean] loops [length path]
    times, each iteration consuming a byte.  [Atoi]'s fast path covers 1
    to 18 digits as Go's does; longer inputs go through [ParseInt] with its
    range check.  [Utf8.runes] takes fuel [length s], each rune being at
    least one byte.  Times are [Z] nanoseconds; sizes and thresholds are
    [int64] values kept as [Z] with [wrap64] where Go wraps; the queue's
    capacity is [QueueSize = 1024], checked before each send.

    ** Not modelled

    zap's encoders, entry format and the writes of a log call (the
    library); the JSON and YAML decoders (libraries: the class
    [Decoders]); timers, the cron library's schedule and the wall clock
    (the steps take the time as an argument); the contents of
    [unicode]'s case tables (the class [CaseTables]; a witness instance
    covers Latin-1); [ToUpper] on non-ASCII input; the insertion sort
    stands for [pdqsort], equal for at most 12 elements and, past that,
    proved only to sort (Go's sort is not stable, so equal time tags may
    be ordered differently).  In [Async], [Reopen] inside a [select] runs
    as one step, and [onClose]'s drain loads [w.file] in the step that
    writes; in [BufferWriter], a store, its
    threshold check and its swap are one step.  So a consumer write
    between [Reopen]'s rename and its swap of [w.file], or a second
    [BufferWriter.Write] between a store and the swap, is not among the
    modelled runs. *)

From Stdlib Require Export ZArith Lia Ascii String Sorting.Sorted.
From stdpp Require Export base list strings gmap pretty.

Declare Scope logx_scope.
Delimit Scope logx_scope with logx.
Open Scope logx_scope.

(** ** Byte slices

    A Go [[]byte] is a list of bytes; a Go [string] is [String.string]. *)
Abbreviation bytes := (list Byte.byte).

(** ** Errors

    The errors the package returns or raises.  [ErrInternal], [ErrClosed] and
    [ErrInvalidArgument] are the package's own variables of
    rollingwriter/config.go; the others stand for the [*PathError]s of the
    [os] package, the error of [cron.AddFunc] on a bad spec, the error of
    [json.Unmarshal] or [yaml.Unmarshal] on input they reject, and a
    run-time panic. *)
Inductive goerr :=
| ErrInternal
| ErrClosed
| ErrInvalidArgument
| ErrNotExist (op path : string)
| ErrPermission (op path : string)
| ErrFileClosed
| ErrCronSpec (spec : string)
| ErrSyntax (format : string)
| Panic (what : string).

#[export] Instance goerr_eq_dec : EqDecision goerr.
Proof. solve_decision. Defined.

(** ** The result of a fallible Go call: its value or its error. *)
Inductive result (A : Type) :=
| Ok (a : A)
| Err (e : goerr).
Arguments Ok {A} a.
Arguments Err {A} e.

Definition rbind {A B} (c : result A) (k : A -> result B) : result B :=
  match c with Ok a => k a | Err e => Err e end.

#[export] Instance result_ret : MRet result := fun _ a => Ok a.
#[export] Instance result_bind : MBind result := fun _ _ k c => rbind c k.

Notation "x <-? c ;; k" := (rbind c (fun x => k))
  (at level 100, c at next level, right associativity) : logx_scope.

Definition is_ok {A} (r : result A) : bool :=
  match r with Ok _ => true | Err _ => false end.

Lemma rbind_ok {A B} (c : result A) (k : A -> result B) (b : B) :
  rbind c k = Ok b <-> exists a, c = Ok a /\ k a = Ok b.
Proof. destruct c; simpl; split; [eauto | intros (? & ? & ?); congruence | discriminate | intros (? & ? & ?); congruence]. Qed.

Lemma rbind_err {A B} (c : result A) (k : A -> result B) (e : goerr) :
  c = Err e -> rbind c k = Err e.
Proof. by intros ->. Qed.

(** ** Go's [int] and [int64]

    [int] is 64 bits wide on the platforms the package targets.  A value is a
    [Z]; arithmetic wraps around as Go's does. *)
Section Int64.
Local Open Scope Z_scope.

Definition int64_min : Z := - 2 ^ 63.
Definition int64_max : Z := 2 ^ 63 - 1.

Definition wrap64 (z : Z) : Z := (z + 2 ^ 63) mod 2 ^ 64 - 2 ^ 63.

Definition in_int64 (z : Z) : Prop := int64_min <= z <= int64_max.

Lemma wrap64_range z : in_int64 (wrap64 z).
Proof.
  unfold in_int64, wrap64, int64_min, int64_max.
  pose proof (Z.mod_pos_bound (z + 2 ^ 63) (2 ^ 64) ltac:(lia)). lia.
Qed.

Lemma wrap64_small z : in_int64 z -> wrap64 z = z.
Proof.
  unfold in_int64, wrap64, int64_min, int64_max. intros Hz.
  rewrite Z.mod_small by lia. lia.
Qed.

End Int64.

Create HintDb logx discriminated.
Create Rewrite HintDb logx_rw.
#[export] Hint Resolve wrap64_range : logx.
#[export] Hint Rewrite wrap64_small using (unfold in_int64, int64_min, int64_max; lia) : logx_rw.

(** [inv_ok] cleans up the equations between results that [simpl] leaves. *)
Ltac inv_ok :=
  repeat match goal with
  | H : Ok _ = Ok _ |- _ => injection H as H
  | H : Ok _ = Err _ |- _ => discriminate H
  | H : Err _ = Ok _ |- _ => discriminate H
  | H : Err _ = Err _ |- _ => injection H as H
  | H : rbind ?c _ = Ok _ |- _ =>
      apply rbind_ok in H; destruct H as (? & ? & ?)
  end; subst.

(** [by_decide] closes a decidable goal about concrete data by evaluating
    its decision procedure. *)
Ltac by_decide := refine (bool_decide_unpack _ _); vm_compute; exact I.

(** ** A state and error monad

    Go code that mutates shared state and may fail midway keeps the effects
    done before the failure: [st S A] returns the final state together with
    the value or the error. *)
Definition st (S A : Type) : Type := S -> S * result A.

Definition st_ret {S A} (a : A) : st S A := fun s => (s, Ok a).

Definition st_bind {S A B} (m : st S A) (k : A -> st S B) : st S B :=
  fun s => let '(s', r) := m s in
           match r with Ok a => k a s' | Err e => (s', Err e) end.

Definition st_fail {S A} (e : goerr) : st S A := fun s => (s, Err e).
Definition st_get {S} : st S S := fun s => (s, Ok s).
Definition st_put {S} (s : S) : st S unit := fun _ => (s, Ok tt).
Definition st_modify {S} (f : S -> S) : st S unit := fun s => (f s, Ok tt).
Definition st_lift {S A} (r : result A) : st S A := fun s => (s, r).

(** [st_catch m h]: run [m]; on an error run the handler from the state
    [m] left. *)
Definition st_catch {S A} (m : st S A) (h : goerr -> st S A) : st S A :=
  fun s => let '(s', r) := m s in
           match r with Ok a => (s', Ok a) | Err e => h e s' end.

(** [st_try m]: run [m] and return its result as a value (a Go
    [if err := ...; err != nil] test); [st_finally m fin]: run [m], then
    [fin] whatever [m] returned, and return [m]'s result (a [defer] whose
    own error is dropped). *)
Definition st_try {S A} (m : st S A) : st S (result A) :=
  fun s => let '(s', r) := m s in (s', Ok r).

Definition st_finally {S A B} (m : st S A) (fin : st S B) : st S A :=
  fun s => let '(s', r) := m s in (fst (fin s'), r).

(** [preserves P m]: whatever [m] returns, a state satisfying [P] is left
    satisfying [P]. *)
Definition preserves {S A} (P : S -> Prop) (m : st S A) : Prop :=
  forall s, P s -> P (fst (m s)).

Notation "x <- m ;; k" := (st_bind m (fun x => k))
  (at level 100, m at next level, right associativity) : logx_scope.
Notation "m ;;; k" := (st_bind m (fun _ => k))
  (at level 100, right associativity) : logx_scope.

Lemma st_bind_ok {S A B} (m : st S A) (k : A -> st S B) s s' a :
  m s = (s', Ok a) -> st_bind m k s = k a s'.
Proof. unfold st_bind. by intros ->. Qed.

Lemma st_bind_err {S A B} (m : st S A) (k : A -> st S B) s s' e :
  m s = (s', Err e) -> st_bind m k s = (s', Err e).
Proof. unfold st_bind. by intros ->. Qed.

Section Preserves.
Context {S : Type} (P : S -> Prop).

Lemma preserves_ret {A} (a : A) : preserves P (st_ret a).
Proof. by intros s Hs. Qed.

Lemma preserves_fail {A} (e : goerr) : preserves P (@st_fail S A e).
Proof. by intros s Hs. Qed.

Lemma preserves_bind {A B} (m : st S A) (k : A -> st S B) :
  preserves P m -> (forall a, preserves P (k a)) -> preserves P (st_bind m k).
Proof.
  intros Hm Hk s Hs. unfold st_bind. specialize (Hm s Hs).
  destruct (m s) as [s' [a|e]]; simpl in *; [apply Hk|]; done.
Qed.

Lemma preserves_get_bind {B} (k : S -> st S B) :
  (forall s0, preserves P (k s0)) -> preserves P (st_bind st_get k).
Proof. intros Hk s Hs. apply (Hk s s Hs). Qed.

Lemma preserves_try {A} (m : st S A) : preserves P m -> preserves P (st_try m).
Proof. intros Hm s Hs. unfold st_try. specialize (Hm s Hs). by destruct (m s). Qed.

Lemma preserves_finally {A B} (m : st S A) (fin : st S B) :
  preserves P m -> preserves P fin -> preserves P (st_finally m fin).
Proof. intros Hm Hf s Hs. unfold st_finally. specialize (Hm s Hs). destruct (m s). by apply Hf. Qed.

Lemma preserves_modify (f : S -> S) : (forall s, P s -> P (f s)) -> preserves P (st_modify f).
Proof. intros Hf s Hs. by apply Hf. Qed.

End Preserves.

#[export] Hint Resolve preserves_ret preserves_fail preserves_bind preserves_get_bind
  preserves_try preserves_finally : logx.

(** [solve_preserves] takes a monadic program apart, down to the
    operations whose [preserves] lemmas are hints of [logx]. *)
Ltac solve_preserves :=
  repeat match goal with
  | |- forall _, _ => intros ?
  | |- preserves _ (match ?x with _ => _ end) => destruct x
  | |- preserves _ (if ?b then _ else _) => destruct b
  | |- preserves _ (st_bind st_get _) => apply preserves_get_bind
  | |- preserves _ (st_bind _ _) => apply preserves_bind
  | |- preserves _ (st_try _) => apply preserves_try
  | |- preserves _ (st_finally _ _) => apply preserves_finally
  | |- preserves _ (st_ret _) => apply preserves_ret
  | |- preserves _ (st_fail _) => apply preserves_fail
  end; eauto with logx.

(** ** Reflexive-transitive closure of a step relation *)
Section Star.
Context {A : Type} (R : A -> A -> Prop).

Inductive star : A -> A -> Prop :=
| star_refl a : star a a
| star_step a b c : R a b -> star b c -> star a c.

Lemma star_one a b : R a b -> star a b.
Proof. eauto using star. Qed.

Lemma star_trans a b c : star a b -> star b c -> star a c.
Proof. induction 1; eauto using star. Qed.

(** An invariant of every step holds in every reachable state. *)
Lemma star_invariant (P : A -> Prop) :
  (forall a b, P a -> R a b -> P b) -> forall a b, star a b -> P a -> P b.
Proof. intros Hstep a b Hs. induction Hs; eauto. Qed.
End Star.

#[export] Hint Resolve star_refl star_one : logx.

(** ** Runs of a labelled transition system

    [lstar R s ls s']: from [s], the steps labelled [ls] in this order
    reach [s']; the labels record what the calls returned. *)
Section LStar.
Context {A L : Type} (R : A -> L -> A -> Prop).

Inductive lstar : A -> list L -> A -> Prop :=
| lstar_refl a : lstar a [] a
| lstar_step a l b ls c : R a l b -> lstar b ls c -> lstar a (l :: ls) c.

Lemma lstar_one a l b : R a l b -> lstar a [l] b.
Proof. eauto using lstar. Qed.

Lemma lstar_app a b c ls1 ls2 : lstar a ls1 b -> lstar b ls2 c -> lstar a (ls1 ++ ls2) c.
Proof. induction 1; simpl; eauto using lstar. Qed.

(** A cycle can be run any number of times. *)
Lemma lstar_iterate a ls n : lstar a ls a -> lstar a (concat (replicate n ls)) a.
Proof. intros H. induction n; simpl; [constructor|]. by eapply lstar_app. Qed.

Lemma lstar_invariant (P : A -> Prop) :
  (forall a l b, P a -> R a l b -> P b) -> forall a ls b, lstar a ls b -> P a -> P b.
Proof. intros Hstep a ls b Hs. induction Hs; eauto. Qed.
End LStar.

(** ** The last [k] elements of a list and the ones before them

    A bounded FIFO that evicts its oldest element keeps [lastn k] of what
    was pushed and has evicted [firstn_over k]. *)
Section Lastn.
Context {A : Type}.
Implicit Types (l t u x y z : list A) (k : nat).

Definition lastn k l : list A := drop (length l - k) l.
Definition firstn_over k l : list A := take (length l - k) l.

Lemma firstn_over_lastn k l : firstn_over k l ++ lastn k l = l.
Proof. apply take_drop. Qed.

Lemma length_lastn k l : length (lastn k l) = Nat.min k (length l).
Proof. unfold lastn. rewrite length_drop. lia. Qed.

Lemma lastn_short k l : length l <= k -> lastn k l = l.
Proof. intros H. unfold lastn. by replace (length l - k) with 0 by lia. Qed.

Lemma firstn_over_short k l : length l <= k -> firstn_over k l = [].
Proof. intros H. unfold firstn_over. by replace (length l - k) with 0 by lia. Qed.

Lemma lastn_app_long k t z : k <= length z -> lastn k (t ++ z) = lastn k z.
Proof.
  intros H. unfold lastn. rewrite length_app.
  replace (length t + length z - k) with (length t + (length z - k)) by lia.
  apply drop_app_add.
Qed.

Lemma firstn_over_app_long k t z :
  k <= length z -> firstn_over k (t ++ z) = t ++ firstn_over k z.
Proof.
  intros H. unfold firstn_over. rewrite length_app.
  replace (length t + length z - k) with (length t + (length z - k)) by lia.
  apply take_app_add.
Qed.

Lemma lastn_lastn_app k x y : lastn k (lastn k x ++ y) = lastn k (x ++ y).
Proof.
  destruct (decide (k <= length x)) as [Hk|Hk]; [|by rewrite (lastn_short k x) by lia].
  rewrite <- (firstn_over_lastn k x) at 2. rewrite <- app_assoc.
  rewrite (lastn_app_long k (firstn_over k x)); [done|]. rewrite length_app, length_lastn. lia.
Qed.

Lemma firstn_over_app k x y :
  firstn_over k (x ++ y) = firstn_over k x ++ firstn_over k (lastn k x ++ y).
Proof.
  destruct (decide (k <= length x)) as [Hk|Hk].
  - rewrite <- (firstn_over_lastn k x) at 1. rewrite <- app_assoc.
    apply firstn_over_app_long. rewrite length_app, length_lastn. lia.
  - rewrite (firstn_over_short k x), (lastn_short k x) by lia. done.
Qed.
End Lastn.

#[export] Hint Rewrite @length_lastn @lastn_lastn_app @firstn_over_app : logx_rw.
