(* ===== verification/GoLib.v ===== *)
(** * GoLib: the Go standard-library functions the package calls

    The package calls [strings.ToUpper], [strings.ToLower],
    [strings.TrimSpace], [strings.Contains], [strconv.Atoi], [path.Ext],
    [path.Join], [path.Clean] and [make].  They are not code of the
    repository, so nothing here is mapped to [src/]; they are translated from
    the Go standard library's own sources so that the package's definitions
    that call them compute as the program does:
    - [Runtime]: the bounds [makeslice] and [makechan] check before they
      allocate ([maxAlloc], the channel header [hchanSize]);
    - [Utf8] and [Unicode]: [DecodeRuneInString], [DecodeLastRuneInString],
      [AppendRune], [unicode.IsSpace], and [unicode.ToLower] over the case
      tables, which are the class [CaseTables] (the tables are data, not
      code);
    - [ToLower] and [TrimSpace] take the ASCII fast path of [strings] and
      otherwise map or trim rune by rune; [ToUpper] follows the ASCII fast
      path only (bytes at or above 0x80 are left as they are; Go would also
      map non-ASCII lower-case letters, none of which is a digit or one of
      the unit letters [ParseVolume] looks for);
    - [ParseUint], [ParseInt] and [Atoi] follow [strconv/atoi.go], including
      the early return on overflow and the clamping of out-of-range values;
    - [Clean] follows [path/path.go] with the written prefix of its
      [lazybuf] kept as a reversed list. *)

From S2P Require Import Prelude.

(** [unicode/utf8]: the decoding [DecodeRuneInString] and
    [DecodeLastRuneInString] (a byte that starts no valid sequence
    decodes as [RuneError] of width 1) and the encoding [AppendRune]. *)
Module Utf8.

Definition RuneError : Z := 65533.
Definition RuneSelf : Z := 128.

Definition bval (c : ascii) : Z := Z.of_N (Ascii.N_of_ascii c).
Definition in_range (lo hi : Z) (c : ascii) : bool := (lo <=? bval c)%Z && (bval c <=? hi)%Z.
Definition cont (c : ascii) : bool := in_range 128 191 c.

(** The second byte a lead byte accepts ([acceptRanges]). *)
Definition second_ok (b0 : Z) (c1 : ascii) : bool :=
  if (b0 =? 224)%Z then in_range 160 191 c1
  else if (b0 =? 237)%Z then in_range 128 159 c1
  else if (b0 =? 240)%Z then in_range 144 191 c1
  else if (b0 =? 244)%Z then in_range 128 143 c1
  else cont c1.

Definition low6 (c : ascii) : Z := Z.land (bval c) 63.

(** [DecodeRuneInString]: the rune at the head and its width. *)
Definition decode (l : list ascii) : Z * nat :=
  match l with
  | [] => (RuneError, 0)
  | c0 :: r =>
      let b0 := bval c0 in
      if (b0 <? 128)%Z then (b0, 1)
      else if ((194 <=? b0) && (b0 <=? 223))%Z then
        match r with
        | c1 :: _ => if cont c1 then (Z.lor (Z.shiftl (Z.land b0 31) 6) (low6 c1), 2) else (RuneError, 1)
        | _ => (RuneError, 1)
        end
      else if ((224 <=? b0) && (b0 <=? 239))%Z then
        match r with
        | c1 :: c2 :: _ =>
            if second_ok b0 c1 && cont c2 then
              (Z.lor (Z.lor (Z.shiftl (Z.land b0 15) 12) (Z.shiftl (low6 c1) 6)) (low6 c2), 3)
            else (RuneError, 1)
        | _ => (RuneError, 1)
        end
      else if ((240 <=? b0) && (b0 <=? 244))%Z then
        match r with
        | c1 :: c2 :: c3 :: _ =>
            if second_ok b0 c1 && cont c2 && cont c3 then
              (Z.lor (Z.lor (Z.lor (Z.shiftl (Z.land b0 7) 18) (Z.shiftl (low6 c1) 12))
                            (Z.shiftl (low6 c2) 6)) (low6 c3), 4)
            else (RuneError, 1)
        | _ => (RuneError, 1)
        end
      else (RuneError, 1)
  end.

(** [DecodeLastRuneInString] on [s] given reversed, [rl]: back up over at
    most three continuation bytes to a start byte, decode from there, and
    take the rune only if it ends at the end. *)
Definition decode_last (rl : list ascii) : Z * nat :=
  match rl with
  | [] => (RuneError, 0)
  | c :: _ =>
      if (bval c <? 128)%Z then (bval c, 1)
      else
        let back := take 4 rl in
        let k := match list_find (fun b => negb (cont b)) (drop 1 back) with
                 | Some (j, _) => S (S j) | None => length back end in
        let '(r, size) := decode (rev (take k rl)) in
        if (size =? k)%nat then (r, size) else (RuneError, 1)
  end.

Definition byte (z : Z) : ascii := Ascii.ascii_of_N (Z.to_N z).

(** [AppendRune]: an invalid rune (negative, a surrogate, above
    [MaxRune]) is written as [RuneError]. *)
Definition encode (r : Z) : list ascii :=
  let r := if ((r <? 0) || ((55296 <=? r) && (r <=? 57343)) || (1114111 <? r))%Z then RuneError else r in
  if (r <? 128)%Z then [byte r]
  else if (r <? 2048)%Z then [byte (192 + Z.shiftr r 6); byte (128 + Z.land r 63)]
  else if (r <? 65536)%Z then
    [byte (224 + Z.shiftr r 12); byte (128 + Z.land (Z.shiftr r 6) 63); byte (128 + Z.land r 63)]
  else [byte (240 + Z.shiftr r 18); byte (128 + Z.land (Z.shiftr r 12) 63);
        byte (128 + Z.land (Z.shiftr r 6) 63); byte (128 + Z.land r 63)].

(** [for _, r := range s]: the runes of [s], each with its width. *)
Fixpoint runes (fuel : nat) (l : list ascii) : list (Z * nat) :=
  match fuel, l with
  | _, [] => []
  | O, _ => []
  | S f, _ => let '(r, w) := decode l in (r, w) :: runes f (drop w l)
  end.

End Utf8.

(** [package unicode]: [IsSpace], and [ToLower] whose table beyond ASCII
    ([CaseRanges]) is the interface [CaseTables]. *)
Module Unicode.

Definition IsSpace (r : Z) : bool :=
  if (r <=? 255)%Z then
    bool_decide (r ∈ [9; 10; 11; 12; 13; 32; 133; 160]%Z)
  else bool_decide (r ∈ [5760; 8232; 8233; 8239; 8287; 12288]%Z) || ((8192 <=? r) && (r <=? 8202))%Z.

Class CaseTables := { to_lower_table : Z -> Z }.

Definition ToLower `{CaseTables} (r : Z) : Z :=
  if (r <? 128)%Z then (if ((65 <=? r) && (r <=? 90))%Z then r + 32 else r)%Z
  else to_lower_table r.

End Unicode.

Module Strings.

Definition upper_byte (c : ascii) : ascii :=
  let n := Ascii.N_of_ascii c in
  if ((97 <=? n) && (n <=? 122))%N then Ascii.ascii_of_N (n - 32) else c.

Definition lower_byte (c : ascii) : ascii :=
  let n := Ascii.N_of_ascii c in
  if ((65 <=? n) && (n <=? 90))%N then Ascii.ascii_of_N (n + 32) else c.

Fixpoint map_bytes (f : ascii -> ascii) (s : string) : string :=
  match s with
  | EmptyString => EmptyString
  | String c s' => String (f c) (map_bytes f s')
  end.

(** [c < utf8.RuneSelf] for every byte. *)
Definition is_ascii (s : string) : bool :=
  forallb (fun c => (Utf8.bval c <? Utf8.RuneSelf)%Z) (list_ascii_of_string s).

(** strings.ToUpper on ASCII input ([ParseVolume] only looks for digits
    and ASCII unit letters). *)
Definition ToUpper : string -> string := map_bytes upper_byte.

(** [strings.Map(unicode.ToLower, s)]: every rune mapped and re-encoded
    (a byte that decodes as [RuneError] comes out as [U+FFFD]). *)
Definition map_lower `{Unicode.CaseTables} (s : string) : string :=
  let l := list_ascii_of_string s in
  string_of_list_ascii (concat (map (fun rw => Utf8.encode (Unicode.ToLower (fst rw))) (Utf8.runes (length l) l))).

(** strings.ToLower: the ASCII fast path, otherwise [Map]. *)
Definition ToLower `{Unicode.CaseTables} (s : string) : string :=
  if is_ascii s then map_bytes lower_byte s else map_lower s.

(** strings.Contains: [substr] occurs at some position of [s]. *)
Fixpoint Contains (s substr : string) : bool :=
  String.prefix substr s ||
  match s with
  | EmptyString => false
  | String _ s' => Contains s' substr
  end.

(** strings.TrimSpace: the bytes of [asciiSpace] (tab, newline,
    vertical tab, form feed, carriage return, space) are dropped from both
    ends; at a byte at or above [RuneSelf] it switches to the rune-wise
    [TrimFunc]/[TrimRightFunc] with [unicode.IsSpace]. *)
Definition is_space (c : ascii) : bool :=
  let n := Ascii.N_of_ascii c in ((9 <=? n) && (n <=? 13))%N || (n =? 32)%N.

Fixpoint drop_space (l : list ascii) : list ascii :=
  match l with
  | c :: l' => if is_space c then drop_space l' else l
  | [] => []
  end.

(** [TrimLeftFunc(s, unicode.IsSpace)]: drop the leading space runes. *)
Fixpoint trim_left_space (fuel : nat) (l : list ascii) : list ascii :=
  match fuel, l with
  | _, [] => []
  | O, _ => l
  | S f, _ => let '(r, w) := Utf8.decode l in
              if Unicode.IsSpace r then trim_left_space f (drop w l) else l
  end.

(** [lastIndexFunc(s, unicode.IsSpace, false)] on [s] reversed: the index
    of the last rune that is not a space, decoding backwards. *)
Fixpoint last_non_space (fuel : nat) (rl : list ascii) : option nat :=
  match fuel, rl with
  | _, [] => None
  | O, _ => None
  | S f, _ => let '(r, size) := Utf8.decode_last rl in
              if Unicode.IsSpace r then last_non_space f (drop size rl) else Some (length (drop size rl))
  end.

(** [TrimRightFunc(s, unicode.IsSpace)]: cut after that rune, whose width
    is taken again by decoding forwards. *)
Definition trim_right_space (l : list ascii) : list ascii :=
  match last_non_space (length l) (rev l) with
  | None => []
  | Some i =>
      match drop i l with
      | c :: _ as tl => if (Utf8.bval c <? Utf8.RuneSelf)%Z then take (S i) l else take (i + snd (Utf8.decode tl)) l
      | [] => take (S i) l
      end
  end.

(** The first loop of TrimSpace: skip ASCII spaces; a byte at or above
    [RuneSelf] hands the rest to [TrimFunc(s[start:], unicode.IsSpace)]
    (the [inl]). *)
Fixpoint trim_start (l : list ascii) : list ascii + list ascii :=
  match l with
  | [] => inr []
  | c :: l' =>
      if negb (Utf8.bval c <? Utf8.RuneSelf)%Z then inl (trim_right_space (trim_left_space (length l) l))
      else if is_space c then trim_start l' else inr l
  end.

(** The second loop, on [s[start:]] reversed: skip ASCII spaces from the
    end; a byte at or above [RuneSelf] hands [s[start:stop]] to
    [TrimRightFunc]. *)
Fixpoint trim_stop (rl : list ascii) : list ascii :=
  match rl with
  | [] => []
  | c :: rl' =>
      if negb (Utf8.bval c <? Utf8.RuneSelf)%Z then trim_right_space (rev rl)
      else if is_space c then trim_stop rl' else rev rl
  end.

Definition TrimSpace (s : string) : string :=
  string_of_list_ascii
    (match trim_start (list_ascii_of_string s) with inl r => r | inr l => trim_stop (rev l) end).

End Strings.

Module Strconv.

Local Open Scope Z_scope.

(** The [Err] field of a [*strconv.NumError], or none. *)
Inductive numerr := NumOk | NumSyntax | NumRange.

Definition is_digit (c : ascii) : bool :=
  ((48 <=? Ascii.N_of_ascii c) && (Ascii.N_of_ascii c <=? 57))%N.

Definition digit_val (c : ascii) : Z := Z.of_N (Ascii.N_of_ascii c) - 48.

Definition maxUint64 : Z := 2 ^ 64 - 1.

(** [cutoff] of ParseUint for base 10: the smallest [n] with [n*10]
    overflowing a uint64. *)
Definition cutoff10 : Z := maxUint64 / 10 + 1.

(** The digit loop of ParseUint(s, 10, 64): a non-digit is a syntax error
    (returning 0), an overflow returns maxUint64 at once. *)
Fixpoint parse_uint_loop (s : string) (n : Z) : Z * numerr :=
  match s with
  | EmptyString => (n, NumOk)
  | String c s' =>
      if negb (is_digit c) then (0, NumSyntax)
      else if cutoff10 <=? n then (maxUint64, NumRange)
      else
        let n1 := n * 10 + digit_val c in
        if maxUint64 <? n1 then (maxUint64, NumRange)
        else parse_uint_loop s' n1
  end.

Definition ParseUint (s : string) : Z * numerr :=
  match s with
  | EmptyString => (0, NumSyntax)
  | _ => parse_uint_loop s 0
  end.

(** ParseInt(s, 10, 0) on a 64-bit platform. *)
Definition ParseInt (s : string) : Z * numerr :=
  match s with
  | EmptyString => (0, NumSyntax)
  | String c s' =>
      let '(neg, body) :=
        if Ascii.eqb c "+"%char then (false, s')
        else if Ascii.eqb c "-"%char then (true, s')
        else (false, s) in
      let '(un, err) := ParseUint body in
      match err with
      | NumSyntax => (0, NumSyntax)
      | _ =>
          if negb neg && (2 ^ 63 <=? un) then (2 ^ 63 - 1, NumRange)
          else if neg && (2 ^ 63 <? un) then (- 2 ^ 63, NumRange)
          else ((if neg then - un else un), err)
      end
  end.

(** The digit loop of Atoi's fast path. *)
Fixpoint atoi_fast_loop (s : string) (n : Z) : option Z :=
  match s with
  | EmptyString => Some n
  | String c s' =>
      if negb (is_digit c) then None else atoi_fast_loop s' (n * 10 + digit_val c)
  end.

(** strconv.Atoi: the fast path for strings of 1 to 18 bytes, ParseInt
    otherwise. *)
Definition Atoi (s : string) : Z * numerr :=
  let sLen := String.length s in
  if ((0 <? sLen) && (sLen <? 19))%nat then
    match s with
    | EmptyString => (0, NumSyntax)
    | String c s' =>
        let signed := Ascii.eqb c "-"%char || Ascii.eqb c "+"%char in
        let body := if signed then s' else s in
        if signed && (String.length body =? 0)%nat then (0, NumSyntax)
        else
          match atoi_fast_loop body 0 with
          | None => (0, NumSyntax)
          | Some n => ((if Ascii.eqb c "-"%char then - n else n), NumOk)
          end
    end
  else ParseInt s.

(** The value of a decimal string, most significant digit first. *)
Definition decimal_value (d : string) : Z :=
  fold_left (fun acc c => (acc * 10 + digit_val c)) (list_ascii_of_string d) 0.

Definition all_digits (d : string) : bool := forallb is_digit (list_ascii_of_string d).

End Strconv.

Module Path.

(** path.Ext: the suffix from the last dot of the last element. *)
Fixpoint ext_loop (p : string) (i : nat) : string :=
  match i with
  | O => EmptyString
  | S i' =>
      match String.get i' p with
      | Some "/"%char => EmptyString
      | Some "."%char => String.substring i' (String.length p - i') p
      | _ => ext_loop p i'
      end
  end.

Definition Ext (p : string) : string := ext_loop p (String.length p).

(** The [default] branch of Clean copies one element: it returns the
    extended output (reversed) and the rest of the path. *)
Fixpoint clean_copy (rest : list ascii) (out : list ascii) : list ascii * list ascii :=
  match rest with
  | "/"%char :: _ => (out, rest)
  | c :: rest' => clean_copy rest' (c :: out)
  | [] => (out, [])
  end.

(** The [..] branch that backs up: pop bytes until a ['/'] has been popped
    or the output is down to [dotdot] bytes. *)
Fixpoint clean_backup (fuel : nat) (dotdot : nat) (out : list ascii) : list ascii :=
  match fuel, out with
  | S fuel', c :: out' =>
      if (dotdot <? length out')%nat && negb (Ascii.eqb c "/"%char)
      then clean_backup fuel' dotdot out'
      else out'
  | _, _ => out
  end.

(** The main loop of Clean; [rest] is [path[r:]], [out] the written bytes of
    the lazybuf in reverse.  Every iteration consumes at least one byte, so
    [length path] iterations are enough. *)
Fixpoint clean_loop (fuel : nat) (rooted : bool) (rest : list ascii)
    (out : list ascii) (dotdot : nat) : list ascii :=
  match fuel with
  | O => out
  | S fuel' =>
      match rest with
      | [] => out
      | "/"%char :: rest' => clean_loop fuel' rooted rest' out dotdot
      | "."%char :: [] => clean_loop fuel' rooted [] out dotdot
      | "."%char :: "/"%char :: rest' =>
          clean_loop fuel' rooted ("/"%char :: rest') out dotdot
      | "."%char :: "."%char :: rest' =>
          match rest' with
          | [] | "/"%char :: _ =>
              if (dotdot <? length out)%nat then
                clean_loop fuel' rooted rest' (clean_backup (length out) dotdot out) dotdot
              else if negb rooted then
                let out1 := if (0 <? length out)%nat then "/"%char :: out else out in
                let out2 := "."%char :: "."%char :: out1 in
                clean_loop fuel' rooted rest' out2 (length out2)
              else clean_loop fuel' rooted rest' out dotdot
          | _ =>
              let out1 :=
                if (rooted && negb (length out =? 1)%nat) || (negb rooted && negb (length out =? 0)%nat)
                then "/"%char :: out else out in
              let '(out2, rest2) := clean_copy rest out1 in
              clean_loop fuel' rooted rest2 out2 dotdot
          end
      | _ =>
          let out1 :=
            if (rooted && negb (length out =? 1)%nat) || (negb rooted && negb (length out =? 0)%nat)
            then "/"%char :: out else out in
          let '(out2, rest2) := clean_copy rest out1 in
          clean_loop fuel' rooted rest2 out2 dotdot
      end
  end.

(** path.Clean. *)
Definition Clean (p : string) : string :=
  match list_ascii_of_string p with
  | [] => "."
  | (c :: _) as l =>
      let rooted := Ascii.eqb c "/"%char in
      let out0 := if rooted then ["/"%char] else [] in
      let rest0 := if rooted then tail l else l in
      let out := clean_loop (length l) rooted rest0 out0 (if rooted then 1 else 0) in
      match out with
      | [] => "."
      | _ => string_of_list_ascii (rev out)
      end
  end.

(** path.Join: the non-empty elements joined by ['/'], then cleaned; the
    empty string when every element is empty. *)
Definition Join (elems : list string) : string :=
  if (sum_list_with String.length elems =? 0)%nat then EmptyString
  else
    Clean (foldl (fun buf e =>
                    if (0 <? String.length buf)%nat || negb (String.eqb e "")
                    then (if (0 <? String.length buf)%nat then buf +:+ "/" else buf) +:+ e
                    else buf) "" elems).

(** filepath.Dir on Unix: everything up to the last ['/'], cleaned. *)
Fixpoint last_slash (l : list ascii) (i : nat) (acc : option nat) : option nat :=
  match l with
  | [] => acc
  | c :: l' => last_slash l' (S i) (if Ascii.eqb c "/"%char then Some i else acc)
  end.

Definition Dir (p : string) : string :=
  let l := list_ascii_of_string p in
  let i := match last_slash l 0 None with Some k => S k | None => 0 end in
  Clean (string_of_list_ascii (take i l)).

End Path.

(** The checks of the runtime's [makeslice] and [makechan] on
    linux/amd64: [maxAlloc = 1 << 48] bytes, and a channel's header
    [hchanSize] of 96 bytes.  [make([]byte, 0, n)] panics with
    ["makeslice: cap out of range"] when [n] is negative or above
    [maxAlloc]; [make(chan T, n)] panics with ["makechan: size out of
    range"] when [n] is negative or [n] elements of [T] do not fit in
    [maxAlloc - hchanSize] (a product that overflows [uintptr] is above
    it as well). *)
Module Runtime.

Definition maxAlloc : Z := 2 ^ 48.
Definition hchanSize : Z := 96.

Definition makeslice_ok (cap : Z) : bool := (0 <=? cap)%Z && (cap <=? maxAlloc)%Z.

Definition makechan_ok (elemsize size : Z) : bool :=
  (0 <=? size)%Z && (elemsize * size <=? maxAlloc - hchanSize)%Z.

End Runtime.

(** ** Lemmas on the string functions *)

(** [sort.Slice] on at most 12 elements: [pdqsort_func] hands such a
    slice to [insertionSort_func], which moves each element left past its
    predecessors while it is [less] than them.  The sorted prefix is kept
    reversed ([rl], last element first), so each step is a walk from its
    head. *)
Module Sort.

Fixpoint bubble {A} (less : A -> A -> bool) (x : A) (rl : list A) : list A :=
  match rl with
  | [] => [x]
  | y :: rl' => if less x y then y :: bubble less x rl' else x :: y :: rl'
  end.

Definition insertion_sort {A} (less : A -> A -> bool) (l : list A) : list A :=
  rev (foldl (fun rl x => bubble less x rl) [] l).

End Sort.

Section StringLemmas.
Local Open Scope nat_scope.

Lemma append_cons (a : ascii) (d t : string) : String a d +:+ t = String a (d +:+ t).
Proof. reflexivity. Qed.

Lemma append_empty (t : string) : EmptyString +:+ t = t.
Proof. reflexivity. Qed.

Lemma append_empty_r (t : string) : t +:+ EmptyString = t.
Proof. induction t; [reflexivity|]; rewrite append_cons; f_equal; auto. Qed.

Lemma string_length_app (d t : string) :
  String.length (d +:+ t) = String.length d + String.length t.
Proof. induction d; [reflexivity|]; rewrite append_cons; cbn; auto. Qed.

Lemma substring0_app (d t : string) (m : nat) :
  String.substring 0 (String.length d + m) (d +:+ t) = d +:+ String.substring 0 m t.
Proof. induction d; [reflexivity|]; rewrite !append_cons; cbn; f_equal; auto. Qed.

Lemma substring_app_r (d t : string) (i l : nat) :
  String.substring (String.length d + i) l (d +:+ t) = String.substring i l t.
Proof. induction d; [reflexivity|]; rewrite append_cons; cbn; auto. Qed.

Lemma get_app_r (d t : string) (i : nat) :
  String.get (String.length d + i) (d +:+ t) = String.get i t.
Proof. induction d; [reflexivity|]; rewrite append_cons; cbn; auto. Qed.

Lemma substring_full (t : string) : String.substring 0 (String.length t) t = t.
Proof. induction t; simpl; f_equal; auto. Qed.

Lemma Contains_prefix (s u : string) : String.prefix u s = true -> Strings.Contains s u = true.
Proof. destruct s; simpl; intros ->; auto. Qed.

Lemma Contains_app_r (s t u : string) :
  Strings.Contains t u = true -> Strings.Contains (s +:+ t) u = true.
Proof.
  induction s as [|a s IH]; [done|]. rewrite append_cons. intros H. cbn.
  rewrite IH by done. apply orb_true_r.
Qed.

Lemma prefix_app (u x : string) : String.prefix u (u +:+ x) = true.
Proof.
  induction u as [|a u IH]; [by destruct x|]. rewrite append_cons; cbn.
  destruct (ascii_dec a a) as [_|n]; [exact IH | by destruct n].
Qed.

Lemma Contains_app_self (s t : string) : Strings.Contains (s +:+ t) t = true.
Proof.
  apply Contains_app_r. rewrite <- (append_empty_r t) at 1.
  apply Contains_prefix, prefix_app.
Qed.

Lemma Contains_single (s : string) (c : ascii) :
  Strings.Contains s (String c EmptyString) = true -> In c (list_ascii_of_string s).
Proof.
  induction s as [|a s IH]; simpl; [done|].
  destruct (ascii_dec c a) as [->|]; simpl; auto.
Qed.

Lemma map_bytes_app (f : ascii -> ascii) (s t : string) :
  Strings.map_bytes f (s +:+ t) = Strings.map_bytes f s +:+ Strings.map_bytes f t.
Proof.
  induction s as [|a s IH]; [reflexivity|].
  rewrite append_cons; cbn. rewrite append_cons. by f_equal.
Qed.

Lemma ToUpper_app (s t : string) :
  Strings.ToUpper (s +:+ t) = Strings.ToUpper s +:+ Strings.ToUpper t.
Proof. apply map_bytes_app. Qed.

Lemma Contains_head (s : string) (c : ascii) (r : string) :
  Strings.Contains s (String c r) = true -> Strings.Contains s (String c EmptyString) = true.
Proof.
  induction s as [|a s IH]; [done|]. cbn.
  destruct (ascii_dec c a); [by destruct s|]. simpl. auto.
Qed.

(** ** Atoi on decimal strings *)


Lemma atoi_fast_loop_digits (d : string) (n : Z) :
  Strconv.all_digits d = true ->
  Strconv.atoi_fast_loop d n =
  Some (fold_left (fun acc c => (acc * 10 + Strconv.digit_val c)%Z) (list_ascii_of_string d) n).
Proof.
  revert n; induction d as [|c d IH]; intros n; [done|].
  cbn. intros [-> Hd]%andb_prop. simpl. by apply IH.
Qed.

Lemma atoi_fast_loop_not_digits (d : string) (n : Z) :
  Strconv.all_digits d = false -> Strconv.atoi_fast_loop d n = None.
Proof.
  revert n; induction d as [|c d IH]; intros n; [done|].
  cbn. destruct (Strconv.is_digit c); simpl; auto.
Qed.

Lemma digit_not_sign (c : ascii) :
  Strconv.is_digit c = true -> Ascii.eqb c "-"%char = false /\ Ascii.eqb c "+"%char = false.
Proof.
  intros H. split; apply Bool.not_true_iff_false; intros E%Ascii.eqb_eq; subst; discriminate H.
Qed.

(** [Atoi] of a decimal string of 1 to 18 digits is its value. *)
Lemma Atoi_digits (d : string) :
  Strconv.all_digits d = true -> (1 <= String.length d <= 18)%nat ->
  Strconv.Atoi d = (Strconv.decimal_value d, Strconv.NumOk).
Proof.
  intros Hd Hlen. unfold Strconv.Atoi.
  destruct ((0 <? String.length d) && (String.length d <? 19))%nat eqn:E;
    [| apply andb_false_iff in E as [E|E]; apply Nat.ltb_ge in E; lia].
  destruct d as [|c d']; [simpl in Hlen; lia|].
  pose proof Hd as Hc. cbn in Hc. apply andb_prop in Hc as [Hc _].
  destruct (digit_not_sign c Hc) as [-> ->]. simpl orb. cbv iota beta.
  rewrite (atoi_fast_loop_digits _ _ Hd). done.
Qed.

(** [Atoi] of a string of 1 to 18 bytes that is not a signed decimal is 0. *)
Lemma Atoi_not_digits (d : string) (c : ascii) (r : string) :
  d = String c r -> Ascii.eqb c "-"%char = false -> Ascii.eqb c "+"%char = false ->
  Strconv.all_digits d = false -> (String.length d <= 18)%nat ->
  Strconv.Atoi d = (0%Z, Strconv.NumSyntax).
Proof.
  intros -> Hm Hp Hd Hlen. unfold Strconv.Atoi.
  replace ((0 <? String.length (String c r)) && (String.length (String c r) <? 19))%nat
    with true by (symmetry; apply andb_true_iff; split; apply Nat.ltb_lt; simpl in *; lia).
  rewrite Hm, Hp. simpl orb. cbv iota beta.
  by rewrite atoi_fast_loop_not_digits.
Qed.

Lemma string_app_assoc (a b c : string) : a +:+ (b +:+ c) = (a +:+ b) +:+ c.
Proof. induction a as [|x a IH]; [reflexivity|]. rewrite !append_cons. by rewrite IH. Qed.

(** [path.Ext] of a name ending in ['.'] and a tag without ['.'] or ['/']. *)
Lemma ext_loop_step (p : string) (i : nat) (a : ascii) :
  String.get i p = Some a ->
  Path.ext_loop p (S i) =
    if decide (a = "/"%char) then EmptyString
    else if decide (a = "."%char) then String.substring i (String.length p - i) p
    else Path.ext_loop p i.
Proof.
  intros Hg. cbn [Path.ext_loop]. rewrite Hg.
  destruct a as [[] [] [] [] [] [] [] []]; reflexivity.
Qed.

Lemma get_some (t : string) (k : nat) : (k < String.length t)%nat -> exists a, String.get k t = Some a.
Proof.
  revert k; induction t as [|a t IH]; intros [|k] Hk; cbn in *; try lia; eauto.
  apply IH; lia.
Qed.

Lemma get_no_sep (t : string) (k : nat) (a : ascii) :
  Forall (fun b => b <> "."%char /\ b <> "/"%char) (list_ascii_of_string t) ->
  String.get k t = Some a -> a <> "."%char /\ a <> "/"%char.
Proof.
  revert k; induction t as [|b t IH]; intros [|k] Hf Hg; cbn in *; try discriminate;
    apply Forall_cons in Hf as [Hb Hf]; [by injection Hg as <-|eauto].
Qed.

Lemma Ext_tag (x tag : string) :
  Forall (fun b => b <> "."%char /\ b <> "/"%char) (list_ascii_of_string tag) ->
  Path.Ext (x +:+ String "." tag) = String "." tag.
Proof.
  intros Hf. set (p := x +:+ String "." tag).
  assert (Hlen : String.length p = String.length x + S (String.length tag))
    by (unfold p; rewrite string_length_app; done).
  assert (Hk : forall k, (k <= String.length tag)%nat ->
            Path.ext_loop p (String.length x + 1 + k) = Path.ext_loop p (String.length x + 1)).
  { induction k as [|k IH]; intros Hk; [by rewrite Nat.add_0_r|].
    destruct (get_some tag k) as [a Ha]; [lia|].
    rewrite Nat.add_succ_r, (ext_loop_step _ _ a).
    - destruct (get_no_sep tag k a Hf Ha). rewrite !decide_False by done. apply IH; lia.
    - unfold p. rewrite <- Nat.add_assoc, get_app_r. exact Ha. }
  unfold Path.Ext. rewrite Hlen.
  replace (String.length x + S (String.length tag))%nat
    with (String.length x + 1 + String.length tag)%nat by lia.
  rewrite Hk by lia. rewrite Nat.add_1_r, (ext_loop_step _ _ "."%char).
  - rewrite decide_False, decide_True by done. rewrite Hlen. replace (String.length x + S (String.length tag) - String.length x)%nat
      with (S (String.length tag)) by lia.
    unfold p. rewrite <- (Nat.add_0_r (String.length x)) at 1. rewrite substring_app_r.
    change (S (String.length tag)) with (String.length (String "." tag)). apply substring_full.
  - unfold p. rewrite <- (Nat.add_0_r (String.length x)) at 1. rewrite get_app_r. done.
Qed.

End StringLemmas.

(** ** The insertion sort of [sort.Slice], ordered by an integer key *)
Section SortLemmas.
Context {A : Type} (key : A -> Z).

Local Definition less_key (a b : A) : bool := (key a <? key b)%Z.
Local Definition ge_key (a b : A) : Prop := (key b <= key a)%Z.

Lemma bubble_perm (x : A) (rl : list A) : Sort.bubble less_key x rl ≡ₚ x :: rl.
Proof.
  induction rl as [|y rl IH]; simpl; [done|].
  destruct (less_key x y); [|done]. rewrite IH. apply Permutation_swap.
Qed.

Lemma bubble_sorted (x : A) (rl : list A) :
  StronglySorted ge_key rl -> StronglySorted ge_key (Sort.bubble less_key x rl).
Proof.
  induction rl as [|y rl IH]; intros Hs; simpl; [repeat constructor|].
  apply StronglySorted_inv in Hs as [Hs Hy].
  unfold less_key. destruct (key x <? key y)%Z eqn:E.
  - constructor; [by apply IH|]. rewrite (bubble_perm x rl).
    constructor; [unfold ge_key; lia|done].
  - constructor; [by constructor|]. constructor; [unfold ge_key; lia|].
    eapply Forall_impl; [exact Hy|]. unfold ge_key; intros z Hz; lia.
Qed.

Lemma StronglySorted_snoc {B} (R : B -> B -> Prop) (l : list B) (x : B) :
  StronglySorted R l -> Forall (fun y => R y x) l -> StronglySorted R (l ++ [x]).
Proof.
  induction l as [|y l IH]; intros Hs Hf; simpl; [repeat constructor|].
  apply StronglySorted_inv in Hs as [Hs Hy]. apply Forall_cons in Hf as [Hyx Hf].
  constructor; [by apply IH|]. apply Forall_app; auto.
Qed.

Lemma StronglySorted_rev {B} (R : B -> B -> Prop) (l : list B) :
  StronglySorted R l -> StronglySorted (fun a b => R b a) (rev l).
Proof.
  induction l as [|y l IH]; intros Hs; simpl; [constructor|].
  apply StronglySorted_inv in Hs as [Hs Hy]. apply StronglySorted_snoc; [auto|].
  by apply Forall_rev.
Qed.

(** [sort.Slice] with [less i j := key(i) < key(j)] sorts: the result is a
    permutation of the input, ascending by key. *)
Lemma insertion_sort_spec (l : list A) :
  Sort.insertion_sort less_key l ≡ₚ l /\
  StronglySorted (fun a b => key a <= key b)%Z (Sort.insertion_sort less_key l).
Proof.
  unfold Sort.insertion_sort. rewrite <- (app_nil_l l) at 2.
  assert (H : forall rl, StronglySorted ge_key rl ->
            rev (foldl (fun rl x => Sort.bubble less_key x rl) rl l) ≡ₚ rev rl ++ l /\
            StronglySorted ge_key (foldl (fun rl x => Sort.bubble less_key x rl) rl l)).
  { induction l as [|x l IH]; intros rl Hs; simpl; [by rewrite app_nil_r|].
    destruct (IH _ (bubble_sorted x rl Hs)) as [Hp Hss]. split; [|done].
    rewrite Hp, (bubble_perm x rl). simpl. by rewrite <- app_assoc. }
  destruct (H [] (SSorted_nil _)) as [Hp Hs]. split; [done|].
  apply (StronglySorted_rev ge_key) in Hs. exact Hs.
Qed.

End SortLemmas.


Example Clean_examples :
  Path.Clean "./log" = "log" /\ Path.Clean "a//b/../c/." = "a/c" /\ Path.Clean "a/b/.." = "a" /\
  Path.Clean "/../x" = "/x" /\ Path.Clean "../../a" = "../../a" /\
  Path.Clean "" = ".".
Proof. vm_compute. repeat split. Qed.

Example Join_examples :
  Path.Join ["./log"; "log"] = "log/log" /\ Path.Join ["./"; "foo"] = "foo" /\
  Path.Join [""; ""] = "" /\ Path.Join ["/var/log/"; "app.log.202001010000"] = "/var/log/app.log.202001010000".
Proof. vm_compute. repeat split. Qed.

Example Atoi_examples :
  Strconv.Atoi "100" = (100%Z, Strconv.NumOk) /\ Strconv.Atoi "-7" = ((-7)%Z, Strconv.NumOk) /\
  Strconv.Atoi "2M" = (0%Z, Strconv.NumSyntax) /\ Strconv.Atoi "" = (0%Z, Strconv.NumSyntax) /\
  Strconv.Atoi "99999999999999999999x" = ((2 ^ 63 - 1)%Z, Strconv.NumRange).
Proof. vm_compute. repeat split. Qed.
