(* ===== verification/Config.v ===== *)
(** * Config: the configuration of a rolling writer

    The [Config] struct, its defaults, the functional options [With...] and
    [LogFilePath], from the rollingwriter configuration file (src/unnamed/
    part_001), and the option loop of [NewWriter] (src/rollingwriter/
    writer.go).  Go [int] fields are [Z]; the rolling policy stays an [int]
    as in the code, with its three [iota] constants. *)

From S2P Require Import Prelude GoLib.

Module Config.

Local Open Scope Z_scope.

(** The [iota] constants of the rolling policies. *)
Definition WithoutRolling : Z := 0.
Definition TimeRolling : Z := 1.
Definition VolumeRolling : Z := 2.

Record Config := mkConfig {
  TimeTagFormat : string;
  LogPath : string;
  FileName : string;
  MaxRemain : Z;
  RollingPolicy : Z;
  RollingTimePattern : string;
  RollingVolumeSize : string;
  WriterMode : string;
  BufferWriterThreshold : Z;
  Compress : bool
}.

#[export] Instance Config_eq_dec : EqDecision Config.
Proof. solve_decision. Defined.

Definition NewDefaultConfig : Config := {|
  TimeTagFormat := "200601021504";
  LogPath := "./log";
  FileName := "log";
  MaxRemain := -1;
  RollingPolicy := 1;
  RollingTimePattern := "0 0 * * *";
  RollingVolumeSize := "1G";
  WriterMode := "lock";
  BufferWriterThreshold := 64;
  Compress := false
|}.

(** The full path of the active log file. *)
Definition LogFilePath (c : Config) : string :=
  Path.Join [LogPath c; FileName c] +:+ ".log".

(** [type Option func(c *Config)]: an option updates the configuration. *)
Definition Option := Config -> Config.

Definition WithTimeTagFormat (format : string) : Option := fun c =>
  {| TimeTagFormat := format; LogPath := LogPath c; FileName := FileName c;
     MaxRemain := MaxRemain c; RollingPolicy := RollingPolicy c;
     RollingTimePattern := RollingTimePattern c; RollingVolumeSize := RollingVolumeSize c;
     WriterMode := WriterMode c; BufferWriterThreshold := BufferWriterThreshold c;
     Compress := Compress c |}.

Definition WithLogPath (path : string) : Option := fun c =>
  {| TimeTagFormat := TimeTagFormat c; LogPath := path; FileName := FileName c;
     MaxRemain := MaxRemain c; RollingPolicy := RollingPolicy c;
     RollingTimePattern := RollingTimePattern c; RollingVolumeSize := RollingVolumeSize c;
     WriterMode := WriterMode c; BufferWriterThreshold := BufferWriterThreshold c;
     Compress := Compress c |}.

Definition WithFileName (name : string) : Option := fun c =>
  {| TimeTagFormat := TimeTagFormat c; LogPath := LogPath c; FileName := name;
     MaxRemain := MaxRemain c; RollingPolicy := RollingPolicy c;
     RollingTimePattern := RollingTimePattern c; RollingVolumeSize := RollingVolumeSize c;
     WriterMode := WriterMode c; BufferWriterThreshold := BufferWriterThreshold c;
     Compress := Compress c |}.

(** The three mode options differ only in the mode they write. *)
Definition set_WriterMode (mode : string) (c : Config) : Config :=
  {| TimeTagFormat := TimeTagFormat c; LogPath := LogPath c; FileName := FileName c;
     MaxRemain := MaxRemain c; RollingPolicy := RollingPolicy c;
     RollingTimePattern := RollingTimePattern c; RollingVolumeSize := RollingVolumeSize c;
     WriterMode := mode; BufferWriterThreshold := BufferWriterThreshold c;
     Compress := Compress c |}.

Definition WithAsynchronous : Option := set_WriterMode "async".
Definition WithLock : Option := set_WriterMode "lock".
Definition WithBuffer : Option := set_WriterMode "buffer".

Definition WithBufferThreshold (n : Z) : Option := fun c =>
  {| TimeTagFormat := TimeTagFormat c; LogPath := LogPath c; FileName := FileName c;
     MaxRemain := MaxRemain c; RollingPolicy := RollingPolicy c;
     RollingTimePattern := RollingTimePattern c; RollingVolumeSize := RollingVolumeSize c;
     WriterMode := WriterMode c; BufferWriterThreshold := n;
     Compress := Compress c |}.

Definition WithCompress : Option := fun c =>
  {| TimeTagFormat := TimeTagFormat c; LogPath := LogPath c; FileName := FileName c;
     MaxRemain := MaxRemain c; RollingPolicy := RollingPolicy c;
     RollingTimePattern := RollingTimePattern c; RollingVolumeSize := RollingVolumeSize c;
     WriterMode := WriterMode c; BufferWriterThreshold := BufferWriterThreshold c;
     Compress := true |}.

Definition WithMaxRemain (max : Z) : Option := fun c =>
  {| TimeTagFormat := TimeTagFormat c; LogPath := LogPath c; FileName := FileName c;
     MaxRemain := max; RollingPolicy := RollingPolicy c;
     RollingTimePattern := RollingTimePattern c; RollingVolumeSize := RollingVolumeSize c;
     WriterMode := WriterMode c; BufferWriterThreshold := BufferWriterThreshold c;
     Compress := Compress c |}.

Definition WithoutRollingPolicy : Option := fun c =>
  {| TimeTagFormat := TimeTagFormat c; LogPath := LogPath c; FileName := FileName c;
     MaxRemain := MaxRemain c; RollingPolicy := WithoutRolling;
     RollingTimePattern := RollingTimePattern c; RollingVolumeSize := RollingVolumeSize c;
     WriterMode := WriterMode c; BufferWriterThreshold := BufferWriterThreshold c;
     Compress := Compress c |}.

Definition WithRollingTimePattern (pattern : string) : Option := fun c =>
  {| TimeTagFormat := TimeTagFormat c; LogPath := LogPath c; FileName := FileName c;
     MaxRemain := MaxRemain c; RollingPolicy := TimeRolling;
     RollingTimePattern := pattern; RollingVolumeSize := RollingVolumeSize c;
     WriterMode := WriterMode c; BufferWriterThreshold := BufferWriterThreshold c;
     Compress := Compress c |}.

Definition WithRollingVolumeSize (size : string) : Option := fun c =>
  {| TimeTagFormat := TimeTagFormat c; LogPath := LogPath c; FileName := FileName c;
     MaxRemain := MaxRemain c; RollingPolicy := VolumeRolling;
     RollingTimePattern := RollingTimePattern c; RollingVolumeSize := size;
     WriterMode := WriterMode c; BufferWriterThreshold := BufferWriterThreshold c;
     Compress := Compress c |}.

(** The loop of [NewWriter]: the options applied in order to the defaults. *)
Definition apply_options (ops : list Option) : Config :=
  foldl (fun cfg opt => opt cfg) NewDefaultConfig ops.

(** The test [TestOptions] ([src/unnamed/part_000]): its option list and
    the configuration it expects. *)
Definition test_options : list Option :=
  [WithTimeTagFormat "200601021504"; WithLogPath "./"; WithFileName "foo";
   WithAsynchronous; WithBuffer; WithBufferThreshold 8; WithCompress; WithLock;
   WithMaxRemain 3; WithRollingVolumeSize "100mb"; WithRollingTimePattern "0 0 * * *"].

Definition destcfg : Config :=
  {| LogPath := "./"; TimeTagFormat := "200601021504"; FileName := "foo"; MaxRemain := 3;
     RollingPolicy := TimeRolling; RollingTimePattern := "0 0 * * *";
     RollingVolumeSize := "100mb"; WriterMode := "lock"; BufferWriterThreshold := 8;
     Compress := true |}.

(** [TestOptions] passes: the options applied in order to the defaults
    give [destcfg]; the last writer-mode option ([WithLock]) and the last
    policy option ([WithRollingTimePattern]) win, and the earlier volume
    size stays. *)
Example TestOptions : apply_options test_options = destcfg.
Proof. reflexivity. Qed.

End Config.
