(* ===== verification/SizeParser.v ===== *)
(** * SizeParser: [manager.ParseVolume]

    The threshold of the size-based policy, computed from the human-readable
    size string by [ParseVolume] (src/rollingwriter/manager.go).  The string
    is upper-cased, tested for a unit, split into a number and a unit with
    Go slicing (which panics out of range: here an [Err (Panic _)]), parsed
    with [strconv.Atoi] (whose error the code drops) and multiplied in
    [int64], wrapping around. *)

From S2P Require Import Prelude GoLib.

Module SizeParser.

Local Open Scope Z_scope.

(** Go's [s[:j]], [s[j:]] and [s[i]] on a string: a panic out of range. *)
Definition go_slice_to (s : string) (j : Z) : result string :=
  if (0 <=? j) && (j <=? Z.of_nat (String.length s))
  then Ok (String.substring 0 (Z.to_nat j) s)
  else Err (Panic "slice bounds out of range").

Definition go_slice_from (s : string) (i : Z) : result string :=
  if (0 <=? i) && (i <=? Z.of_nat (String.length s))
  then Ok (String.substring (Z.to_nat i) (String.length s - Z.to_nat i) s)
  else Err (Panic "slice bounds out of range").

Definition go_index (s : string) (i : Z) : result ascii :=
  match String.get (Z.to_nat i) s with
  | Some c => if 0 <=? i then Ok c else Err (Panic "index out of range")
  | None => Err (Panic "index out of range")
  end.

(** The unit strings whose presence the code tests, in its order. *)
Definition unit_strings : list string := ["K"; "KB"; "M"; "MB"; "G"; "GB"; "T"; "TB"].

(** The [switch unitstr] with its [fallthrough]s: each case multiplies by
    1024 and falls into the next; [default] falls into the [T] case. *)
Definition case_K (unit : Z) : Z := unit * 1024.
Definition case_M (unit : Z) : Z := case_K (unit * 1024).
Definition case_G (unit : Z) : Z := case_M (unit * 1024).
Definition case_T (unit : Z) : Z := case_G (unit * 1024).

Definition unit_switch (unitstr : string) (unit : Z) : Z :=
  if String.eqb unitstr "T" || String.eqb unitstr "TB" then case_T unit
  else if String.eqb unitstr "G" || String.eqb unitstr "GB" then case_G unit
  else if String.eqb unitstr "M" || String.eqb unitstr "MB" then case_M unit
  else if String.eqb unitstr "K" || String.eqb unitstr "KB" then case_K unit
  else case_T unit.

(** [ParseVolume]: the new [thresholdSize] for the size string. *)
Definition ParseVolume (size : string) : result Z :=
  let s := Strings.ToUpper size in
  if negb (existsb (Strings.Contains s) unit_strings) then Ok (1024 * 1024 * 1024)
  else
    let n := Z.of_nat (String.length s) in
    pre <-? go_slice_to s (n - 1) ;;
    last <-? go_index s (n - 1) ;;
    pu <-? (if Ascii.eqb last "B"%char then
              pre2 <-? go_slice_to s (n - 2) ;;
              unitstr <-? go_slice_from s (n - 2) ;;
              Ok (fst (Strconv.Atoi pre2), unitstr)
            else Ok (fst (Strconv.Atoi pre), String last EmptyString)) ;;
    Ok (wrap64 (fst pu * unit_switch (snd pu) 1)).

(** The spec's reading of a unit: a binary multiplier, [K] = 2^10 up to
    [T] = 2^40, with or without a trailing [B]. *)
Definition unit_bytes (u : string) : Z :=
  if String.eqb u "K" || String.eqb u "KB" then 2 ^ 10
  else if String.eqb u "M" || String.eqb u "MB" then 2 ^ 20
  else if String.eqb u "G" || String.eqb u "GB" then 2 ^ 30
  else 2 ^ 40.

(** ** Slicing a concatenation *)

Lemma go_slice_to_app (p t : string) (m : nat) (j : Z) :
  (m <= String.length t)%nat -> j = Z.of_nat (String.length p + m) ->
  go_slice_to (p +:+ t) j = Ok (p +:+ String.substring 0 m t).
Proof.
  intros Hm ->. unfold go_slice_to. rewrite string_length_app.
  replace ((0 <=? _) && (_ <=? _)) with true
    by (symmetry; apply andb_true_iff; split; apply Z.leb_le; lia).
  by rewrite Nat2Z.id, substring0_app.
Qed.

Lemma go_slice_from_app (p t : string) (j : Z) :
  j = Z.of_nat (String.length p) -> go_slice_from (p +:+ t) j = Ok t.
Proof.
  intros ->. unfold go_slice_from. rewrite string_length_app.
  replace ((0 <=? _) && (_ <=? _)) with true
    by (symmetry; apply andb_true_iff; split; apply Z.leb_le; lia).
  rewrite Nat2Z.id, <- (Nat.add_0_r (String.length p)) at 1.
  rewrite substring_app_r. replace (_ + _ - _)%nat with (String.length t) by lia.
  by rewrite substring_full.
Qed.

Lemma go_index_app (p t : string) (i : nat) (c : ascii) (j : Z) :
  String.get i t = Some c -> j = Z.of_nat (String.length p + i) ->
  go_index (p +:+ t) j = Ok c.
Proof.
  intros Hc ->. unfold go_index. rewrite Nat2Z.id, get_app_r, Hc.
  replace (0 <=? _) with true by (symmetry; apply Z.leb_le; lia). done.
Qed.

(** Upper-cased, the string contains a unit string exactly when it contains
    one of the four unit letters. *)
Lemma units_contained (s : string) :
  existsb (Strings.Contains s) unit_strings = true ->
  exists c, c ∈ ["K"; "M"; "G"; "T"]%char /\ In c (list_ascii_of_string s).
Proof.
  intros (u & Hu & Hc)%existsb_exists.
  repeat (destruct Hu as [<-|Hu]; [eexists; split; [|apply Contains_single, (Contains_head _ _ _ Hc)]; set_solver|]).
  destruct Hu.
Qed.

(** The unit switch with its fallthroughs is the binary multiplier. *)
Lemma unit_switch_bytes (t : string) : t ∈ unit_strings -> unit_switch t 1 = unit_bytes t.
Proof.
  intros Ht. repeat (destruct (proj1 (elem_of_cons _ _ _) Ht) as [->|Ht']; [reflexivity|]; clear Ht; rename Ht' into Ht).
  by apply elem_of_nil in Ht.
Qed.

Lemma go_slice_to_suffix (p t : string) (k : Z) :
  0 <= k <= Z.of_nat (String.length t) ->
  go_slice_to (p +:+ t) (Z.of_nat (String.length (p +:+ t)) - k)
  = Ok (p +:+ String.substring 0 (String.length t - Z.to_nat k) t).
Proof.
  intros Hk. apply go_slice_to_app; [lia|]. rewrite string_length_app. lia.
Qed.
Lemma go_slice_from_suffix (p t : string) (k : Z) :
  k = Z.of_nat (String.length t) ->
  go_slice_from (p +:+ t) (Z.of_nat (String.length (p +:+ t)) - k) = Ok t.
Proof. intros ->. apply go_slice_from_app. rewrite string_length_app. lia. Qed.
Lemma go_index_suffix (p t : string) (k : Z) (c : ascii) :
  1 <= k <= Z.of_nat (String.length t) ->
  String.get (String.length t - Z.to_nat k) t = Some c ->
  go_index (p +:+ t) (Z.of_nat (String.length (p +:+ t)) - k) = Ok c.
Proof. intros Hk Hc. apply (go_index_app _ _ _ _ _ Hc). rewrite string_length_app. lia. Qed.

Lemma ParseVolume_unit_suffix (size p t : string) :
  t ∈ unit_strings -> Strings.ToUpper size = p +:+ t ->
  ParseVolume size = Ok (wrap64 (fst (Strconv.Atoi p) * unit_bytes t)).
Proof.
  intros Ht Hs. unfold ParseVolume. cbv zeta. rewrite Hs.
  replace (existsb _ unit_strings) with true
    by (symmetry; apply existsb_exists; exists t; split; [by apply list_elem_of_In|apply Contains_app_self]).
  rewrite <- unit_switch_bytes by done. simpl negb. cbv iota.
  apply list_elem_of_In in Ht. cbv [unit_strings In] in Ht. destruct_or! Ht; try contradiction; subst t.
  all: rewrite go_slice_to_suffix by (cbn; lia).
  all: erewrite go_index_suffix by (cbn; lia || reflexivity).
  all: cbn -[Strconv.Atoi wrap64 unit_switch go_slice_to go_slice_from String.append String.length].
  all: rewrite ?go_slice_to_suffix, ?go_slice_from_suffix by (cbn; lia).
  all: cbn -[Strconv.Atoi wrap64 unit_switch String.append].
  all: by rewrite append_empty_r.
Qed.

Lemma get_lt (s : string) (i : nat) :
  (i < String.length s)%nat -> exists c, String.get i s = Some c.
Proof.
  revert i; induction s as [|a s IH]; intros [|i] Hi; simpl in *; try lia; eauto.
  apply IH; lia.
Qed.

Lemma Contains_empty_unit (u : string) : u ∈ unit_strings -> Strings.Contains EmptyString u = false.
Proof. intros Hu. apply list_elem_of_In in Hu. cbv [unit_strings In] in Hu. by destruct_or! Hu; subst. Qed.

(** ** Properties *)

(** C26: [ParseVolume] never panics: for every size string the slicing and
    indexing it does stay in range, so it always returns a threshold. *)
Theorem ParseVolume_total (size : string) : exists v, ParseVolume size = Ok v.
Proof.
  unfold ParseVolume. cbv zeta. set (s := Strings.ToUpper size).
  destruct (existsb (Strings.Contains s) unit_strings) eqn:Hex; [|by eexists].
  simpl negb; cbv iota.
  assert (Hne : (1 <= String.length s)%nat).
  { destruct s; [|simpl; lia]. apply existsb_exists in Hex as (u & Hu%list_elem_of_In & Hc).
    by rewrite Contains_empty_unit in Hc. }
  unfold go_slice_to at 1.
  replace ((0 <=? _) && (_ <=? _)) with true
    by (symmetry; apply andb_true_iff; split; apply Z.leb_le; lia). simpl rbind.
  destruct (get_lt s (String.length s - 1) ltac:(lia)) as [c Hc].
  unfold go_index. rewrite Z2Nat.inj_sub, Nat2Z.id by lia. change (Z.to_nat 1) with 1%nat.
  rewrite Hc. replace (0 <=? _) with true by (symmetry; apply Z.leb_le; lia). simpl rbind.
  destruct (Ascii.eqb c "B"%char) eqn:HB; [|by eexists].
  assert (H2 : (2 <= String.length s)%nat).
  { destruct s as [|a [|b s']]; simpl in *; try lia.
    apply Ascii.eqb_eq in HB. simpl in Hc. injection Hc as ->. subst. discriminate Hex. }
  unfold go_slice_to, go_slice_from.
  replace ((0 <=? _) && (_ <=? _)) with true
    by (symmetry; apply andb_true_iff; split; apply Z.leb_le; lia).
  by eexists.
Qed.

(** C25: a decimal number of 1 to 18 digits followed by a unit ([K], [M],
    [G], [T], each with or without [B], in either case) gives the number
    times the unit's binary multiplier, as an [int64]. *)
Theorem ParseVolume_decimal_unit (size d t : string) :
  Strings.ToUpper size = d +:+ t -> t ∈ unit_strings ->
  Strconv.all_digits d = true -> (1 <= String.length d <= 18)%nat ->
  ParseVolume size = Ok (wrap64 (Strconv.decimal_value d * unit_bytes t)).
Proof.
  intros Hs Ht Hd Hlen. rewrite (ParseVolume_unit_suffix size d t Ht Hs).
  by rewrite Atoi_digits.
Qed.

(** A size string with none of the unit letters [K], [M], [G], [T]
    (in either case) falls back to the 1 GiB threshold. *)
Theorem ParseVolume_no_unit (size : string) :
  (forall c, In c (list_ascii_of_string (Strings.ToUpper size)) -> c ∉ ["K"; "M"; "G"; "T"]%char) ->
  ParseVolume size = Ok (2 ^ 30).
Proof.
  intros Hno. unfold ParseVolume. cbv zeta.
  destruct (existsb _ unit_strings) eqn:Hex; [|reflexivity].
  destruct (units_contained _ Hex) as (c & Hc & Hin). by destruct (Hno c Hin).
Qed.

(** C36: a malformed number before a recognised unit (a decimal point, a
    space, a letter) is not rejected and does not fall back to the 1 GiB
    default: the threshold becomes 0, so every poll finds the file too big. *)
Theorem ParseVolume_malformed_number (size d t : string) (c : ascii) (r : string) :
  Strings.ToUpper size = d +:+ t -> t ∈ unit_strings -> d = String c r ->
  Ascii.eqb c "-"%char = false -> Ascii.eqb c "+"%char = false ->
  Strconv.all_digits d = false -> (String.length d <= 18)%nat ->
  ParseVolume size = Ok 0.
Proof.
  intros Hs Ht Hd Hm Hp Hnd Hlen. rewrite (ParseVolume_unit_suffix size d t Ht Hs).
  by rewrite (Atoi_not_digits d c r).
Qed.

(** The spec's examples. *)
Example ParseVolume_spec_examples :
  ParseVolume "1K" = Ok 1024 /\ ParseVolume "2MB" = Ok 2097152 /\
  ParseVolume "3GB" = Ok 3221225472 /\ ParseVolume "weird" = Ok 1073741824.
Proof. vm_compute. repeat split. Qed.

Lemma ParseVolume_decimal_unit_witness :
  ParseVolume "2mb" = Ok (wrap64 (Strconv.decimal_value "2" * unit_bytes "MB")).
Proof.
  apply (ParseVolume_decimal_unit "2mb" "2" "MB"); [reflexivity | by_decide | reflexivity | simpl; lia].
Defined.

Lemma ParseVolume_no_unit_witness : ParseVolume "100" = Ok (2 ^ 30).
Proof.
  apply ParseVolume_no_unit. intros c Hc. vm_compute in Hc.
  destruct_or! Hc; try contradiction; subst; by_decide.
Defined.

Lemma ParseVolume_malformed_number_witness : ParseVolume "1.5g" = Ok 0.
Proof.
  apply (ParseVolume_malformed_number "1.5g" "1.5" "G" "1"%char ".5");
    [reflexivity | by_decide | reflexivity | reflexivity | reflexivity | reflexivity | simpl; lia].
Defined.

(** The multiplication is done in [int64] and wraps: [8388608T] is
    [2^63] bytes and gives the most negative threshold. *)
Example ParseVolume_wraps_negative : ParseVolume "8388608T" = Ok (- 2 ^ 63).
Proof. vm_compute. reflexivity. Qed.

End SizeParser.
