(* ===== verification/FileSys.v ===== *)
(** * FileSys: the part of the [os] package the writer uses

    A directory maps names to inodes, an inode holds its bytes, and an open
    [*os.File] is a handle number bound to an inode.  A renamed file keeps its
    inode, so a handle opened before a rename writes into the renamed file,
    which is what [Reopen] relies on.  Names in [denied] cannot be created or
    renamed onto (a permission error), which is how the model reaches the
    error returns of [os.OpenFile] and [os.Rename].  These are library
    functions: nothing here is mapped to [src/]. *)

From S2P Require Import Prelude GoLib.

Module FS.

Record fs := mkFS {
  dir : gmap string nat;
  inodes : gmap nat bytes;
  handles : gmap nat nat;
  next_id : nat;
  denied : gset string
}.

(** A handle of the file system: [*os.File]. *)
Abbreviation handle := nat.

Definition set_dir (d : gmap string nat) (s : fs) : fs :=
  mkFS d (inodes s) (handles s) (next_id s) (denied s).
Definition set_inodes (i : gmap nat bytes) (s : fs) : fs :=
  mkFS (dir s) i (handles s) (next_id s) (denied s).
Definition set_handles (h : gmap nat nat) (s : fs) : fs :=
  mkFS (dir s) (inodes s) h (next_id s) (denied s).

(** A fresh handle bound to inode [i]. *)
Definition new_handle (i : nat) : st fs handle := fun s =>
  (mkFS (dir s) (inodes s) (<[next_id s := i]> (handles s)) (S (next_id s)) (denied s),
   Ok (next_id s)).

(** os.OpenFile(name, O_RDWR|O_CREATE|O_APPEND, 0644). *)
Definition OpenFile (name : string) : st fs handle := fun s =>
  if decide (name ∈ denied s) then (s, Err (ErrPermission "open" name))
  else match dir s !! name with
       | Some i => new_handle i s
       | None =>
           let i := next_id s in
           new_handle i (mkFS (<[name := i]> (dir s)) (<[i := []]> (inodes s))
                              (handles s) (S i) (denied s))
       end.

(** os.Open(name): read-only, no creation. *)
Definition Open (name : string) : st fs handle := fun s =>
  match dir s !! name with
  | Some i => new_handle i s
  | None => (s, Err (ErrNotExist "open" name))
  end.

(** os.Rename(old, new): replaces [new] if it exists. *)
Definition Rename (old new : string) : st fs unit := fun s =>
  match dir s !! old with
  | None => (s, Err (ErrNotExist "rename" old))
  | Some i =>
      if decide (new ∈ denied s) then (s, Err (ErrPermission "rename" new))
      else (set_dir (<[new := i]> (delete old (dir s))) s, Ok tt)
  end.

(** os.Remove(name). *)
Definition Remove (name : string) : st fs unit := fun s =>
  match dir s !! name with
  | None => (s, Err (ErrNotExist "remove" name))
  | Some _ => (set_dir (delete name (dir s)) s, Ok tt)
  end.

(** (f *File).Write(b) on a file opened with O_APPEND. *)
Definition Write (h : handle) (b : bytes) : st fs Z := fun s =>
  match handles s !! h with
  | None => (s, Err ErrFileClosed)
  | Some i =>
      let old := default [] (inodes s !! i) in
      (set_inodes (<[i := old ++ b]> (inodes s)) s, Ok (Z.of_nat (length b)))
  end.

(** (f *File).Close(). *)
Definition Close (h : handle) : st fs unit := fun s =>
  match handles s !! h with
  | None => (s, Err ErrFileClosed)
  | Some _ => (set_handles (delete h (handles s)) s, Ok tt)
  end.

(** f.Seek(0, 0): fails only on a closed file. *)
Definition Seek (h : handle) : st fs unit := fun s =>
  match handles s !! h with
  | None => (s, Err ErrFileClosed)
  | Some _ => (s, Ok tt)
  end.

(** Reading to the end, as [io.Copy] does. *)
Definition ReadAll (h : handle) : st fs bytes := fun s =>
  match handles s !! h with
  | None => (s, Err ErrFileClosed)
  | Some i => (s, Ok (default [] (inodes s !! i)))
  end.

(** f.Stat().Size(). *)
Definition Size (h : handle) : st fs Z := fun s =>
  match handles s !! h with
  | None => (s, Err ErrFileClosed)
  | Some i => (s, Ok (Z.of_nat (length (default [] (inodes s !! i)))))
  end.

(** An entry of [ioutil.ReadDir]: a name and whether it is a directory. *)
Record dirent := mkDirent { de_name : string; de_isdir : bool }.

#[export] Instance dirent_eq_dec : EqDecision dirent.
Proof. solve_decision. Defined.

(** The first path element of [r], and whether a ['/'] follows it. *)
Fixpoint first_element (r : string) : string * bool :=
  match r with
  | EmptyString => (EmptyString, false)
  | String c r' =>
      if Ascii.eqb c "/"%char then (EmptyString, true)
      else let '(a, more) := first_element r' in (String c a, more)
  end.

(** Names are stored cleaned; the entries of a directory are the names
    under [Clean p ++ "/"]. *)
Definition dir_prefix (p : string) : string :=
  let q := Path.Clean p in
  if String.eqb q "." then EmptyString
  else if String.eqb q "/" then q else q +:+ "/".

Definition entry_of (pre key : string) : option dirent :=
  if String.prefix pre key then
    let '(n, more) := first_element (String.substring (String.length pre)
                                       (String.length key - String.length pre) key) in
    Some (mkDirent n more)
  else None.

(** ioutil.ReadDir(p): the entries, sorted by name.  The directory was
    created by [MkdirAll] just before, so the read does not fail. *)
Definition ReadDir (p : string) (s : fs) : list dirent :=
  Sort.insertion_sort (fun a b => String.ltb (de_name a) (de_name b))
    (remove_dups (omap (entry_of (dir_prefix p)) (map fst (map_to_list (dir s))))).

(** os.MkdirAll(p, 0700): directories are implicit in the names; creating
    one fails only where the model denies [Clean p]. *)
Definition MkdirAll (p : string) : st fs unit := fun s =>
  if decide (Path.Clean p ∈ denied s) then (s, Err (ErrPermission "mkdir" p)) else (s, Ok tt).

(** The bytes of the file a name refers to, if any. *)
Definition contents (s : fs) (name : string) : option bytes :=
  i ← dir s !! name; inodes s !! i.

(** The bytes of the file a handle refers to, if open. *)
Definition hcontents (s : fs) (h : handle) : option bytes :=
  i ← handles s !! h; inodes s !! i.

(** Well-formedness: every name and every open handle refers to an existing
    inode, and [next_id] is fresh for inodes and handles. *)
Definition fs_wf (s : fs) : Prop :=
  map_Forall (fun _ i => is_Some (inodes s !! i) /\ i < next_id s) (dir s) /\
  map_Forall (fun _ i => is_Some (inodes s !! i) /\ i < next_id s) (handles s) /\
  map_Forall (fun i _ => i < next_id s) (inodes s) /\
  map_Forall (fun h _ => h < next_id s) (handles s).

#[export] Instance fs_wf_dec (s : fs) : Decision (fs_wf s).
Proof. unfold fs_wf. apply _. Defined.

(** A well-formed disk with a given handle table and allocation counter:
    what the operations that neither open nor close keep. *)
Definition fs_at (H : gmap nat nat) (N : nat) (s : fs) : Prop :=
  fs_wf s /\ handles s = H /\ next_id s = N.

(** ** Equations of the operations on the paths the writer takes *)

Lemma Rename_ok (s : fs) (old new : string) (i : nat) :
  dir s !! old = Some i -> new ∉ denied s ->
  Rename old new s = (set_dir (<[new := i]> (delete old (dir s))) s, Ok tt).
Proof. intros Hi Hn. unfold Rename. rewrite Hi. by rewrite decide_False. Qed.

Lemma Rename_missing (s : fs) (old new : string) :
  dir s !! old = None -> Rename old new s = (s, Err (ErrNotExist "rename" old)).
Proof. intros Hi. unfold Rename. by rewrite Hi. Qed.

Lemma OpenFile_create (s : fs) (name : string) :
  name ∉ denied s -> dir s !! name = None ->
  OpenFile name s =
    (mkFS (<[name := next_id s]> (dir s)) (<[next_id s := []]> (inodes s))
          (<[S (next_id s) := next_id s]> (handles s)) (S (S (next_id s))) (denied s),
     Ok (S (next_id s))).
Proof. intros Hn Hd. unfold OpenFile. rewrite decide_False by done. by rewrite Hd. Qed.

Lemma OpenFile_existing (s : fs) (name : string) (i : nat) :
  name ∉ denied s -> dir s !! name = Some i ->
  OpenFile name s =
    (mkFS (dir s) (inodes s) (<[next_id s := i]> (handles s)) (S (next_id s)) (denied s),
     Ok (next_id s)).
Proof. intros Hn Hd. unfold OpenFile. rewrite decide_False by done. by rewrite Hd. Qed.

Lemma OpenFile_denied (s : fs) (name : string) :
  name ∈ denied s -> OpenFile name s = (s, Err (ErrPermission "open" name)).
Proof. intros Hn. unfold OpenFile. by rewrite decide_True. Qed.

Lemma Write_ok (s : fs) (h : handle) (i : nat) (b : bytes) :
  handles s !! h = Some i ->
  Write h b s = (set_inodes (<[i := default [] (inodes s !! i) ++ b]> (inodes s)) s,
                 Ok (Z.of_nat (length b))).
Proof. intros Hh. unfold Write. by rewrite Hh. Qed.

Lemma Close_ok (s : fs) (h : handle) (i : nat) :
  handles s !! h = Some i -> Close h s = (set_handles (delete h (handles s)) s, Ok tt).
Proof. intros Hh. unfold Close. by rewrite Hh. Qed.

Lemma Seek_ok (s : fs) (h : handle) (i : nat) : handles s !! h = Some i -> Seek h s = (s, Ok tt).
Proof. intros Hh. unfold Seek. by rewrite Hh. Qed.

Lemma ReadAll_ok (s : fs) (h : handle) (i : nat) :
  handles s !! h = Some i -> ReadAll h s = (s, Ok (default [] (inodes s !! i))).
Proof. intros Hh. unfold ReadAll. by rewrite Hh. Qed.

Lemma Remove_ok (s : fs) (name : string) (i : nat) :
  dir s !! name = Some i -> Remove name s = (set_dir (delete name (dir s)) s, Ok tt).
Proof. intros Hh. unfold Remove. by rewrite Hh. Qed.

(** ** Well-formedness and the handle table *)

Lemma Rename_keeps H N o n : preserves (fs_at H N) (Rename o n).
Proof.
  intros s (Hwf & Hh & Hn). unfold Rename.
  destruct (dir s !! o) as [i|] eqn:Ho; [|done]. case_decide; [done|].
  split; [|done]. destruct Hwf as (Hd & Hhs & Hi & Hk). split_and!; try done.
  apply map_Forall_insert_2; [apply (Hd _ _ Ho)|]. by apply map_Forall_delete.
Qed.

Lemma Remove_keeps H N n : preserves (fs_at H N) (Remove n).
Proof.
  intros s (Hwf & Hh & Hn). unfold Remove.
  destruct (dir s !! n); [|done]. split; [|done].
  destruct Hwf as (Hd & Hhs & Hi & Hk). split_and!; try done. by apply map_Forall_delete.
Qed.

Lemma Write_keeps H N h b : preserves (fs_at H N) (Write h b).
Proof.
  intros s (Hwf & Hh & Hn). unfold Write.
  destruct (handles s !! h) as [i|] eqn:Hi; [|done]. split; [|done].
  destruct Hwf as (Hd & Hhs & Hin & Hk). pose proof (proj2 (Hhs _ _ Hi)) as Hlt.
  split_and!; cbn; try done.
  - apply (map_Forall_impl _ _ _ Hd). intros _ j [? ?]. split; [|done].
    rewrite lookup_insert_is_Some'. by right.
  - apply (map_Forall_impl _ _ _ Hhs). intros _ j [? ?]. split; [|done].
    rewrite lookup_insert_is_Some'. by right.
  - by apply map_Forall_insert_2.
Qed.

Lemma Seek_keeps H N h : preserves (fs_at H N) (Seek h).
Proof. intros s Hs. unfold Seek. by destruct (handles s !! h). Qed.

Lemma ReadAll_keeps H N h : preserves (fs_at H N) (ReadAll h).
Proof. intros s Hs. unfold ReadAll. by destruct (handles s !! h). Qed.

Lemma MkdirAll_keeps H N p : preserves (fs_at H N) (MkdirAll p).
Proof. intros s Hs. unfold MkdirAll. by case_decide. Qed.

Lemma Close_spec h s : fs_wf s ->
  fs_wf (fst (Close h s)) /\ next_id (fst (Close h s)) = next_id s /\
  forall h', h' <> h -> handles (fst (Close h s)) !! h' = handles s !! h'.
Proof.
  intros Hwf. unfold Close. destruct (handles s !! h) eqn:E; [|done]. cbn.
  split; [|split; [done|intros; by apply lookup_delete_ne]].
  destruct Hwf as (Hd & Hhs & Hin & Hk). split_and!; try done; by apply map_Forall_delete.
Qed.

Lemma new_handle_spec i s : fs_wf s -> i < next_id s -> is_Some (inodes s !! i) ->
  let '(s', r) := new_handle i s in
  fs_wf s' /\ next_id s' = S (next_id s) /\ inodes s' = inodes s /\
  (forall h, h < next_id s -> handles s' !! h = handles s !! h) /\
  r = Ok (next_id s) /\ is_Some (handles s' !! next_id s).
Proof.
  intros (Hd & Hhs & Hin & Hk) Hi Hsi. unfold fs_wf. cbn. split_and!; try done.
  - apply (map_Forall_impl _ _ _ Hd). intros _ j [? ?]. split; [done|lia].
  - apply map_Forall_insert_2; [split; [done|lia]|].
    apply (map_Forall_impl _ _ _ Hhs). intros _ j [? ?]. split; [done|lia].
  - apply (map_Forall_impl _ _ _ Hin). intros j _ ?. lia.
  - apply map_Forall_insert_2; [lia|]. apply (map_Forall_impl _ _ _ Hk). intros j _ ?. lia.
  - intros h Hh. apply lookup_insert_ne. lia.
  - rewrite lookup_insert_eq. by eexists.
Qed.

Lemma OpenFile_spec n s : fs_wf s ->
  let '(s', r) := OpenFile n s in
  fs_wf s' /\ next_id s <= next_id s' /\
  (forall h, h < next_id s -> handles s' !! h = handles s !! h) /\
  (forall h, r = Ok h -> next_id s <= h /\ is_Some (handles s' !! h)).
Proof.
  intros Hwf. unfold OpenFile. case_decide; [split_and!; done|].
  destruct (dir s !! n) as [i|] eqn:Hn.
  - pose proof (proj1 Hwf _ _ Hn) as [Hi Hlt].
    pose proof (new_handle_spec i s Hwf Hlt Hi) as Hs.
    destruct (new_handle i s) as [s' r]. destruct Hs as (? & -> & _ & ? & -> & ?).
    split_and!; try done; [lia|]. by intros h [= <-].
  - set (s1 := mkFS (<[n:=next_id s]> (dir s)) (<[next_id s:=[]]> (inodes s))
                    (handles s) (S (next_id s)) (denied s)).
    assert (Hwf1 : fs_wf s1).
    { destruct Hwf as (Hd & Hhs & Hin & Hk). unfold fs_wf, s1; cbn. split_and!.
      - apply map_Forall_insert_2; [rewrite lookup_insert_eq; split; [by eexists|lia]|].
        apply (map_Forall_impl _ _ _ Hd). intros _ j [? ?].
        rewrite lookup_insert_is_Some'. split; [by right|lia].
      - apply (map_Forall_impl _ _ _ Hhs). intros _ j [? ?].
        rewrite lookup_insert_is_Some'. split; [by right|lia].
      - apply map_Forall_insert_2; [lia|]. apply (map_Forall_impl _ _ _ Hin). intros; lia.
      - apply (map_Forall_impl _ _ _ Hk). intros; lia. }
    assert (Hi : is_Some (inodes s1 !! next_id s)) by (cbn; rewrite lookup_insert_eq; by eexists).
    pose proof (new_handle_spec (next_id s) s1 Hwf1 ltac:(cbn; lia) Hi) as Hs.
    destruct (new_handle _ s1) as [s' r]. destruct Hs as (? & Hn' & _ & Hfr & -> & ?).
    cbn in Hn'. split_and!; try done.
    + lia.
    + intros h Hh. rewrite Hfr by (cbn; lia). done.
    + intros h [= <-]. cbn. split; [lia|done].
Qed.

End FS.

#[export] Hint Resolve FS.Rename_keeps FS.Remove_keeps FS.Write_keeps FS.Seek_keeps FS.ReadAll_keeps
  FS.MkdirAll_keeps : logx.
