(* ===== verification/Manager.v ===== *)
(** * Manager: the rotation trigger ([src/rollingwriter/manager.go])

    The manager owns the segment start time, the size threshold, and the
    unbuffered channel [fire] on which a trigger goroutine offers the name
    of the next historical file.  A sender blocks until a [Write] receives,
    so the channel is modelled as the FIFO queue of names held by blocked
    senders.  The cron library starts every scheduled job in a goroutine of
    its own, so under the time policy several senders can be blocked at
    once; under the size policy the single poller goroutine blocks, and
    cannot tick again, until its name is taken.

    Time formatting and parsing ([time.Time.Format], [time.Parse]) and the
    cron spec parser are library collaborators: the class [Env] states what
    the manager and the retention scan use of them. *)

From S2P Require Import Prelude GoLib Config SizeParser.

(** The library collaborators of the manager: a time is a [Z] (Unix
    nanoseconds); [Format layout t] and [Parse layout s] are Go's;
    [cron_valid spec] says whether [cron.AddFunc] accepts the spec. *)
Class Env := {
  Format : string -> Z -> string;
  Parse : string -> string -> option Z;
  cron_valid : string -> bool
}.

(** A concrete environment for the witnesses: a time is formatted as its
    decimal digits whatever the layout, and parsed back with [Atoi]; a cron
    spec is valid when it is not empty. *)
Definition test_Format (layout : string) (t : Z) : string := pretty (Z.to_N t).
Definition test_Parse (layout s : string) : option Z :=
  match Strconv.Atoi s with (v, Strconv.NumOk) => Some v | _ => None end.
#[export] Instance TestEnv : Env := {|
  Format := test_Format;
  Parse := test_Parse;
  cron_valid := fun spec => negb (String.eqb spec "")
|}.

Module Manager.
Import Config.

Section Manager.
Context `{Env}.

Record manager := mkManager {
  thresholdSize : Z;
  startAt : Z;
  fire : list string;
  context_closed : bool;
  cron_running : bool;
  poller_running : bool
}.

Definition set_fire (f : list string) (m : manager) : manager :=
  mkManager (thresholdSize m) (startAt m) f (context_closed m) (cron_running m) (poller_running m).

(** [GenLogFileName]: the name of the historical file for the segment that
    started at [startAt]; the new segment starts [now]. *)
Definition GenLogFileName (c : Config) (now : Z) (m : manager) : string * manager :=
  let tag := Format (TimeTagFormat c) (startAt m) in
  let filename :=
    if Compress c then Path.Join [LogPath c; FileName c +:+ ".log.gz." +:+ tag]
    else Path.Join [LogPath c; FileName c +:+ ".log." +:+ tag] in
  (filename, mkManager (thresholdSize m) now (fire m) (context_closed m)
                       (cron_running m) (poller_running m)).

(** [NewManager]: the policy switch; an unknown policy falls through to
    [WithoutRolling]. *)
Definition NewManager (c : Config) (now : Z) : result manager :=
  let m := mkManager 0 now [] false false false in
  if (RollingPolicy c =? TimeRolling)%Z then
    if cron_valid (RollingTimePattern c)
    then Ok (mkManager 0 now [] false true false)
    else Err (ErrCronSpec (RollingTimePattern c))
  else if (RollingPolicy c =? VolumeRolling)%Z then
    thr <-? SizeParser.ParseVolume (RollingVolumeSize c) ;;
    Ok (mkManager thr now [] false false true)
  else Ok m.

(** [Close]: [close(m.context)] panics on a closed channel; [m.cr.Stop()]. *)
Definition Close (m : manager) : result manager :=
  if context_closed m then Err (Panic "close of closed channel")
  else Ok (mkManager (thresholdSize m) (startAt m) (fire m) true false (poller_running m)).

(** A tick of the cron schedule: the job's goroutine computes the name and
    blocks sending it. *)
Definition cron_tick (c : Config) (now : Z) (m : manager) : manager :=
  if cron_running m then
    let '(name, m') := GenLogFileName c now m in set_fire (fire m' ++ [name]) m'
  else m.

(** A tick of the size poller, given the size [os.Open]/[Stat] found (none
    when the open failed).  It can only tick while it is not blocked
    sending. *)
Definition poll_tick (c : Config) (now : Z) (size : option Z) (m : manager) : manager :=
  if poller_running m && bool_decide (fire m = []) then
    match size with
    | Some sz =>
        if (thresholdSize m <? sz)%Z then
          let '(name, m') := GenLogFileName c now m in set_fire [name] m'
        else m
    | None => m
    end
  else m.

(** The poller's [case <-m.context: return]. *)
Definition poll_exit (m : manager) : manager :=
  if poller_running m && context_closed m && bool_decide (fire m = []) then
    mkManager (thresholdSize m) (startAt m) (fire m) (context_closed m) (cron_running m) false
  else m.

(** The receiving side of [select { case filename := <-w.fire: ... default: }]. *)
Definition recv_fire (m : manager) : option (string * manager) :=
  match fire m with
  | [] => None
  | name :: rest => Some (name, set_fire rest m)
  end.

(** The manager's steps, as its goroutines and the writer drive it. *)
Inductive mstep (c : Config) : manager -> manager -> Prop :=
| ms_cron now m : mstep c m (cron_tick c now m)
| ms_poll now sz m : mstep c m (poll_tick c now sz m)
| ms_exit m : mstep c m (poll_exit m)
| ms_recv m n m' : recv_fire m = Some (n, m') -> mstep c m m'
| ms_close m m' : Close m = Ok m' -> mstep c m m'.

(** The invariant of a manager without a cron schedule. *)
Definition single_sender (m : manager) : Prop :=
  cron_running m = false /\ length (fire m) <= 1.

Lemma single_sender_step c m m' : single_sender m -> mstep c m m' -> single_sender m'.
Proof.
  intros [Hcron Hlen] Hstep. destruct Hstep as [now m0|now sz m0|m0|m0 n m1 Hr|m0 m1 Hc].
  - unfold cron_tick. by rewrite Hcron.
  - unfold poll_tick. destruct (poller_running m0 && _) eqn:E; [|done].
    destruct sz as [sz|]; [|done]. destruct (_ <? _)%Z; [|done].
    destruct (GenLogFileName c now m0) eqn:G. unfold GenLogFileName in G. inv_ok.
    injection G as <- <-. split; [done|simpl; lia].
  - unfold poll_exit. by destruct (_ && _ && _).
  - unfold recv_fire in Hr. destruct (fire m0) as [|x f] eqn:F; [done|].
    injection Hr as <- <-. split; [done|]. simpl in *. lia.
  - unfold Close in Hc. destruct (context_closed m0); inv_ok. by split.
Qed.

Lemma NewManager_not_time c now m0 :
  NewManager c now = Ok m0 -> (RollingPolicy c =? TimeRolling)%Z = false ->
  single_sender m0.
Proof.
  unfold NewManager. intros Hnew Hp. rewrite Hp in Hnew.
  destruct (_ =? VolumeRolling)%Z; inv_ok; split; simpl; auto with arith.
Qed.

(** C12: without a cron schedule (size policy, no rolling, or an unknown
    policy) the fire channel never holds more than one pending name: the
    poller blocks on its send and cannot tick again until a write takes the
    name. *)
Theorem fire_at_most_one (c : Config) (now : Z) (m0 m : manager) :
  NewManager c now = Ok m0 -> (RollingPolicy c =? TimeRolling)%Z = false ->
  star (mstep c) m0 m -> length (fire m) <= 1.
Proof.
  intros Hnew Hpol Hs.
  apply (star_invariant _ _ (single_sender_step c) _ _ Hs (NewManager_not_time _ _ _ Hnew Hpol)).
Qed.

(** C34: under the time policy the one-pending-name invariant the design
    states does not hold: two cron ticks with no write in between leave two
    blocked senders, each with a name, and the segment start has moved
    twice. *)
Theorem cron_two_pending (c : Config) (now t1 t2 : Z) (m0 : manager) :
  NewManager c now = Ok m0 -> RollingPolicy c = TimeRolling ->
  let m2 := cron_tick c t2 (cron_tick c t1 m0) in
  star (mstep c) m0 m2 /\ length (fire m2) = 2 /\ startAt m2 = t2.
Proof.
  intros Hnew Hpol m2. unfold NewManager in Hnew. rewrite Hpol in Hnew. simpl in Hnew.
  destruct (cron_valid _); inv_ok. split; [|done].
  eapply star_step; [apply (ms_cron c t1)|]. apply star_one, ms_cron.
Qed.

(** C35: [Close] is not idempotent: a second call closes the closed
    [context] channel and panics. *)
Theorem Close_twice_panics (m m' : manager) :
  Close m = Ok m' -> Close m' = Err (Panic "close of closed channel").
Proof. unfold Close. destruct (context_closed m); intros; inv_ok; done. Qed.

(** A poll that is not blocked fires exactly when the file is larger
    than the threshold, and the name it offers is the one [GenLogFileName]
    computes. *)
Theorem poll_tick_fires (c : Config) (now sz : Z) (m : manager) :
  poller_running m = true -> fire m = [] ->
  fire (poll_tick c now (Some sz) m) =
    if (thresholdSize m <? sz)%Z then [fst (GenLogFileName c now m)] else [].
Proof.
  intros Hrun Hf. unfold poll_tick. rewrite Hrun, Hf. simpl.
  destruct (_ <? _)%Z; [|done]. by destruct (GenLogFileName c now m).
Qed.

End Manager.
End Manager.

(** ** Witnesses *)
Module ManagerWitness.
Import Config Manager.

Definition volume_cfg : Config := WithRollingVolumeSize "1K" NewDefaultConfig.

Lemma fire_at_most_one_witness :
  length (fire (poll_tick volume_cfg 5 (Some 2048%Z) (mkManager 1024 0 [] false false true))) <= 1.
Proof.
  apply (fire_at_most_one volume_cfg 0 (mkManager 1024 0 [] false false true)); [reflexivity | reflexivity |].
  apply star_one, ms_poll.
Defined.

Lemma cron_two_pending_witness :
  let m2 := cron_tick NewDefaultConfig 2 (cron_tick NewDefaultConfig 1 (mkManager 0 0 [] false true false)) in
  star (mstep NewDefaultConfig) (mkManager 0 0 [] false true false) m2 /\ length (fire m2) = 2 /\ startAt m2 = 2%Z.
Proof. apply (cron_two_pending NewDefaultConfig 0 1 2); reflexivity. Defined.

Lemma Close_twice_panics_witness :
  Close (mkManager 0 0 [] true false false) = Err (Panic "close of closed channel").
Proof. apply (Close_twice_panics (mkManager 0 0 [] false false false)). reflexivity. Defined.

Lemma poll_tick_fires_witness :
  fire (poll_tick volume_cfg 7 (Some 2048%Z) (mkManager 1024 3 [] false false true)) =
    [fst (GenLogFileName volume_cfg 7 (mkManager 1024 3 [] false false true))].
Proof. apply (poll_tick_fires volume_cfg 7 2048 (mkManager 1024 3 [] false false true)); reflexivity. Defined.

End ManagerWitness.
