(* ===== verification/Retention.v ===== *)
(** * Retention: the bounded queue of historical files

    [rollingfilech] is a channel of capacity [MaxRemain] holding the names
    of the retained historical files, oldest first.  [DoRemove] receives
    the oldest name (blocking while the channel is empty) and deletes the
    file, logging a failure; the retry loops of [NewWriterFromConfig] and of
    [Reopen]'s background task ([select] with a [default] that calls
    [DoRemove] and jumps back) evict until the send succeeds.  The state is
    the queue, the file system and the log lines [log.Println] wrote. *)

From S2P Require Import Prelude FileSys.

Module Retention.

Record rstate := mkRS {
  items : list string;
  rfs : FS.fs;
  rlog : list string
}.

(** [DoRemove]: [None] when the receive would block forever. *)
Definition DoRemove (s : rstate) : option rstate :=
  match items s with
  | [] => None
  | file :: rest =>
      let '(fs', r) := FS.Remove file (rfs s) in
      Some (mkRS rest fs' (match r with
                           | Ok _ => rlog s
                           | Err _ => rlog s ++ ["error in remove log file " +:+ file]
                           end))
  end.

(** The [retry: select { case ch <- file: default: DoRemove(); goto retry }]
    loop, run for at most [fuel] rounds; [cap] is the channel's capacity.
    [None] when the rounds run out or [DoRemove] would block. *)
Fixpoint TryEnqueue (fuel cap : nat) (file : string) (s : rstate) : option rstate :=
  match fuel with
  | O => None
  | S fuel' =>
      if (length (items s) <? cap)%nat then Some (mkRS (items s ++ [file]) (rfs s) (rlog s))
      else match DoRemove s with
           | Some s' => TryEnqueue fuel' cap file s'
           | None => None
           end
  end.

(** Two rounds are enough when the capacity is positive: one eviction
    makes room. *)
Definition enqueue (cap : nat) (file : string) (s : rstate) : option rstate :=
  TryEnqueue 2 cap file s.

(** Enqueue a list of names in order. *)
Fixpoint enqueue_all (cap : nat) (files : list string) (s : rstate) : option rstate :=
  match files with
  | [] => Some s
  | f :: rest => s' ← enqueue cap f s; enqueue_all cap rest s'
  end.

(** Remove the files of a list in order, as the evictions do, ignoring
    failures. *)
Definition remove_all (names : list string) (s : FS.fs) : FS.fs :=
  foldl (fun s n => fst (FS.Remove n s)) s names.

(** ** Lemmas *)

Lemma remove_all_app (a b : list string) (s : FS.fs) :
  remove_all (a ++ b) s = remove_all b (remove_all a s).
Proof. apply foldl_app. Qed.

(** After [os.Remove] of a name, whether it failed or not, the name is
    gone; other names are untouched. *)
Lemma Remove_dir (n m : string) (s : FS.fs) :
  FS.dir (fst (FS.Remove n s)) !! m = if decide (m = n) then None else FS.dir s !! m.
Proof.
  unfold FS.Remove. destruct (decide (m = n)) as [->|Hne];
    destruct (FS.dir s !! n) eqn:E; simpl; auto.
  - apply lookup_delete_eq.
  - by apply lookup_delete_ne.
Qed.

Lemma remove_all_dir (ns : list string) (s : FS.fs) (m : string) :
  FS.dir (remove_all ns s) !! m = if decide (m ∈ ns) then None else FS.dir s !! m.
Proof.
  revert s; induction ns as [|n ns IH]; intros s; [case_decide; [set_solver|done]|].
  change (remove_all (n :: ns) s) with (remove_all ns (fst (FS.Remove n s))).
  rewrite IH, Remove_dir. repeat case_decide; set_solver.
Qed.

(** One enqueue: at most one eviction, after which the queue holds the
    last [cap] names. *)
Lemma enqueue_spec (cap : nat) (f : string) (s : rstate) :
  1 <= cap -> length (items s) <= cap ->
  exists s', enqueue cap f s = Some s' /\
    items s' = lastn cap (items s ++ [f]) /\
    rfs s' = remove_all (firstn_over cap (items s ++ [f])) (rfs s).
Proof.
  intros Hcap Hlen. destruct s as [its fs lg]; simpl in *. unfold enqueue; simpl.
  destruct (length its <? cap)%nat eqn:E.
  - apply Nat.ltb_lt in E. eexists; split; [done|]. simpl.
    rewrite lastn_short, firstn_over_short by (rewrite length_app; simpl; lia). done.
  - apply Nat.ltb_ge in E. destruct its as [|x rest]; [simpl in *; lia|].
    unfold DoRemove; simpl. destruct (FS.Remove x fs) as [fs' r] eqn:R. cbn [items].
    replace (length rest <? cap)%nat with true by (symmetry; apply Nat.ltb_lt; simpl in *; lia).
    eexists; split; [done|]. simpl in *.
    assert (Hl : length (x :: rest ++ [f]) - cap = 1)
      by (cbn [length]; rewrite length_app; cbn [length]; lia).
    unfold lastn, firstn_over. rewrite Hl. simpl.
    unfold remove_all; simpl. by rewrite R.
Qed.

(** Whatever the capacity and the fuel, a successful enqueue only deletes
    names that were in the queue, and changes the disk only by deleting. *)
Lemma TryEnqueue_evicts_queued (fuel cap : nat) (f : string) (s s' : rstate) :
  TryEnqueue fuel cap f s = Some s' ->
  exists ev, (forall n, n ∈ ev -> n ∈ items s) /\ rfs s' = remove_all ev (rfs s).
Proof.
  revert s; induction fuel as [|fuel IH]; intros s Hs; [discriminate|]. simpl in Hs.
  destruct (length (items s) <? cap)%nat.
  - injection Hs as <-. exists []; split; [set_solver|done].
  - unfold DoRemove in Hs. destruct s as [[|x rest] fs lg]; simpl in Hs; [discriminate|].
    destruct (FS.Remove x fs) as [fs1 r] eqn:R.
    destruct (IH _ Hs) as (ev & Hev & Hfs). exists (x :: ev). split.
    + intros n [->|Hn]%elem_of_cons; simpl; [set_solver|]. apply Hev in Hn. simpl in Hn. set_solver.
    + rewrite Hfs. simpl. unfold remove_all; simpl. by rewrite R.
Qed.

Lemma remove_all_inodes (ns : list string) (s : FS.fs) :
  FS.inodes (remove_all ns s) = FS.inodes s /\ FS.handles (remove_all ns s) = FS.handles s.
Proof.
  revert s; induction ns as [|n ns IH]; intros s; [done|].
  change (remove_all (n :: ns) s) with (remove_all ns (fst (FS.Remove n s))).
  rewrite !(proj1 (IH _)), !(proj2 (IH _)). unfold FS.Remove. by destruct (FS.dir s !! n).
Qed.

(** The retention loop terminates on every name and, over any
    sequence of names, keeps exactly the last [MaxRemain] of them in the
    queue and deletes the others, oldest first. *)
Theorem enqueue_all_spec (cap : nat) (files : list string) (s : rstate) :
  1 <= cap -> length (items s) <= cap ->
  exists s', enqueue_all cap files s = Some s' /\
    items s' = lastn cap (items s ++ files) /\
    rfs s' = remove_all (firstn_over cap (items s ++ files)) (rfs s).
Proof.
  revert s; induction files as [|f rest IH]; intros s Hcap Hlen.
  - exists s. rewrite app_nil_r, lastn_short, firstn_over_short by done. done.
  - destruct (enqueue_spec cap f s Hcap Hlen) as (s1 & E1 & I1 & F1).
    destruct (IH s1 Hcap) as (s2 & E2 & I2 & F2); [rewrite I1, length_lastn; lia|].
    exists s2; simpl. rewrite E1; simpl. split; [done|].
    rewrite I2, F2, I1, F1, lastn_lastn_app, <- remove_all_app, <- firstn_over_app.
    by rewrite <- app_assoc.
Qed.

(** C13: with distinct names, once the queue has taken them all, the files
    left on disk among them are exactly the last [MaxRemain] names that
    existed: the newest are kept, the others deleted. *)
Theorem retention_keeps_newest (cap : nat) (files : list string) (s s' : rstate) (n : string) :
  1 <= cap -> length (items s) <= cap -> NoDup (items s ++ files) ->
  enqueue_all cap files s = Some s' -> n ∈ items s ++ files ->
  (is_Some (FS.dir (rfs s') !! n) <->
   n ∈ lastn cap (items s ++ files) /\ is_Some (FS.dir (rfs s) !! n)).
Proof.
  intros Hcap Hlen Hnd Hrun Hin.
  destruct (enqueue_all_spec cap files s Hcap Hlen) as (s2 & E & _ & F).
  rewrite Hrun in E. injection E as <-. rewrite F, remove_all_dir.
  set (L := items s ++ files) in *.
  rewrite <- (firstn_over_lastn cap L) in Hnd, Hin.
  apply NoDup_app in Hnd as (_ & Hdisj & _). apply elem_of_app in Hin.
  case_decide as Hn.
  - split; [intros [? Hc]; discriminate Hc|]. intros [Hl _]. by destruct (Hdisj n Hn Hl).
  - split; [|tauto]. intros Hs. split; [|done]. destruct Hin; tauto.
Qed.

End Retention.

(** ** Witnesses *)
Module RetentionWitness.
Import Retention.

Definition disk0 : FS.fs :=
  FS.mkFS (<["a" := 0]> (<["b" := 1]> (<["c" := 2]> ∅))) (<[0 := []]> (<[1 := []]> (<[2 := []]> ∅))) ∅ 3 ∅.

Lemma retention_keeps_newest_witness :
  is_Some (FS.dir (rfs (mkRS ["b"; "c"] (fst (FS.Remove "a" disk0)) [])) !! "a") <->
  "a" ∈ lastn 2 (["a"] ++ ["b"; "c"]) /\ is_Some (FS.dir disk0 !! "a").
Proof.
  apply (retention_keeps_newest 2 ["b"; "c"] (mkRS ["a"] disk0 [])).
  - lia.
  - simpl; lia.
  - by_decide.
  - reflexivity.
  - by_decide.
Defined.

End RetentionWitness.
