(* ===== verification/Writer.v ===== *)
(** * Writer: the active file, [Reopen] and [Write] ([src/rollingwriter/writer.go])

    A [world] is the state the [Writer] struct shares with its manager and
    with the goroutines [Reopen] starts: the disk, the manager, the active
    handle [w.file], the active path, the configuration, the contents of
    [rollingfilech], the background tasks not yet run, and the lines
    [log.Println] wrote.  [Write] polls the fire channel, rotates with
    [Reopen] when a name is pending, then writes through the handle;
    [Reopen] renames, opens, swaps the handle and queues the background
    task [bg_run] (close the old handle, compress, enqueue for retention).
    This file is sequential: every operation is one step; the interleavings
    of the concurrent variants are in the variant files. *)

From S2P Require Import Prelude GoLib Config FileSys Manager Retention.

(** The gzip stream format: [compress/gzip] is a library, of which the
    writer only needs that decompressing a stream gives back its input. *)
Class Gzip := {
  gzip : bytes -> bytes;
  gunzip : bytes -> option bytes;
  gunzip_gzip : forall b, gunzip (gzip b) = Some b
}.

(** A stand-in stream format for the witnesses: a two-byte header. *)
#[export] Instance TestGzip : Gzip := {|
  gzip b := Byte.x1f :: Byte.x8b :: b;
  gunzip b := match b with Byte.x1f :: Byte.x8b :: r => Some r | _ => None end;
  gunzip_gzip b := eq_refl
|}.

Module Writer.
Import Config Manager.

Section Writer.
Context `{Env} `{Gzip}.

(** A goroutine started by [Reopen]: the previous handle and the name of
    the historical file. *)
Record bgtask := mkTask { oldfile : FS.handle; hist : string }.

Record world := mkWorld {
  wfs : FS.fs;
  mgr : manager;
  file : FS.handle;
  absPath : string;
  cf : Config;
  rq : list string;
  bg : list bgtask;
  logs : list string
}.

Definition set_fs (s : FS.fs) (w : world) : world :=
  mkWorld s (mgr w) (file w) (absPath w) (cf w) (rq w) (bg w) (logs w).
Definition set_mgr (m : manager) (w : world) : world :=
  mkWorld (wfs w) m (file w) (absPath w) (cf w) (rq w) (bg w) (logs w).
Definition set_rq_fs_logs (q : list string) (s : FS.fs) (l : list string) (w : world) : world :=
  mkWorld s (mgr w) (file w) (absPath w) (cf w) q (bg w) l.

(** Run a file-system operation on the world's disk. *)
Definition on_fs {A} (m : st FS.fs A) : st world A :=
  fun w => let '(s', r) := m (wfs w) in (set_fs s' w, r).

Definition log_line (msg : string) : st world unit :=
  fun w => (mkWorld (wfs w) (mgr w) (file w) (absPath w) (cf w) (rq w) (bg w) (logs w ++ [msg]), Ok tt).

(** [select { case filename := <-w.fire: ...; default: }]. *)
Definition poll_fire : st world (option string) := fun w =>
  match recv_fire (mgr w) with
  | Some (name, m') => (set_mgr m' w, Ok (Some name))
  | None => (w, Ok None)
  end.

(** The capacity of [rollingfilech]: [MaxRemain], when positive. *)
Definition retention_cap (c : Config) : nat := Z.to_nat (MaxRemain c).

(** [if w.cf.MaxRemain > 0 { retry: select ... }]: the name enters the
    retention queue, evicting the oldest file when it is full.  (The loop
    cannot block when the capacity is positive, [Retention.enqueue_spec].) *)
Definition retain (name : string) : st world unit := fun w =>
  if (0 <? MaxRemain (cf w))%Z then
    match Retention.enqueue (retention_cap (cf w)) name (Retention.mkRS (rq w) (wfs w) (logs w)) with
    | Some s => (set_rq_fs_logs (Retention.items s) (Retention.rfs s) (Retention.rlog s) w, Ok tt)
    | None => (w, Ok tt)
    end
  else (w, Ok tt).

(** [CompressFile(oldfile, cmpname)]: [oldfile.Seek(0, 0)], then
    [io.Copy] of the old file's bytes through the gzip writer into
    [cmpname], then the temporary file is removed; when the copy fails,
    [cmpname] is removed and the copy's error returned (or the removal's).
    The deferred [gw.Close] completes the stream (an empty one when
    nothing was copied) and the deferred [cmpfile.Close] runs on every
    path.  (In the file-system model a read fails only on a closed file,
    on which [Seek] has failed first.) *)
Definition CompressFile (old : FS.handle) (cmpname : string) : st FS.fs unit :=
  cmpfile <- FS.OpenFile cmpname ;;
  st_finally
    (r <- st_try (FS.Seek old) ;;
     match r with
     | Err e => FS.Write cmpfile (gzip []) ;;; st_fail e
     | Ok _ =>
         r2 <- st_try (FS.ReadAll old) ;;
         match r2 with
         | Err e =>
             rm <- st_try (FS.Remove cmpname) ;;
             FS.Write cmpfile (gzip []) ;;;
             match rm with Err eR => st_fail eR | Ok _ => st_fail e end
         | Ok data => FS.Write cmpfile (gzip data) ;;; FS.Remove (cmpname +:+ ".tmp")
         end
     end)
    (FS.Close cmpfile).

(** The goroutine of [Reopen]: [defer oldfile.Close()]; compress when
    configured (a failure is logged and ends the goroutine); then retain. *)
Definition bg_run (t : bgtask) : st world unit :=
  w <- st_get ;;
  st_finally
    (if Compress (cf w) then
       r1 <- st_try (on_fs (FS.Rename (hist t) (hist t +:+ ".tmp"))) ;;
       match r1 with
       | Err _ => log_line "error in compress rename tempfile"
       | Ok _ =>
           r2 <- st_try (on_fs (CompressFile (oldfile t) (hist t))) ;;
           match r2 with
           | Err _ => log_line "error in compress log file"
           | Ok _ => retain (hist t)
           end
       end
     else retain (hist t))
    (on_fs (FS.Close (oldfile t))).

(** [Reopen(file)]: rename the active file, open a fresh one, swap the
    handle, and start the background task. *)
Definition Reopen (filename : string) : st world unit :=
  w <- st_get ;;
  on_fs (FS.Rename (absPath w) filename) ;;;
  newfile <- on_fs (FS.OpenFile (absPath w)) ;;
  st_modify (fun w' => mkWorld (wfs w') (mgr w') newfile (absPath w') (cf w') (rq w')
                               (bg w' ++ [mkTask (file w') filename]) (logs w')).

(** [(w *Writer) Write(b)]: poll, maybe rotate (an error returns at once),
    then write through the current handle. *)
Definition Write (b : bytes) : st world Z :=
  fo <- poll_fire ;;
  match fo with Some filename => Reopen filename | None => st_ret tt end ;;;
  w <- st_get ;;
  on_fs (FS.Write (file w) b).

(** [(w *LockedWriter) Write(b)]: the same body under the mutex, so one
    step of the world. *)
Definition LockedWrite (b : bytes) : st world Z := Write b.

(** [(w *Writer) Close()] and [(w *LockedWriter) Close()]: close the active
    handle.  Neither stops the manager. *)
Definition Close : st world unit := w <- st_get ;; on_fs (FS.Close (file w)).

(** Run the oldest pending background task. *)
Definition run_bg : st world unit := fun w =>
  match bg w with
  | [] => (w, Ok tt)
  | t :: rest => bg_run t (mkWorld (wfs w) (mgr w) (file w) (absPath w) (cf w) (rq w) rest (logs w))
  end.

(** The handle-exchange invariant: the writer's handle is open and bound to
    the file the active path names. *)
Definition active_ok (w : world) : Prop :=
  exists i, FS.dir (wfs w) !! absPath w = Some i /\ FS.handles (wfs w) !! file w = Some i.

(** The world after a successful [Reopen n] of a file whose inode is [i]:
    [n] names the old inode, the active path a fresh empty one, the writer
    holds a fresh handle on it, and the old handle is queued for the
    background task. *)
Definition reopened (w : world) (n : string) (i : nat) : world :=
  let s := wfs w in let k := FS.next_id s in
  mkWorld (FS.mkFS (<[absPath w := k]> (<[n := i]> (delete (absPath w) (FS.dir s))))
                   (<[k := []]> (FS.inodes s)) (<[S k := k]> (FS.handles s)) (S (S k)) (FS.denied s))
          (mgr w) (S k) (absPath w) (cf w) (rq w) (bg w ++ [mkTask (file w) n]) (logs w).

(** The world with [b] appended to the file of its active handle: a
    writer whose pending bytes have been written out. *)
Definition append_active (b : bytes) (w : world) : world :=
  match FS.handles (wfs w) !! file w with
  | Some i =>
      set_fs (FS.set_inodes (<[i := default [] (FS.inodes (wfs w) !! i) ++ b]>
                               (FS.inodes (wfs w))) (wfs w)) w
  | None => w
  end.

(** A file-system operation that keeps the disk well formed, only
    allocates handles and inodes at or above [next_id], and leaves every
    older handle as it was. *)
Definition fs_frame {A} (m : st FS.fs A) : Prop :=
  forall s, FS.fs_wf s ->
    FS.fs_wf (fst (m s)) /\ FS.next_id s <= FS.next_id (fst (m s)) /\
    forall h, h < FS.next_id s -> FS.handles (fst (m s)) !! h = FS.handles s !! h.

(** The writer's invariant: the disk is well formed, the active handle is
    open, and every handle a pending goroutine will close is older than
    it (handles are allocated in increasing order). *)
Definition writer_inv (w : world) : Prop :=
  FS.fs_wf (wfs w) /\ is_Some (FS.handles (wfs w) !! file w) /\
  Forall (fun t => oldfile t < file w) (bg w).

#[export] Instance writer_inv_dec (w : world) : Decision (writer_inv w).
Proof. unfold writer_inv. apply _. Defined.

(** What a goroutine of [Reopen] runs under: its own old handle is not the
    active one. *)
Definition bg_inv (t : bgtask) (w : world) : Prop := writer_inv w /\ oldfile t < file w.

(** The steps of a running writer: a [Write] (or [LockedWriter.Write]), a
    goroutine of [Reopen] running to its end, a step of the manager. *)
Inductive wstep (w : world) : world -> Prop :=
| ws_write b : wstep w (fst (Write b w))
| ws_bg : wstep w (fst (run_bg w))
| ws_mgr m' : mstep (cf w) (mgr w) m' -> wstep w (set_mgr m' w).

End Writer.

Section WriterFacts.
Context `{Env} `{Gzip}.

Lemma set_fs_set_fs (s s' : FS.fs) (w : world) : set_fs s (set_fs s' w) = set_fs s w.
Proof. by destruct w. Qed.

Lemma set_inodes_set_inodes (m m' : gmap nat bytes) (s : FS.fs) :
  FS.set_inodes m (FS.set_inodes m' s) = FS.set_inodes m s.
Proof. by destruct s. Qed.

Lemma on_fs_Write_active (w : world) (b : bytes) (i : nat) :
  FS.handles (wfs w) !! file w = Some i ->
  on_fs (FS.Write (file w) b) w = (append_active b w, Ok (Z.of_nat (length b))).
Proof. intros Hh. unfold on_fs, append_active. by rewrite (FS.Write_ok _ _ i), Hh. Qed.

Lemma append_active_nil (w : world) (i : nat) (d : bytes) :
  FS.handles (wfs w) !! file w = Some i -> FS.inodes (wfs w) !! i = Some d ->
  append_active [] w = w.
Proof.
  intros Hh Hd. unfold append_active. rewrite Hh, Hd. cbn. rewrite app_nil_r, insert_id by done.
  by destruct w as [[] ? ? ? ? ? ? ?].
Qed.

Lemma append_active_app (w : world) (p b : bytes) :
  append_active b (append_active p w) = append_active (p ++ b) w.
Proof.
  unfold append_active. destruct (FS.handles (wfs w) !! file w) as [i|] eqn:Hh; [|by rewrite Hh].
  cbn [wfs set_fs file FS.set_inodes FS.handles FS.inodes]. rewrite Hh, lookup_insert_eq.
  cbn. by rewrite set_fs_set_fs, set_inodes_set_inodes, insert_insert_eq, app_assoc.
Qed.

Lemma append_active_set_mgr (w : world) (m : manager) (b : bytes) :
  append_active b (set_mgr m w) = set_mgr m (append_active b w).
Proof. unfold append_active. cbn. by destruct (FS.handles (wfs w) !! file w). Qed.

Lemma append_active_mgr (w : world) (b : bytes) : mgr (append_active b w) = mgr w.
Proof. unfold append_active. by destruct (FS.handles (wfs w) !! file w). Qed.

Lemma append_active_cf (w : world) (b : bytes) : cf (append_active b w) = cf w.
Proof. unfold append_active. by destruct (FS.handles (wfs w) !! file w). Qed.

Lemma append_active_handles (w : world) (b : bytes) :
  FS.handles (wfs (append_active b w)) = FS.handles (wfs w) /\ file (append_active b w) = file w.
Proof. unfold append_active. by destruct (FS.handles (wfs w) !! file w). Qed.

Lemma poll_fire_some (w : world) (n : string) (rest : list string) :
  fire (mgr w) = n :: rest -> poll_fire w = (set_mgr (set_fire rest (mgr w)) w, Ok (Some n)).
Proof. intros Hf. unfold poll_fire, recv_fire. by rewrite Hf. Qed.

Lemma poll_fire_none (w : world) : fire (mgr w) = [] -> poll_fire w = (w, Ok None).
Proof. intros Hf. unfold poll_fire, recv_fire. by rewrite Hf. Qed.

(** With no pending name and an open file, [Write] appends through the
    active handle. *)
Lemma Write_idle (w : world) (b : bytes) (i : nat) :
  fire (mgr w) = [] -> FS.handles (wfs w) !! file w = Some i ->
  Write b w = (append_active b w, Ok (Z.of_nat (length b))).
Proof.
  intros Hf Hh. unfold Write. rewrite (st_bind_ok _ _ _ _ _ (poll_fire_none w Hf)).
  cbv [st_ret st_get st_bind]. apply (on_fs_Write_active _ _ i Hh).
Qed.

(** A write through [FS.Write] reports every byte, or fails. *)
Lemma on_fs_Write_len (h : FS.handle) (b : bytes) (w w' : world) (n : Z) :
  on_fs (FS.Write h b) w = (w', Ok n) -> n = Z.of_nat (length b).
Proof. unfold on_fs, FS.Write. destruct (FS.handles (wfs w) !! h); cbn; intros Hw; by inversion Hw. Qed.

Lemma Write_len (w : world) (b : bytes) (w' : world) (n : Z) :
  Write b w = (w', Ok n) -> n = Z.of_nat (length b).
Proof.
  unfold Write, st_bind, st_get. destruct (poll_fire w) as [w1 [fo|e]]; [|discriminate].
  destruct fo as [fn|]; [destruct (Reopen fn w1) as [w2 [[]|e]]; [|discriminate]|]; apply on_fs_Write_len.
Qed.

Lemma Reopen_ok (w : world) (n : string) (i : nat) :
  FS.dir (wfs w) !! absPath w = Some i -> n ∉ FS.denied (wfs w) ->
  absPath w ∉ FS.denied (wfs w) -> n <> absPath w ->
  Reopen n w = (reopened w n i, Ok tt).
Proof.
  intros Hp Hn Hpd Hne. cbv [Reopen st_get st_bind on_fs st_modify].
  rewrite (FS.Rename_ok _ _ _ i) by done. cbv [set_fs wfs absPath].
  rewrite FS.OpenFile_create; [done|done|]. cbn. rewrite lookup_insert_ne by done.
  apply lookup_delete_eq.
Qed.

Lemma CompressFile_ok (s : FS.fs) (h : FS.handle) (i j : nat) (data : bytes) (cmp : string) :
  FS.handles s !! h = Some i -> FS.inodes s !! i = Some data -> i < FS.next_id s -> h < FS.next_id s ->
  cmp ∉ FS.denied s -> FS.dir s !! cmp = None -> FS.dir s !! (cmp +:+ ".tmp") = Some j ->
  let k := FS.next_id s in
  CompressFile h cmp s =
    (FS.mkFS (delete (cmp +:+ ".tmp") (<[cmp := k]> (FS.dir s)))
             (<[k := [] ++ gzip data]> (<[k := []]> (FS.inodes s)))
             (delete (S k) (<[S k := k]> (FS.handles s))) (S (S k)) (FS.denied s), Ok tt).
Proof.
  intros Hh Hi Hik Hhk Hc Hd Ht k.
  cbv [CompressFile st_bind st_finally st_try]. rewrite FS.OpenFile_create by done.
  rewrite (FS.Seek_ok _ _ i) by (cbn; rewrite lookup_insert_ne by lia; done).
  rewrite (FS.ReadAll_ok _ _ i) by (cbn; rewrite lookup_insert_ne by lia; done).
  cbn [FS.inodes]. rewrite lookup_insert_ne by lia. rewrite Hi. cbn [default].
  rewrite (FS.Write_ok _ _ k) by (cbn; apply lookup_insert_eq).
  cbn [FS.inodes]. rewrite lookup_insert_eq. cbn [default].
  rewrite (FS.Remove_ok _ _ j).
  2:{ cbn. rewrite lookup_insert_ne; [done|]. intros E. rewrite <- E in Ht. congruence. }
  rewrite (FS.Close_ok _ _ k) by (cbn; apply lookup_insert_eq).
  done.
Qed.

Lemma retain_other (name : string) (w : world) :
  let '(w', r) := retain name w in
  r = Ok tt /\ FS.inodes (wfs w') = FS.inodes (wfs w) /\ FS.handles (wfs w') = FS.handles (wfs w) /\
  (forall n, n ∉ rq w -> FS.dir (wfs w') !! n = FS.dir (wfs w) !! n) /\
  (forall n, FS.dir (wfs w) !! n = None -> FS.dir (wfs w') !! n = None).
Proof.
  unfold retain. destruct (0 <? MaxRemain (cf w))%Z; [|by repeat split].
  destruct (Retention.enqueue _ _ _) as [s'|] eqn:E; [|by repeat split].
  destruct (Retention.TryEnqueue_evicts_queued _ _ _ _ _ E) as (ev & Hev & Hfs).
  cbn in *. rewrite Hfs. destruct (Retention.remove_all_inodes ev (wfs w)) as [-> ->].
  repeat split; intros n Hn; rewrite Retention.remove_all_dir; case_decide as Hin; try done.
  by apply Hev in Hin.
Qed.

(** ** The writer's invariant *)

Lemma keeps_frame {A} (m : st FS.fs A) :
  (forall H N, preserves (FS.fs_at H N) m) -> fs_frame m.
Proof.
  intros Hk s Hs. destruct (Hk (FS.handles s) (FS.next_id s) s (conj Hs (conj eq_refl eq_refl)))
    as (? & -> & ->). split_and!; auto.
Qed.

Lemma OpenFile_frame n : fs_frame (FS.OpenFile n).
Proof.
  intros s Hs. pose proof (FS.OpenFile_spec n s Hs) as Ho.
  destruct (FS.OpenFile n s) as [s' r]. by destruct Ho as (? & ? & ? & _).
Qed.

Lemma CompressFile_frame old cmp : fs_frame (CompressFile old cmp).
Proof.
  intros s Hwf. unfold CompressFile.
  pose proof (FS.OpenFile_spec cmp s Hwf) as Ho.
  destruct (FS.OpenFile cmp s) as [s1 [h1|e]] eqn:E0; destruct Ho as (Hwf1 & Hn1 & Hfr1 & Hh1);
    [rewrite (st_bind_ok _ _ _ _ _ E0)
    |rewrite (st_bind_err _ _ _ _ _ E0); exact (conj Hwf1 (conj Hn1 Hfr1))].
  destruct (Hh1 h1 eq_refl) as [Hge _].
  lazymatch goal with |- context [st_finally ?b _] =>
    assert (Hb : preserves (FS.fs_at (FS.handles s1) (FS.next_id s1)) b) by solve_preserves;
    unfold st_finally; destruct (b s1) as [s2 r2] eqn:E end.
  pose proof (Hb s1 (conj Hwf1 (conj eq_refl eq_refl))) as Hs2. rewrite E in Hs2.
  destruct Hs2 as (Hwf2 & Hh2 & Hn2). cbn [fst] in *.
  destruct (FS.Close_spec h1 s2 Hwf2) as (Hwf3 & Hn3 & Hfr3). split_and!; [done|lia|].
  intros h Hh. rewrite Hfr3 by lia. rewrite Hh2. by apply Hfr1.
Qed.

Lemma on_fs_inv {A} (m : st FS.fs A) (w : world) :
  fs_frame m -> writer_inv w ->
  writer_inv (fst (on_fs m w)) /\ file (fst (on_fs m w)) = file w /\ bg (fst (on_fs m w)) = bg w.
Proof.
  intros Hm (Hwf & [i Hi] & Hbg). unfold on_fs.
  destruct (Hm _ Hwf) as (Hwf' & Hn & Hfr). destruct (m (wfs w)) as [s' r]. cbn in *.
  unfold writer_inv, set_fs; cbn. split_and!; try done.
  rewrite Hfr; [by eexists|]. apply (proj2 (proj2 (proj2 Hwf)) _ _ Hi).
Qed.

Lemma remove_all_keeps (HT : gmap nat nat) (N : nat) ns s :
  FS.fs_at HT N s -> FS.fs_at HT N (Retention.remove_all ns s).
Proof.
  revert s; induction ns as [|n ns IH]; intros s Hs; [done|]. apply IH.
  apply (FS.Remove_keeps HT N n s Hs).
Qed.

Lemma on_fs_preserves {A} (m : st FS.fs A) : fs_frame m -> preserves writer_inv (on_fs m).
Proof. intros Hm w Hw. apply (on_fs_inv m w Hm Hw). Qed.

Lemma on_fs_preserves_bg {A} t (m : st FS.fs A) : fs_frame m -> preserves (bg_inv t) (on_fs m).
Proof.
  intros Hm w [Hw Ht]. unfold bg_inv. destruct (on_fs_inv m w Hm Hw) as (? & -> & _). by split.
Qed.

Lemma poll_fire_preserves : preserves writer_inv poll_fire.
Proof. intros w Hw. unfold poll_fire. by destruct (recv_fire (mgr w)) as [[]|]. Qed.

Lemma log_line_preserves t msg : preserves (bg_inv t) (log_line msg).
Proof. by intros w Hw. Qed.

Lemma retain_preserves t n : preserves (bg_inv t) (retain n).
Proof.
  intros w [(Hwf & Hh & Hbg) Ht]. unfold retain. destruct (0 <? MaxRemain (cf w))%Z; [|done].
  destruct (Retention.enqueue _ _ _) as [s'|] eqn:E; [|done].
  destruct (Retention.TryEnqueue_evicts_queued _ _ _ _ _ E) as (ev & _ & Hfs).
  cbn in Hfs. destruct (remove_all_keeps _ _ ev _ (conj Hwf (conj eq_refl eq_refl))) as (? & Hh' & _).
  unfold bg_inv, writer_inv, set_rq_fs_logs; cbn. rewrite Hfs, Hh'. done.
Qed.

Lemma Close_old_preserves t : preserves (bg_inv t) (on_fs (FS.Close (oldfile t))).
Proof.
  intros w [(Hwf & [i Hi] & Hbg) Ht]. unfold on_fs.
  destruct (FS.Close_spec (oldfile t) (wfs w) Hwf) as (Hwf' & _ & Hfr).
  destruct (FS.Close (oldfile t) (wfs w)) as [s' r]. cbn in *.
  unfold bg_inv, writer_inv, set_fs; cbn. split_and!; try done.
  rewrite Hfr by lia. by eexists.
Qed.

#[local] Hint Resolve keeps_frame CompressFile_frame OpenFile_frame on_fs_preserves
  on_fs_preserves_bg poll_fire_preserves log_line_preserves retain_preserves
  Close_old_preserves : logx.

Lemma bg_run_preserves t : preserves (bg_inv t) (bg_run t).
Proof. unfold bg_run. solve_preserves. Qed.

Lemma Reopen_preserves n : preserves writer_inv (Reopen n).
Proof.
  intros [s m f p c q bgs l] (Hwf & [i Hi] & Hbg). cbn in Hwf, Hi, Hbg.
  assert (Hf : f < FS.next_id s) by apply (proj2 (proj2 (proj2 Hwf)) _ _ Hi).
  cbv [Reopen st_get st_bind on_fs st_modify]. cbn [wfs absPath].
  pose proof (FS.Rename_keeps _ _ p n s (conj Hwf (conj eq_refl eq_refl))) as HR.
  destruct (FS.Rename p n s) as [s1 [[]|e]]; cbn in HR; destruct HR as (Hwf1 & Hh1 & Hn1);
    unfold writer_inv; cbn; [|rewrite Hh1; eauto].
  pose proof (FS.OpenFile_spec p s1 Hwf1) as Ho.
  destruct (FS.OpenFile p s1) as [s2 [h2|e]]; destruct Ho as (Hwf2 & Hn2 & Hfr2 & Hh2); cbn.
  - destruct (Hh2 h2 eq_refl) as [Hge Hs]. split_and!; [done|done|].
    apply Forall_app; split; [|constructor; [cbn; lia|done]].
    apply (Forall_impl _ _ _ Hbg). intros ? ?; lia.
  - split_and!; [done| |done]. rewrite Hfr2 by lia. rewrite Hh1. by eexists.
Qed.

#[local] Hint Resolve Reopen_preserves : logx.

Lemma Write_preserves b : preserves writer_inv (Write b).
Proof. unfold Write. solve_preserves. Qed.

Lemma run_bg_preserves : preserves writer_inv run_bg.
Proof.
  intros w Hw. unfold run_bg. destruct (bg w) as [|t rest] eqn:Hb; [done|].
  destruct Hw as (Hwf & Hh & Hbg). rewrite Hb in Hbg. apply Forall_cons in Hbg as [Ht Hrest].
  apply (bg_run_preserves t). done.
Qed.

Lemma write_through_ok (w : world) (b : bytes) :
  writer_inv w -> on_fs (FS.Write (file w) b) w =
    (fst (on_fs (FS.Write (file w) b) w), Ok (Z.of_nat (length b))).
Proof.
  intros (_ & [i Hi] & _). unfold on_fs. by rewrite (FS.Write_ok _ _ i).
Qed.

Lemma Reopen_errors (n : string) (w : world) :
  snd (Reopen n w) = Ok tt \/ snd (Reopen n w) = Err (ErrNotExist "rename" (absPath w)) \/
  snd (Reopen n w) = Err (ErrPermission "rename" n) \/
  snd (Reopen n w) = Err (ErrPermission "open" (absPath w)).
Proof.
  destruct w as [s m f p c q bgs l].
  cbv [Reopen st_get st_bind on_fs st_modify FS.Rename FS.OpenFile]. cbn [wfs absPath].
  destruct (FS.dir s !! p); [|cbn; tauto]. case_decide; [cbn; tauto|]. cbn.
  case_decide; [cbn; tauto|]. destruct (_ !! p); cbn; tauto.
Qed.

Theorem Write_result (w : world) (b : bytes) :
  writer_inv w ->
  snd (Write b w) = Ok (Z.of_nat (length b)) \/
  exists n rest, fire (mgr w) = n :: rest /\
    (snd (Write b w) = Err (ErrNotExist "rename" (absPath w)) \/
     snd (Write b w) = Err (ErrPermission "rename" n) \/
     snd (Write b w) = Err (ErrPermission "open" (absPath w))).
Proof.
  intros Hw. unfold Write. destruct (fire (mgr w)) as [|n rest] eqn:Hf.
  - rewrite (st_bind_ok _ _ _ _ _ (poll_fire_none w Hf)). cbv [st_bind st_ret st_get].
    rewrite write_through_ok by done. by left.
  - rewrite (st_bind_ok _ _ _ _ _ (poll_fire_some w n rest Hf)). cbv beta iota.
    pose proof (Reopen_errors n (set_mgr (set_fire rest (mgr w)) w)) as Hr.
    pose proof (Reopen_preserves n (set_mgr (set_fire rest (mgr w)) w) Hw) as Hi.
    cbv [st_bind st_get]. destruct (Reopen n _) as [w2 [[]|e]]; cbn in Hr, Hi.
    + rewrite write_through_ok by done. by left.
    + right. exists n, rest. split; [done|]. destruct Hr as [Hr|Hr]; [discriminate|].
      destruct w; cbn in *. naive_solver.
Qed.

Lemma wstep_preserves (w w' : world) : writer_inv w -> wstep w w' -> writer_inv w'.
Proof.
  intros Hw Hs. destruct Hs; [by apply Write_preserves|by apply run_bg_preserves|done].
Qed.

Lemma Write_rotate_eq (w : world) (n : string) (rest : list string) (b : bytes) (i : nat) :
  fire (mgr w) = n :: rest -> FS.dir (wfs w) !! absPath w = Some i ->
  n ∉ FS.denied (wfs w) -> absPath w ∉ FS.denied (wfs w) -> n <> absPath w ->
  Write b w =
    (let w' := reopened (set_mgr (set_fire rest (mgr w)) w) n i in
     set_fs (FS.set_inodes (<[FS.next_id (wfs w) := b]> (FS.inodes (wfs w'))) (wfs w')) w',
     Ok (Z.of_nat (length b))).
Proof.
  intros Hf Hp Hn Hpd Hne. unfold Write.
  rewrite (st_bind_ok _ _ _ _ _ (poll_fire_some w n rest Hf)). cbv beta iota.
  rewrite (st_bind_ok _ _ _ _ _ (Reopen_ok (set_mgr (set_fire rest (mgr w)) w) n i Hp Hn Hpd Hne)).
  cbv [st_get st_bind on_fs].
  rewrite (FS.Write_ok _ _ (FS.next_id (wfs w))) by (cbn; apply lookup_insert_eq).
  cbn. by rewrite lookup_insert_eq.
Qed.

(** C1: a write that finds a pending name rotates first: the historical
    name holds exactly the bytes of the finished segment, the active path
    holds exactly the caller's bytes, the writer's new handle is bound to
    it, the name is consumed, and the old handle goes to the background
    task. *)
Theorem Write_rotates (w : world) (name : string) (rest : list string) (b : bytes)
    (i : nat) (seg : bytes) :
  FS.fs_wf (wfs w) -> fire (mgr w) = name :: rest ->
  FS.dir (wfs w) !! absPath w = Some i -> FS.inodes (wfs w) !! i = Some seg ->
  absPath w ∉ FS.denied (wfs w) -> name ∉ FS.denied (wfs w) -> name <> absPath w ->
  let '(w', r) := Write b w in
  r = Ok (Z.of_nat (length b)) /\
  FS.contents (wfs w') name = Some seg /\
  FS.contents (wfs w') (absPath w') = Some b /\
  active_ok w' /\ fire (mgr w') = rest /\
  bg w' = bg w ++ [mkTask (file w) name].
Proof.
  intros (Hd & _ & _) Hfire Hp Hseg Hpd Hnd Hne.
  assert (Hik : i <> FS.next_id (wfs w)) by (pose proof (proj2 (Hd _ _ Hp)); lia).
  unfold Write. rewrite (st_bind_ok _ _ _ _ _ (poll_fire_some w name rest Hfire)). cbv beta iota.
  rewrite (st_bind_ok _ _ _ _ _
             (Reopen_ok (set_mgr (set_fire rest (mgr w)) w) name i Hp Hnd Hpd Hne)).
  cbv [st_get st_bind on_fs].
  rewrite (FS.Write_ok _ _ (FS.next_id (wfs w))) by (cbn; apply lookup_insert_eq).
  cbn. unfold FS.contents, active_ok. cbn.
  simplify_map_eq. repeat split; eauto.
Qed.

(** C2: with no pending name, a write appends the caller's bytes to the
    file of the current handle and changes nothing else. *)
Theorem Write_appends (w : world) (b : bytes) (i : nat) (old : bytes) :
  fire (mgr w) = [] -> FS.handles (wfs w) !! file w = Some i ->
  FS.inodes (wfs w) !! i = Some old ->
  Write b w = (set_fs (FS.set_inodes (<[i := old ++ b]> (FS.inodes (wfs w))) (wfs w)) w,
               Ok (Z.of_nat (length b))).
Proof.
  intros Hf Hh Ho. unfold Write. rewrite (st_bind_ok _ _ _ _ _ (poll_fire_none w Hf)).
  cbv [st_ret st_get st_bind on_fs]. by rewrite (FS.Write_ok _ _ i), Ho.
Qed.

(** When the rename of the active file fails (the file was removed
    behind the writer's back), the write returns the error without writing
    the caller's bytes, the disk is unchanged, and the pending name has
    been consumed: that rotation is lost, not retried. *)
Theorem Write_rename_fails (w : world) (b : bytes) (name : string) (rest : list string) :
  fire (mgr w) = name :: rest -> FS.dir (wfs w) !! absPath w = None ->
  Write b w = (set_mgr (set_fire rest (mgr w)) w, Err (ErrNotExist "rename" (absPath w))).
Proof.
  intros Hf Hp. unfold Write. rewrite (st_bind_ok _ _ _ _ _ (poll_fire_some w name rest Hf)).
  cbv beta iota. cbv [Reopen st_get st_bind on_fs].
  by rewrite FS.Rename_missing.
Qed.

(** C15: the background task of a rotation with compression: once it has
    run, decompressing the file at the historical name gives back exactly
    the bytes of the finished segment, the temporary file is gone and the
    old handle is closed. *)
Theorem bg_compress_roundtrip (w : world) (h : FS.handle) (name : string) (rest : list bgtask)
    (i : nat) (seg : bytes) :
  FS.fs_wf (wfs w) -> bg w = mkTask h name :: rest -> Compress (cf w) = true ->
  FS.handles (wfs w) !! h = Some i -> FS.dir (wfs w) !! name = Some i ->
  FS.inodes (wfs w) !! i = Some seg ->
  name ∉ FS.denied (wfs w) -> name +:+ ".tmp" ∉ FS.denied (wfs w) -> name ∉ rq w ->
  let '(w', r) := run_bg w in
  r = Ok tt /\ (FS.contents (wfs w') name ≫= gunzip) = Some seg /\
  FS.dir (wfs w') !! (name +:+ ".tmp") = None /\ FS.handles (wfs w') !! h = None.
Proof.
  intros (Hd & Hh & _ & Hhs) Hbg Hc Hhi Hn Hseg Hnd Htd Hrq.
  assert (Hik : i < FS.next_id (wfs w)) by (apply (Hh _ _ Hhi)).
  assert (Hhk : h < FS.next_id (wfs w)) by (apply (Hhs _ _ Hhi)).
  assert (Hne : name +:+ ".tmp" <> name).
  { intros E. apply (f_equal String.length) in E. rewrite string_length_app in E. simpl in E. lia. }
  destruct w as [s m f p c q bgs l]; cbn in Hbg, Hc, Hhi, Hn, Hseg, Hnd, Htd, Hrq, Hik, Hhk. subst bgs.
  unfold run_bg. cbv [bg_run st_get st_bind st_finally st_try on_fs].
  cbn [bg hist oldfile wfs cf mgr file absPath rq logs]. rewrite Hc.
  rewrite (FS.Rename_ok _ _ _ i) by done. cbv [set_fs wfs].
  rewrite (CompressFile_ok _ h i i seg); cbn; auto;
    [|rewrite lookup_insert_ne by done; apply lookup_delete_eq | apply lookup_insert_eq].
  lazymatch goal with |- context [retain ?n ?W] =>
    pose proof (retain_other n W) as HR; destruct (retain n W) as [w3 r3] end.
  destruct HR as (-> & Hino & Hhan & Hdir & Hnone).
  destruct w3 as [s3 m3 f3 p3 c3 q3 b3 l3]; cbn in Hino, Hhan, Hdir, Hnone |- *.
  rewrite (FS.Close_ok _ _ i) by (rewrite Hhan; rewrite lookup_delete_ne by lia;
    rewrite lookup_insert_ne by lia; done).
  cbn [FS.set_handles FS.dir FS.inodes FS.handles]. unfold FS.contents.
  rewrite Hdir by done. rewrite Hnone by apply lookup_delete_eq.
  rewrite lookup_delete_ne by done. rewrite lookup_insert_eq. cbn. rewrite Hino.
  cbn [FS.inodes]. rewrite lookup_insert_eq. cbn. rewrite gunzip_gzip. repeat split. apply lookup_delete_eq.
Qed.
(** C27: when the fresh file cannot be created after the rename, the
    write fails, but the writer keeps its old handle, which now points at
    the historical file: the next write succeeds and lands in the
    historical file, and no file is at the active path any more. *)
Theorem Write_open_fails_misroutes (w : world) (name : string) (b1 b2 : bytes) (i : nat) (seg : bytes) :
  fire (mgr w) = [name] -> FS.dir (wfs w) !! absPath w = Some i ->
  FS.handles (wfs w) !! file w = Some i -> FS.inodes (wfs w) !! i = Some seg ->
  absPath w ∈ FS.denied (wfs w) -> name ∉ FS.denied (wfs w) -> name <> absPath w ->
  let '(w1, r1) := Write b1 w in let '(w2, r2) := Write b2 w1 in
  r1 = Err (ErrPermission "open" (absPath w)) /\ r2 = Ok (Z.of_nat (length b2)) /\
  FS.contents (wfs w2) name = Some (seg ++ b2) /\ FS.contents (wfs w2) (absPath w) = None.
Proof.
  intros Hf Hp Hh Hseg Hpd Hnd Hne.
  unfold Write at 1. rewrite (st_bind_ok _ _ _ _ _ (poll_fire_some w name [] Hf)). cbv beta iota.
  cbv [Reopen st_get st_bind on_fs]. rewrite (FS.Rename_ok _ _ _ i) by done.
  cbv [set_fs wfs absPath]. rewrite FS.OpenFile_denied by done. cbn -[Write].
  unfold Write, poll_fire. cbn [recv_fire fire set_fire mgr st_bind].
  cbv [st_ret st_get st_bind on_fs]. rewrite (FS.Write_ok _ _ i) by done.
  cbn. unfold FS.contents. cbn. simplify_map_eq. by destruct w.
Qed.

(** C4: the writer's invariant holds in every state a writer reaches
    from one where it holds, by writes, goroutine runs of [Reopen] and
    manager steps in any interleaving: the disk stays well formed, the
    active handle stays open (no goroutine ever closes it), and pending
    goroutines hold only older handles. *)
Theorem writer_inv_reachable (w0 w : world) :
  writer_inv w0 -> star wstep w0 w -> writer_inv w.
Proof. intros Hw0 Hs. exact (star_invariant _ _ wstep_preserves _ _ Hs Hw0). Qed.

(** C29: [Close] is not final and leaves the manager running: after
    [Close], a write with no pending name fails on the closed file, but a
    write that finds a pending name rotates, reopens the active file and
    succeeds; the manager, with its cron job or poller, is untouched. *)
Theorem Close_not_final (w : world) (b : bytes) (n : string) (rest : list string) (i : nat) :
  writer_inv w ->
  (fire (mgr w) = [] -> snd (Write b (fst (Close w))) = Err ErrFileClosed) /\
  (fire (mgr w) = n :: rest -> FS.dir (wfs w) !! absPath w = Some i ->
   n ∉ FS.denied (wfs w) -> absPath w ∉ FS.denied (wfs w) -> n <> absPath w ->
   mgr (fst (Close w)) = mgr w /\ snd (Write b (fst (Close w))) = Ok (Z.of_nat (length b))).
Proof.
  intros (_ & [j Hj] & _).
  assert (Hc : Close w = (set_fs (FS.set_handles (delete (file w) (FS.handles (wfs w))) (wfs w)) w, Ok tt)).
  { cbv [Close st_get st_bind on_fs]. by rewrite (FS.Close_ok _ _ j). }
  rewrite Hc. cbn [fst]. split.
  - intros Hf. unfold Write. rewrite (st_bind_ok _ _ _ _ _ (poll_fire_none (set_fs (FS.set_handles (delete (file w) (FS.handles (wfs w))) (wfs w)) w) Hf)).
    cbv [st_bind st_ret st_get on_fs FS.Write]. cbn. by rewrite lookup_delete_eq.
  - intros Hf Hp Hn Hpd Hne. split; [done|]. unfold Write.
    rewrite (st_bind_ok _ _ _ _ _ (poll_fire_some (set_fs (FS.set_handles (delete (file w) (FS.handles (wfs w))) (wfs w)) w) n rest Hf)). cbv beta iota.
    rewrite (st_bind_ok _ _ _ _ _ (Reopen_ok (set_mgr (set_fire rest (mgr w)) (set_fs (FS.set_handles (delete (file w) (FS.handles (wfs w))) (wfs w)) w)) n i Hp Hn Hpd Hne)).
    cbv [st_get st_bind on_fs]. 
    rewrite (FS.Write_ok _ _ (FS.next_id (wfs w))) by (cbn; apply lookup_insert_eq). done.
Qed.

(** C28: two rotations that get the same historical name (the time tag
    has minute resolution, so a size-triggered rotation within the same
    minute repeats it) lose the first segment: the name now holds the
    second segment and no name refers to the first one. *)
Theorem rotation_name_collision (w : world) (n : string) (b1 b2 : bytes) (i : nat) :
  FS.fs_wf (wfs w) -> fire (mgr w) = [n] -> FS.dir (wfs w) !! absPath w = Some i ->
  map_Forall (fun x j => j = i -> x = absPath w) (FS.dir (wfs w)) ->
  n ∉ FS.denied (wfs w) -> absPath w ∉ FS.denied (wfs w) -> n <> absPath w ->
  let w1 := fst (Write b1 w) in
  let w2 := fst (Write b2 (set_mgr (set_fire [n] (mgr w1)) w1)) in
  FS.contents (wfs w2) n = Some b1 /\ FS.contents (wfs w2) (absPath w) = Some b2 /\
  forall x, FS.dir (wfs w2) !! x <> Some i.
Proof.
  intros (Hd & _ & _) Hf Hp Honly Hn Hpd Hne w1 w2.
  assert (Hik : i < FS.next_id (wfs w)) by apply (proj2 (Hd _ _ Hp)).
  unfold w2, w1. rewrite (Write_rotate_eq w n [] b1 i) by done. cbn [fst].
  rewrite (Write_rotate_eq _ n [] b2 (FS.next_id (wfs w))); cbn; try done;
    [|by rewrite lookup_insert_eq].
  assert (Hne' : absPath w <> n) by done.
  unfold FS.contents; cbn. split_and!.
  - rewrite lookup_insert_ne by done. rewrite lookup_insert_eq. cbn.
    rewrite lookup_insert_ne by lia. rewrite lookup_insert_ne by lia. by rewrite lookup_insert_eq.
  - rewrite lookup_insert_eq. cbn. by rewrite lookup_insert_eq.
  - intros x Hx.
    repeat (rewrite lookup_insert_Some in Hx || rewrite lookup_delete_Some in Hx).
    pose proof (fun Hdx => Honly x i Hdx eq_refl) as Ho.
    destruct Hx as [[E1 E2]|(Hx1 & [[E1 E2]|(Hx2 & _ & [[E1 E2]|(_ & [[E1 E2]|(_ & _ & Hdx)])])])];
      try lia; try congruence.
    apply Ho in Hdx. congruence.
Qed.

End WriterFacts.
End Writer.

(** ** Witnesses *)
Module WriterWitness.
Import Config Manager Writer.

Definition cfg0 : Config := WithCompress (WithMaxRemain 2 NewDefaultConfig).

(** "./log/log.log" holds one byte, bound to handle 1; the manager has one
    pending name. *)
Definition fs0 : FS.fs :=
  FS.mkFS {["log/log.log" := 0]} {[0 := [Byte.x61]]} {[1 := 0]} 2 ∅.
Definition mgr0 : manager := mkManager 0 0 ["log/log.log.1"] false true false.
Definition w0 : world := mkWorld fs0 mgr0 1 "log/log.log" cfg0 [] [] [].

Lemma Write_rotates_witness :
  let '(w', r) := Write [Byte.x62] w0 in
  r = Ok (Z.of_nat (length [Byte.x62])) /\
  FS.contents (wfs w') "log/log.log.1" = Some [Byte.x61] /\
  FS.contents (wfs w') (absPath w') = Some [Byte.x62] /\
  active_ok w' /\ fire (mgr w') = [] /\ bg w' = bg w0 ++ [mkTask (file w0) "log/log.log.1"].
Proof.
  apply (Write_rotates w0 "log/log.log.1" [] [Byte.x62] 0 [Byte.x61]);
    [by_decide | reflexivity | reflexivity | reflexivity | by_decide | by_decide | by_decide].
Defined.

Lemma Write_appends_witness :
  let w := set_mgr (set_fire [] mgr0) w0 in
  Write [Byte.x62] w =
    (set_fs (FS.set_inodes (<[0 := [Byte.x61] ++ [Byte.x62]]> (FS.inodes (wfs w))) (wfs w)) w,
     Ok (Z.of_nat (length [Byte.x62]))).
Proof. apply (Write_appends (set_mgr (set_fire [] mgr0) w0) [Byte.x62] 0 [Byte.x61]); reflexivity. Defined.

Lemma Write_rename_fails_witness :
  let w := set_fs (FS.set_dir ∅ fs0) w0 in
  Write [Byte.x62] w = (set_mgr (set_fire [] (mgr w)) w, Err (ErrNotExist "rename" (absPath w))).
Proof. apply (Write_rename_fails (set_fs (FS.set_dir ∅ fs0) w0) [Byte.x62] "log/log.log.1" []); reflexivity. Defined.

(** After the rotation of [w0]: the task of handle 1 and "log/log.log.1". *)
Definition w1 : world := fst (Write [Byte.x62] w0).

Lemma bg_compress_roundtrip_witness :
  let '(w', r) := run_bg w1 in
  r = Ok tt /\ (FS.contents (wfs w') "log/log.log.1" ≫= gunzip) = Some [Byte.x61] /\
  FS.dir (wfs w') !! ("log/log.log.1" +:+ ".tmp") = None /\ FS.handles (wfs w') !! 1 = None.
Proof.
  apply (bg_compress_roundtrip w1 1 "log/log.log.1" [] 0 [Byte.x61]);
    [by_decide | reflexivity | reflexivity | reflexivity | reflexivity | reflexivity
    | by_decide | by_decide | by_decide].
Defined.

(** [w0] with the active path no longer creatable. *)
Definition w_denied : world :=
  set_fs (FS.mkFS {["log/log.log" := 0]} {[0 := [Byte.x61]]} {[1 := 0]} 2 {["log/log.log"]}) w0.

Lemma Write_open_fails_misroutes_witness :
  let '(w1, r1) := Write [Byte.x62] w_denied in let '(w2, r2) := Write [Byte.x63] w1 in
  r1 = Err (ErrPermission "open" (absPath w_denied)) /\ r2 = Ok (Z.of_nat (length [Byte.x63])) /\
  FS.contents (wfs w2) "log/log.log.1" = Some ([Byte.x61] ++ [Byte.x63]) /\
  FS.contents (wfs w2) (absPath w_denied) = None.
Proof.
  apply (Write_open_fails_misroutes w_denied "log/log.log.1" [Byte.x62] [Byte.x63] 0 [Byte.x61]);
    [reflexivity | reflexivity | reflexivity | reflexivity | by_decide | by_decide | by_decide].
Defined.

Lemma writer_inv_reachable_witness : writer_inv w1.
Proof. apply (writer_inv_reachable w0 w1); [by_decide | apply star_one, ws_write]. Defined.

Lemma Close_not_final_witness :
  (fire (mgr w0) = [] -> snd (Write [Byte.x62] (fst (Close w0))) = Err ErrFileClosed) /\
  (fire (mgr w0) = "log/log.log.1" :: [] -> FS.dir (wfs w0) !! absPath w0 = Some 0 ->
   "log/log.log.1" ∉ FS.denied (wfs w0) -> absPath w0 ∉ FS.denied (wfs w0) -> "log/log.log.1" <> absPath w0 ->
   mgr (fst (Close w0)) = mgr w0 /\ snd (Write [Byte.x62] (fst (Close w0))) = Ok (Z.of_nat (length [Byte.x62]))).
Proof. apply (Close_not_final w0 [Byte.x62] "log/log.log.1" [] 0). by_decide. Defined.

Lemma rotation_name_collision_witness :
  let w1 := fst (Write [Byte.x62] w0) in
  let w2 := fst (Write [Byte.x63] (set_mgr (set_fire ["log/log.log.1"] (mgr w1)) w1)) in
  FS.contents (wfs w2) "log/log.log.1" = Some [Byte.x62] /\
  FS.contents (wfs w2) (absPath w0) = Some [Byte.x63] /\
  forall x, FS.dir (wfs w2) !! x <> Some 0.
Proof.
  apply (rotation_name_collision w0 "log/log.log.1" [Byte.x62] [Byte.x63] 0);
    [by_decide | reflexivity | reflexivity | by_decide | by_decide | by_decide | by_decide].
Defined.

End WriterWitness.
