(* ===== verification/BufferWriter.v ===== *)
(** * BufferWriter: the ["buffer"] writer mode ([src/rollingwriter/writer.go])

    A [BufferWriter] embeds the [Writer] and adds a byte buffer [buf] and a
    flag [swaping].  [Write] polls the fire channel and rotates like the
    plain writer, then appends the bytes to the buffer; when the buffer has
    grown past [BufferWriterThreshold] and no swap is in progress it swaps
    in an empty buffer and writes the old one through the active handle,
    ignoring the error.  [Close] writes the buffer and closes the handle.
    Each call is one step of the state [bwriter]: the [Writer]'s world, the
    buffer and the flag.  Concurrent calls are the relation [bstep] on
    [bconc], which splits a call at its load of [*w.buf] and its store.
    The swap's [make([]byte, 0, w.cf.BufferWriterThreshold*2)] is the
    constructor's, which has not panicked on the same configuration, so it
    is taken to succeed. *)

From S2P Require Import Prelude GoLib Config FileSys Manager Retention Writer.

Module BufferWriter.
Import Config Manager Writer.

Record bwriter := mkBW { bw_world : world; buf : bytes; swaping : bool }.

Section BufferWriter.
Context `{Env} `{Gzip}.

(** Run an operation of the embedded [Writer]. *)
Definition on_world {A} (m : st world A) : st bwriter A := fun s =>
  let '(w', r) := m (bw_world s) in (mkBW w' (buf s) (swaping s), r).

(** [atomic.StorePointer(&w.buf, &buf)], then, past the threshold and
    when no swap is in progress, swap in an empty buffer and write the old
    one, ignoring the error. *)
Definition store_and_swap (nbuf : bytes) : st bwriter unit :=
  s <- st_get ;;
  st_put (mkBW (bw_world s) nbuf (swaping s)) ;;;
  if (BufferWriterThreshold (cf (bw_world s)) <? Z.of_nat (length nbuf))%Z && negb (swaping s)
  then
    st_put (mkBW (bw_world s) [] true) ;;;
    _ <- st_try (on_world (on_fs (FS.Write (file (bw_world s)) nbuf))) ;;
    st_modify (fun s' => mkBW (bw_world s') (buf s') false)
  else st_ret tt.

(** The part of [Write] after the rotation: [buf := append( *w.buf, b...)],
    the store and the swap. *)
Definition append_and_swap (b : bytes) : st bwriter Z :=
  s <- st_get ;;
  store_and_swap (buf s ++ b) ;;;
  st_ret (Z.of_nat (length b)).

(** [(w *BufferWriter) Write(b)]. *)
Definition Write (b : bytes) : st bwriter Z :=
  fo <- on_world poll_fire ;;
  match fo with Some filename => on_world (Reopen filename) | None => st_ret tt end ;;;
  append_and_swap b.

(** [(w BufferWriter) Close()]: write the buffer, then close the file. *)
Definition Close : st bwriter unit :=
  s <- st_get ;;
  on_world (on_fs (FS.Write (file (bw_world s)) (buf s))) ;;;
  s' <- st_get ;;
  on_world (on_fs (FS.Close (file (bw_world s')))).

(** The plain writer a buffered one stands for: its buffer appended to the
    file of its handle. *)
Definition flushed (s : bwriter) : world := append_active (buf s) (bw_world s).

(** The buffer invariant of the sequential writer: the threshold is not
    negative, the buffer is within it, and no swap is in progress. *)
Definition buf_ok (s : bwriter) : Prop :=
  let thr := BufferWriterThreshold (cf (bw_world s)) in
  (0 <= thr)%Z /\ (Z.of_nat (length (buf s)) <= thr)%Z /\ swaping s = false.

#[export] Instance buf_ok_dec (s : bwriter) : Decision (buf_ok s).
Proof. unfold buf_ok. apply _. Defined.

(** ** Concurrent calls of [Write]

    [Write] reads [*w.buf] to build [append( *w.buf, b...)] and stores the
    result later with [atomic.StorePointer]; nothing orders two calls
    between the load and the store.  A call in between is kept with the
    buffer it built and the length it will return. *)
Record bconc := mkBC { bc : bwriter; loaded : list (bytes * Z) }.

(** The poll, the rotation, and the load of [*w.buf]. *)
Definition write_load (b : bytes) : st bwriter bytes :=
  fo <- on_world poll_fire ;;
  match fo with Some filename => on_world (Reopen filename) | None => st_ret tt end ;;;
  s <- st_get ;;
  st_ret (buf s ++ b).

Inductive blabel := BEnter (b : bytes) | BReturn (r : result Z).

(** A call starts (and returns at once on a [Reopen] error), or a started
    call stores its buffer, swaps past the threshold, and returns. *)
Inductive bstep (c : bconc) : blabel -> bconc -> Prop :=
| bs_fail b s' e : write_load b (bc c) = (s', Err e) -> bstep c (BReturn (Err e)) (mkBC s' (loaded c))
| bs_load b s' nb : write_load b (bc c) = (s', Ok nb) ->
    bstep c (BEnter b) (mkBC s' (loaded c ++ [(nb, Z.of_nat (length b))]))
| bs_store k nb n : loaded c !! k = Some (nb, n) ->
    bstep c (BReturn (Ok n)) (mkBC (fst (store_and_swap nb (bc c))) (delete k (loaded c))).

End BufferWriter.

Section BufferWriterFacts.
Context `{Env} `{Gzip}.

Lemma Reopen_cf (n : string) (c : Config) : preserves (fun w => cf w = c) (Reopen n).
Proof.
  intros w Hw. cbv [Reopen st_get st_bind on_fs st_modify]. cbn.
  destruct (FS.Rename _ _ _) as [s1 [[]|e]]; cbn; [|done].
  destruct (FS.OpenFile _ _) as [s2 [h|e]]; cbn; done.
Qed.

Lemma poll_fire_cf (c : Config) : preserves (fun w => cf w = c) poll_fire.
Proof. intros w Hw. unfold poll_fire. by destruct (recv_fire _) as [[]|]. Qed.

Lemma on_world_preserves {A} (P : bwriter -> Prop) (m : st world A) :
  (forall s, P s -> forall w, cf w = cf (bw_world s) -> P (mkBW w (buf s) (swaping s))) ->
  (forall c, preserves (fun w => cf w = c) m) -> preserves P (on_world m).
Proof.
  intros HP Hm s Hs. unfold on_world. pose proof (Hm _ (bw_world s) eq_refl) as Hc.
  destruct (m (bw_world s)) as [w' r]. by apply HP.
Qed.

Lemma poll_reopen_buf_ok (fo : option string) :
  preserves buf_ok (match fo with Some n => on_world (Reopen n) | None => st_ret tt end).
Proof.
  destruct fo as [n|]; [|apply preserves_ret]. apply on_world_preserves; [|apply Reopen_cf].
  intros s Hs w Hc. unfold buf_ok in *; cbn. by rewrite Hc.
Qed.

Lemma on_world_eq {A} (m : st world A) (s : bwriter) (w' : world) (r : result A) :
  m (bw_world s) = (w', r) -> on_world m s = (mkBW w' (buf s) (swaping s), r).
Proof. intros E. unfold on_world. by rewrite E. Qed.

Lemma on_fs_cf {A} (m : st FS.fs A) (c : Config) : preserves (fun w => cf w = c) (on_fs m).
Proof. intros w Hw. unfold on_fs. by destruct (m (wfs w)). Qed.

Lemma poll_buf_ok : preserves buf_ok (on_world poll_fire).
Proof.
  apply on_world_preserves; [|apply poll_fire_cf].
  intros s Hs w Hc. unfold buf_ok in *; cbn. by rewrite Hc.
Qed.

(** The part of [Write] after the rotation: append, and write out past the
    threshold. *)
Lemma append_buf_ok (b : bytes) : preserves buf_ok (append_and_swap b).
Proof.
  intros s (Hz & Hl & Hsw). cbv [append_and_swap store_and_swap st_bind st_get st_put st_ret]. rewrite Hsw.
  destruct (BufferWriterThreshold _ <? _)%Z eqn:E; cbn [andb negb].
  - cbv [st_try on_world st_modify]. cbn [bw_world].
    pose proof (on_fs_cf (FS.Write (file (bw_world s)) (buf s ++ b)) _ (bw_world s) eq_refl) as Hc.
    destruct (on_fs _ _) as [w3 r3]. cbn in *. unfold buf_ok; cbn. rewrite Hc. split_and!; [done|lia|done].
  - apply Z.ltb_ge in E. unfold buf_ok; cbn. split_and!; done.
Qed.

Lemma on_world_poll_none (s : bwriter) :
  fire (mgr (bw_world s)) = [] -> on_world poll_fire s = (s, Ok None).
Proof. intros Hf. unfold on_world. rewrite (poll_fire_none _ Hf). by destruct s. Qed.

(** A write with no pending name: the buffer grows, and is written out
    when it passes the threshold. *)
Lemma Write_idle_eq (s : bwriter) (b : bytes) (i : nat) :
  fire (mgr (bw_world s)) = [] -> FS.handles (wfs (bw_world s)) !! file (bw_world s) = Some i ->
  BufferWriter.Write b s =
    (if (BufferWriterThreshold (cf (bw_world s)) <? Z.of_nat (length (buf s ++ b)))%Z && negb (swaping s)
     then mkBW (set_fs (FS.set_inodes (<[i := default [] (FS.inodes (wfs (bw_world s)) !! i) ++ (buf s ++ b)]>
                                         (FS.inodes (wfs (bw_world s)))) (wfs (bw_world s))) (bw_world s)) [] false
     else mkBW (bw_world s) (buf s ++ b) (swaping s),
     Ok (Z.of_nat (length b))).
Proof.
  intros Hf Hh. unfold BufferWriter.Write.
  rewrite (st_bind_ok _ _ _ _ _ (on_world_poll_none s Hf)). cbv beta iota.
  cbv [append_and_swap store_and_swap st_bind st_ret st_get st_put]. destruct (_ && _); [|reflexivity].
  cbv [st_try on_world on_fs st_modify]. cbn [bw_world buf swaping].
  rewrite (FS.Write_ok _ _ i) by exact Hh. reflexivity.
Qed.

Lemma append_and_swap_result (b : bytes) (s : bwriter) : snd (append_and_swap b s) = Ok (Z.of_nat (length b)).
Proof.
  cbv [append_and_swap store_and_swap st_bind st_get st_put st_ret]. destruct (_ && _); [|done].
  cbv [st_try st_modify on_world]. by destruct (on_fs _ _).
Qed.

(** Every successful [Write] reports [len(b)] bytes. *)
Lemma BWrite_len (s : bwriter) (b : bytes) (s' : bwriter) (n : Z) :
  BufferWriter.Write b s = (s', Ok n) -> n = Z.of_nat (length b).
Proof.
  unfold BufferWriter.Write, st_bind at 1. destruct (on_world poll_fire s) as [s1 [fo|e]]; [|done].
  unfold st_bind. destruct (match fo with Some f => on_world (Reopen f) | None => st_ret tt end s1) as [s2 [[]|e]]; [|done].
  pose proof (append_and_swap_result b s2) as Hr. destruct (append_and_swap b s2) as [s3 r3]. cbn in Hr.
  intros Hw. injection Hw as _ Hn. rewrite Hr in Hn. by injection Hn.
Qed.

(** C5: refinement: with no pending rotation and an open file, a write
    of the buffered writer, seen through [flushed] (its buffer appended to
    its file), is exactly a write of the plain [Writer]: the same disk, the
    same result, whether or not the buffer was written out. *)
Theorem Write_refines (s : bwriter) (b : bytes) (i : nat) (old : bytes) :
  fire (mgr (bw_world s)) = [] -> FS.handles (wfs (bw_world s)) !! file (bw_world s) = Some i ->
  FS.inodes (wfs (bw_world s)) !! i = Some old ->
  flushed (fst (BufferWriter.Write b s)) = fst (Writer.Write b (flushed s)) /\
  snd (BufferWriter.Write b s) = snd (Writer.Write b (flushed s)).
Proof.
  intros Hf Hh Ho. rewrite (Write_idle_eq s b i Hf Hh). rewrite Ho. cbn [default from_option id].
  assert (Hfl : flushed s = set_fs (FS.set_inodes (<[i := old ++ buf s]> (FS.inodes (wfs (bw_world s))))
                                     (wfs (bw_world s))) (bw_world s))
    by (unfold flushed, append_active; by rewrite Hh, Ho).
  rewrite Hfl. unfold Writer.Write.
  rewrite (st_bind_ok _ _ _ _ _ (poll_fire_none (set_fs (FS.set_inodes (<[i := old ++ buf s]>
     (FS.inodes (wfs (bw_world s)))) (wfs (bw_world s))) (bw_world s)) Hf)).
  cbv [st_bind st_ret st_get on_fs]. rewrite (FS.Write_ok _ _ i) by exact Hh.
  cbn [fst snd wfs set_fs FS.set_inodes FS.inodes]. rewrite lookup_insert_eq. cbn [default from_option id].
  rewrite set_fs_set_fs, set_inodes_set_inodes, insert_insert_eq.
  destruct (_ && _); cbn [fst snd]; split; try done; unfold flushed, append_active; cbn [bw_world buf].
  - change (FS.handles (wfs (set_fs (FS.set_inodes (<[i:=old ++ buf s ++ b]> (FS.inodes (wfs (bw_world s))))
            (wfs (bw_world s))) (bw_world s)))) with (FS.handles (wfs (bw_world s))).
    change (file (set_fs ?x (bw_world s))) with (file (bw_world s)). rewrite Hh.
    change (FS.inodes (wfs (set_fs (FS.set_inodes ?m _) _))) with m.
    rewrite lookup_insert_eq. cbn [default from_option id]. rewrite app_nil_r.
    change (wfs (set_fs ?x _)) with x. by rewrite set_fs_set_fs, set_inodes_set_inodes, insert_insert_eq, app_assoc.
  - rewrite Hh, Ho. cbn [default from_option id]. by rewrite app_assoc.
Qed.

(** C38: with a non-negative threshold, the sequential buffered writer
    keeps its buffer within [BufferWriterThreshold] and ends every write
    with no swap in progress, whichever path the write takes. *)
Theorem Write_buffer_bounded (s : bwriter) (b : bytes) :
  buf_ok s -> buf_ok (fst (BufferWriter.Write b s)).
Proof.
  apply (preserves_bind _ _ _ poll_buf_ok). intros fo.
  apply (preserves_bind _ _ _ (poll_reopen_buf_ok fo)). intros _. apply append_buf_ok.
Qed.

(** C39: when the buffer is written out through a closed file, the error
    is dropped: the write reports success, the buffer is emptied, and the
    buffered bytes are lost. *)
Theorem Write_flush_error_dropped (s : bwriter) (b : bytes) :
  fire (mgr (bw_world s)) = [] -> FS.handles (wfs (bw_world s)) !! file (bw_world s) = None ->
  (BufferWriterThreshold (cf (bw_world s)) < Z.of_nat (length (buf s ++ b)))%Z -> swaping s = false ->
  BufferWriter.Write b s = (mkBW (bw_world s) [] false, Ok (Z.of_nat (length b))).
Proof.
  destruct s as [w bf sw]; cbn. intros Hf Hh Ht ->.
  cbv [BufferWriter.Write append_and_swap store_and_swap on_world poll_fire recv_fire st_bind st_get st_put st_ret st_try
       st_modify on_fs FS.Write]. cbn. rewrite Hf. cbn.
  replace (BufferWriterThreshold (cf w) <? _)%Z with true by (symmetry; by apply Z.ltb_lt). cbn.
  rewrite Hh. by destruct w.
Qed.

(** The bytes buffered before a rotation are written into the new
    segment: after a rotating write that writes the buffer out, the
    historical file holds only what reached the disk before, and the new
    active file starts with the old buffer. *)
Theorem Write_rotation_moves_buffer (s : bwriter) (b : bytes) (n : string) (i : nat) (old : bytes) :
  FS.fs_wf (wfs (bw_world s)) -> fire (mgr (bw_world s)) = [n] ->
  FS.dir (wfs (bw_world s)) !! absPath (bw_world s) = Some i -> FS.inodes (wfs (bw_world s)) !! i = Some old ->
  n ∉ FS.denied (wfs (bw_world s)) -> absPath (bw_world s) ∉ FS.denied (wfs (bw_world s)) ->
  n <> absPath (bw_world s) ->
  (BufferWriterThreshold (cf (bw_world s)) < Z.of_nat (length (buf s ++ b)))%Z -> swaping s = false ->
  let s' := fst (BufferWriter.Write b s) in
  FS.contents (wfs (bw_world s')) n = Some old /\
  FS.contents (wfs (bw_world s')) (absPath (bw_world s')) = Some (buf s ++ b) /\ buf s' = [].
Proof.
  destruct s as [w bf sw]. intros (Hd & _) Hf Hp Ho Hn Hpd Hne Ht Hsw s'.
  cbn [bw_world buf swaping] in *. subst sw.
  assert (Hik : i <> FS.next_id (wfs w)).
  { pose proof (map_Forall_lookup_1 _ _ _ _ Hd Hp) as [_ ?]. lia. }
  unfold s', BufferWriter.Write.
  assert (E1 : on_world poll_fire (mkBW w bf false) =
               (mkBW (set_mgr (set_fire [] (mgr w)) w) bf false, Ok (Some n)))
    by exact (on_world_eq _ (mkBW w bf false) _ _ (poll_fire_some w n [] Hf)).
  rewrite (st_bind_ok _ _ _ _ _ E1). cbv beta iota.
  assert (E2 : on_world (Reopen n) (mkBW (set_mgr (set_fire [] (mgr w)) w) bf false) =
               (mkBW (reopened (set_mgr (set_fire [] (mgr w)) w) n i) bf false, Ok tt))
    by exact (on_world_eq _ (mkBW (set_mgr (set_fire [] (mgr w)) w) bf false) _ _
                (Reopen_ok (set_mgr (set_fire [] (mgr w)) w) n i Hp Hn Hpd Hne)).
  rewrite (st_bind_ok _ _ _ _ _ E2).
  cbv [append_and_swap store_and_swap st_bind st_get st_put st_ret st_try st_modify on_world on_fs].
  replace (BufferWriterThreshold _ <? _)%Z with true by (symmetry; by apply Z.ltb_lt). cbn.
  rewrite (FS.Write_ok _ _ (FS.next_id (wfs w))) by (cbn; apply lookup_insert_eq).
  unfold FS.contents. cbn. simplify_map_eq. split_and!; done.
Qed.

(** [Close] writes the buffer into the file and closes it; the buffer
    is not reset (the method has a value receiver), and a second [Close]
    fails on the closed file. *)
Theorem Close_flushes (s : bwriter) (i : nat) (old : bytes) :
  FS.handles (wfs (bw_world s)) !! file (bw_world s) = Some i ->
  FS.inodes (wfs (bw_world s)) !! i = Some old ->
  let '(s1, r1) := BufferWriter.Close s in
  r1 = Ok tt /\ FS.hcontents (wfs (bw_world s1)) (file (bw_world s)) = None /\
  FS.inodes (wfs (bw_world s1)) !! i = Some (old ++ buf s) /\
  snd (BufferWriter.Close s1) = Err ErrFileClosed.
Proof.
  destruct s as [w bf sw]; cbn. intros Hh Ho.
  cbv [BufferWriter.Close on_world st_bind st_get on_fs]. cbn.
  rewrite (FS.Write_ok _ _ i) by done. cbn. rewrite (FS.Close_ok _ _ i) by done. cbn.
  unfold FS.hcontents. cbn [FS.handles FS.inodes FS.set_handles FS.set_inodes wfs set_fs].
  rewrite lookup_delete_eq, Ho, lookup_insert_eq. split_and!; try done.
  unfold FS.Write. cbn [FS.handles FS.set_handles]. by rewrite lookup_delete_eq.
Qed.

(** Run alone, the load and the store are the sequential [Write]. *)
Lemma Write_load_store (b : bytes) (s : bwriter) :
  BufferWriter.Write b s = (nb <- write_load b ;; store_and_swap nb ;;; st_ret (Z.of_nat (length b))) s.
Proof.
  unfold BufferWriter.Write, write_load, append_and_swap. cbv [st_bind st_get st_ret].
  destruct (on_world poll_fire s) as [s1 [fo|e]]; [|done].
  destruct fo as [f|]; [destruct (on_world (Reopen f) s1) as [s2 [[]|e]]|]; done.
Qed.

Lemma write_load_idle (b : bytes) (s : bwriter) :
  fire (mgr (bw_world s)) = [] -> write_load b s = (s, Ok (buf s ++ b)).
Proof.
  intros Hf. unfold write_load. rewrite (st_bind_ok _ _ _ _ _ (on_world_poll_none s Hf)). done.
Qed.

Lemma store_below (nb : bytes) (s : bwriter) :
  (Z.of_nat (length nb) <= BufferWriterThreshold (cf (bw_world s)))%Z -> swaping s = false ->
  store_and_swap nb s = (mkBW (bw_world s) nb false, Ok tt).
Proof.
  intros Ht Hs. cbv [store_and_swap st_bind st_get st_put st_ret]. rewrite Hs.
  replace (BufferWriterThreshold _ <? _)%Z with false by (symmetry; apply Z.ltb_ge; lia). done.
Qed.

(** C20: two concurrent [Write]s can lose the bytes of one of them: both
    build their buffer from the same [*w.buf], the first stores its own,
    the second overwrites it with one that lacks the first call's bytes.
    Both calls report success; the first call's bytes are neither in the
    buffer nor on disk. *)
Theorem concurrent_writes_lose_bytes (c : bconc) (a b : bytes) :
  loaded c = [] -> fire (mgr (bw_world (bc c))) = [] -> swaping (bc c) = false ->
  (Z.of_nat (length (buf (bc c) ++ a ++ b)) <= BufferWriterThreshold (cf (bw_world (bc c))))%Z ->
  exists c', lstar bstep c [BEnter a; BEnter b; BReturn (Ok (Z.of_nat (length a)));
                            BReturn (Ok (Z.of_nat (length b)))] c' /\
    loaded c' = [] /\ bw_world (bc c') = bw_world (bc c) /\ buf (bc c') = buf (bc c) ++ b.
Proof.
  destruct c as [s l]; cbn. intros -> Hf Hs Ht. rewrite !length_app in Ht.
  set (c2 := mkBC s [(buf s ++ a, Z.of_nat (length a)); (buf s ++ b, Z.of_nat (length b))]).
  set (s3 := mkBW (bw_world s) (buf s ++ a) false).
  exists (mkBC (mkBW (bw_world s) (buf s ++ b) false) []). split; [|done].
  apply (lstar_step _ _ _ (mkBC s [(buf s ++ a, Z.of_nat (length a))])).
  { apply (bs_load (mkBC s []) a s). by apply write_load_idle. }
  apply (lstar_step _ _ _ c2).
  { apply (bs_load (mkBC s [(buf s ++ a, Z.of_nat (length a))]) b s). by apply write_load_idle. }
  apply (lstar_step _ _ _ (mkBC s3 [(buf s ++ b, Z.of_nat (length b))])).
  { replace (mkBC s3 _) with (mkBC (fst (store_and_swap (buf s ++ a) (bc c2))) (delete 0 (loaded c2))).
    - by apply bs_store.
    - change (bc c2) with s. rewrite store_below; [done| |done]. rewrite length_app. lia. }
  apply lstar_one.
  replace (mkBC (mkBW _ (buf s ++ b) false) []) with
    (mkBC (fst (store_and_swap (buf s ++ b) s3)) (delete 0 [(buf s ++ b, Z.of_nat (length b))])).
  - by apply bs_store.
  - rewrite store_below; [done| |done]. cbn. rewrite length_app. lia.
Qed.

End BufferWriterFacts.
End BufferWriter.

(** ** Witnesses *)
Module BufferWriterWitness.
Import Config Manager Writer BufferWriter.

(** A buffered writer with threshold 1, one byte on disk and one buffered. *)
Definition cfgb : Config := WithBufferThreshold 1 (WithBuffer NewDefaultConfig).
Definition fsb : FS.fs := FS.mkFS {["log/log.log" := 0]} {[0 := [Byte.x61]]} {[1 := 0]} 2 ∅.
Definition bw_idle : bwriter :=
  mkBW (mkWorld fsb (mkManager 0 0 [] false false true) 1 "log/log.log" cfgb [] [] []) [Byte.x62] false.
Definition bw_rot : bwriter :=
  mkBW (mkWorld fsb (mkManager 0 0 ["log/log.log.1"] false false true) 1 "log/log.log" cfgb [] [] [])
       [Byte.x62] false.
Definition bw_closed : bwriter :=
  mkBW (mkWorld (FS.set_handles ∅ fsb) (mkManager 0 0 [] false false true) 1 "log/log.log" cfgb [] [] [])
       [Byte.x62] false.

Lemma Write_refines_witness :
  flushed (fst (BufferWriter.Write [Byte.x63] bw_idle)) = fst (Writer.Write [Byte.x63] (flushed bw_idle)) /\
  snd (BufferWriter.Write [Byte.x63] bw_idle) = snd (Writer.Write [Byte.x63] (flushed bw_idle)).
Proof. apply (Write_refines bw_idle [Byte.x63] 0 [Byte.x61]); reflexivity. Defined.

Lemma Write_buffer_bounded_witness : buf_ok (fst (BufferWriter.Write [Byte.x63] bw_idle)).
Proof. apply Write_buffer_bounded. by_decide. Defined.

Lemma Write_flush_error_dropped_witness :
  BufferWriter.Write [Byte.x63] bw_closed = (mkBW (bw_world bw_closed) [] false, Ok (Z.of_nat (length [Byte.x63]))).
Proof. apply Write_flush_error_dropped; [reflexivity | reflexivity | by_decide | reflexivity]. Defined.

Lemma Write_rotation_moves_buffer_witness :
  FS.contents (wfs (bw_world (fst (BufferWriter.Write [Byte.x63] bw_rot)))) "log/log.log.1" = Some [Byte.x61] /\
  FS.contents (wfs (bw_world (fst (BufferWriter.Write [Byte.x63] bw_rot))))
    (absPath (bw_world (fst (BufferWriter.Write [Byte.x63] bw_rot)))) = Some (buf bw_rot ++ [Byte.x63]) /\
  buf (fst (BufferWriter.Write [Byte.x63] bw_rot)) = [].
Proof.
  apply (Write_rotation_moves_buffer bw_rot [Byte.x63] "log/log.log.1" 0 [Byte.x61]);
    [by_decide | reflexivity | reflexivity | reflexivity | by_decide | by_decide | by_decide | by_decide | reflexivity].
Defined.

Lemma Close_flushes_witness :
  let '(s1, r1) := BufferWriter.Close bw_idle in
  r1 = Ok tt /\ FS.hcontents (wfs (bw_world s1)) (file (bw_world bw_idle)) = None /\
  FS.inodes (wfs (bw_world s1)) !! 0 = Some ([Byte.x61] ++ buf bw_idle) /\
  snd (BufferWriter.Close s1) = Err ErrFileClosed.
Proof. apply (Close_flushes bw_idle 0 [Byte.x61]); reflexivity. Defined.

(** A buffered writer with threshold 100 and one byte buffered. *)
Definition bw_big : bwriter :=
  mkBW (mkWorld fsb (mkManager 0 0 [] false false true) 1 "log/log.log"
                (WithBufferThreshold 100 (WithBuffer NewDefaultConfig)) [] [] []) [Byte.x62] false.

Lemma concurrent_writes_lose_bytes_witness :
  exists c', lstar bstep (mkBC bw_big []) [BEnter [Byte.x63]; BEnter [Byte.x64];
                BReturn (Ok (Z.of_nat (length [Byte.x63]))); BReturn (Ok (Z.of_nat (length [Byte.x64])))] c' /\
    loaded c' = [] /\ bw_world (bc c') = bw_world (bc (mkBC bw_big [])) /\
    buf (bc c') = buf (bc (mkBC bw_big [])) ++ [Byte.x64].
Proof. apply concurrent_writes_lose_bytes; [reflexivity | reflexivity | reflexivity | by_decide]. Defined.

End BufferWriterWitness.
