(* ===== verification/Async.v ===== *)
(** * AsynchronousWriter: the ["async"] writer mode ([src/rollingwriter/writer.go])

    An [AsynchronousWriter] embeds the [Writer] and adds the channel
    [queue] (capacity [QueueSize]), the unbuffered [errChan], the [ctx]
    channel, the flag [closed] and the goroutine [w.writer()] started by
    the constructor.  Several goroutines share it, so the model is a
    labelled transition system [astep] on the state [astate]:
    - a [Write] call loads [closed] ([as_write_check]) and then takes
      its [select] ([write_err], [write_fire], [write_default]), other
      goroutines running in between; calls between the two, or blocked on
      a full queue in the [default] branch, are kept in [writers]; a call
      whose [select] follows its load at once is also one step
      ([as_write_*]); a call that rotates stays in its chunk loop
      ([chunkers]) and takes two steps per chunk ([chunk_step]): the
      pool [Get] with its [copy], then the send, which waits while the
      queue is full;
    - the consumer goroutine [w.writer()] receives ([consumer_recv]),
      loads [w.file] ([consumer_load]), writes through the handle it
      loaded ([consumer_write]), or returns on [ctx] ([consumer_exit]);
    - [Close] sets [closed] ([close_cas]), closes [ctx] ([close_ctx]),
      drains the queue in [onClose] ([close_drain]) and closes the file
      ([close_finish]);
    - the manager and the goroutines of [Reopen] take their own steps.
    The slices of [_asyncBufferPool] are kept by their lengths, most
    recently put first: [copy] into a pooled slice copies as many bytes
    as the slice is long.  The send of the [default] branch takes its
    slice from the pool when it blocks ([as_sel_block]) and completes
    with [as_send].  [Reopen] inside a [select] is one step, and
    [onClose]'s drain loads [w.file] in the step that writes. *)

From S2P Require Import Prelude GoLib Config FileSys Manager Retention Writer.

Module Async.
Import Config Manager Writer.

(** [BufferSize = 0x100000] and [QueueSize = 1024] of [config.go]. *)
Definition BufferSize : Z := 1048576.
Definition QueueSize : nat := 1024.

(** The goroutine [w.writer()]: at its [select], holding a slice it
    received, holding it and the handle [h] it loaded from [w.file] for
    [w.file.Write(b)], blocked on [w.errChan <- err] after a failed
    write, or returned on [<-w.ctx]. *)
Inductive consumer :=
| CSelect
| CHolding (b : bytes)
| CLoaded (h : FS.handle) (b : bytes)
| CBlocked (e : goerr) (b : bytes)
| CReturned.

(** A [Close] call: not called yet, after its [CompareAndSwapInt32], in
    [onClose], at its final [w.file.Close()], returned. *)
Inductive closer := NoClose | CloseCtx | Draining | Finishing | Finished.

#[export] Instance closer_eq_dec : EqDecision closer.
Proof. solve_decision. Defined.

(** A [Write] call inside the chunk loop of its rotation branch: the
    length [l] it will return, the bytes [b] it has not copied yet, and
    the chunk [buf[:n]] it has copied and not yet sent. *)
Record chunker := mkChunker { ret_len : Z; rest : bytes; held : option bytes }.

(** A [Write] call past its load of [closed] (which it found clear):
    before its [select], or blocked in [w.queue <- ...] of the [default]
    branch, with the pooled slice it took. *)
Inductive wcall :=
| WChecked (b : bytes)
| WSending (b : bytes).

Record astate := mkA {
  aw : world;
  queue : list bytes;
  pool : list Z;
  closed : bool;
  ctx_closed : bool;
  cons : consumer;
  chunkers : list chunker;
  clo : closer;
  writers : list wcall
}.

Definition set_aw (w : world) (s : astate) : astate :=
  mkA w (queue s) (pool s) (closed s) (ctx_closed s) (cons s) (chunkers s) (clo s) (writers s).
Definition set_qp (q : list bytes) (p : list Z) (s : astate) : astate :=
  mkA (aw s) q p (closed s) (ctx_closed s) (cons s) (chunkers s) (clo s) (writers s).
Definition set_cons (c : consumer) (s : astate) : astate :=
  mkA (aw s) (queue s) (pool s) (closed s) (ctx_closed s) c (chunkers s) (clo s) (writers s).
Definition set_clo (c : closer) (s : astate) : astate :=
  mkA (aw s) (queue s) (pool s) (closed s) (ctx_closed s) (cons s) (chunkers s) c (writers s).
Definition set_writers (ws : list wcall) (s : astate) : astate :=
  mkA (aw s) (queue s) (pool s) (closed s) (ctx_closed s) (cons s) (chunkers s) (clo s) ws.

Section Async.
Context `{Env} `{Gzip}.

(** Run an operation of the embedded [Writer]. *)
Definition on_aw {A} (m : st world A) : st astate A := fun s =>
  let '(w', r) := m (aw s) in (set_aw w' s, r).

(** [_asyncBufferPool.Get()]: the slice put last, or a new one of
    [BufferSize] bytes; [_asyncBufferPool.Put(b)]. *)
Definition pool_get (p : list Z) : Z * list Z :=
  match p with [] => (BufferSize, []) | n :: p' => (n, p') end.
Definition pool_put (b : bytes) (p : list Z) : list Z := Z.of_nat (length b) :: p.

(** [w.queue <- ...] blocks while the queue holds [QueueSize] slices. *)
Definition queue_full (s : astate) : bool := QueueSize <=? length (queue s).

(** [case err := <-w.errChan]: ready when the consumer is blocked on its
    send; receiving unblocks it, and it puts its slice back. *)
Definition write_err (s : astate) : option (goerr * astate) :=
  match cons s with
  | CBlocked e b => Some (e, set_cons CSelect (set_qp (queue s) (pool_put b (pool s)) s))
  | _ => None
  end.

(** [case filename := <-w.fire]: ready when a name is pending; [Reopen],
    then the chunk loop, which does not run for an empty [b].  The result
    is [Ok (Some n)] when the call returns [n] at once, [Ok None] when it
    stays in its loop. *)
Definition write_fire (b : bytes) (s : astate) : option (astate * result (option Z)) :=
  match recv_fire (mgr (aw s)) with
  | None => None
  | Some (filename, m') =>
      let '(w', r) := Reopen filename (set_mgr m' (aw s)) in
      Some (match r with
            | Err e => (set_aw w' s, Err e)
            | Ok _ =>
                match b with
                | [] => (set_aw w' s, Ok (Some 0%Z))
                | _ => (mkA w' (queue s) (pool s) (closed s) (ctx_closed s) (cons s)
                            (chunkers s ++ [mkChunker (Z.of_nat (length b)) b None]) (clo s) (writers s),
                        Ok None)
                end
            end)
  end.

(** [default]: queue a copy of [b] in a pooled slice. *)
Definition write_default (b : bytes) (s : astate) : astate :=
  set_qp (queue s ++ [b]) (snd (pool_get (pool s))) s.

(** One iteration of the chunk loop: [buf := Get(); n := copy(buf, b)];
    the chunk [buf[:n]], the rest [b[n:]] and the pool. *)
Definition chunk_once (p : list Z) (r : bytes) : bytes * bytes * list Z :=
  let '(cap, p') := pool_get p in
  let n := Z.to_nat (Z.min cap (Z.of_nat (length r))) in
  (take n r, drop n r, p').

(** A step of the [k]-th call in its loop: with a copied chunk, the send
    [w.queue <- buf[:n]], which blocks while the queue is full, and
    [b = b[n:]]; otherwise the loop test [len(b) > 0], then [Get] and
    [copy], or the [return l] (the [Some]). *)
Definition chunk_step (k : nat) (s : astate) : option (astate * option Z) :=
  match chunkers s !! k with
  | None => None
  | Some c =>
      match held c with
      | Some ch =>
          if queue_full s then None else
          Some (mkA (aw s) (queue s ++ [ch]) (pool s) (closed s) (ctx_closed s) (cons s)
                    (<[k := mkChunker (ret_len c) (rest c) None]> (chunkers s)) (clo s) (writers s), None)
      | None =>
          match rest c with
          | [] => Some (mkA (aw s) (queue s) (pool s) (closed s) (ctx_closed s) (cons s)
                            (delete k (chunkers s)) (clo s) (writers s), Some (ret_len c))
          | _ =>
              let '(ch, r', p') := chunk_once (pool s) (rest c) in
              Some (mkA (aw s) (queue s) p' (closed s) (ctx_closed s) (cons s)
                        (<[k := mkChunker (ret_len c) r' (Some ch)]> (chunkers s)) (clo s) (writers s), None)
          end
      end
  end.

(** The sequential chunk loop, for a call that runs alone: the chunks
    it queues and the pool it leaves. *)
Fixpoint chunk_loop (fuel : nat) (p : list Z) (b : bytes) : option (list bytes * list Z) :=
  match b with
  | [] => Some ([], p)
  | _ =>
      match fuel with
      | O => None
      | S f =>
          let '(ch, r, p') := chunk_once p b in
          '(cs, p'') ← chunk_loop f p' r; Some (ch :: cs, p'')
      end
  end.

(** [w.writer()]: [case b := <-w.queue] *)
Definition consumer_recv (s : astate) : option astate :=
  match cons s, queue s with
  | CSelect, b :: q => Some (set_cons (CHolding b) (set_qp q (pool s) s))
  | _, _ => None
  end.

(** ... then the load of [w.file] in [w.file.Write(b)], which no lock
    orders with [Reopen]'s [SwapPointer] ... *)
Definition consumer_load (s : astate) : option astate :=
  match cons s with
  | CHolding b => Some (set_cons (CLoaded (file (aw s)) b) s)
  | _ => None
  end.

(** ... and the write through the loaded handle; on an error
    [w.errChan <- err] blocks, otherwise the slice goes back to the
    pool. *)
Definition consumer_write (s : astate) : option astate :=
  match cons s with
  | CLoaded h b =>
      let '(w', r) := on_fs (FS.Write h b) (aw s) in
      Some (match r with
            | Ok _ => set_cons CSelect (set_qp (queue s) (pool_put b (pool s)) (set_aw w' s))
            | Err e => set_cons (CBlocked e b) (set_aw w' s)
            end)
  | _ => None
  end.

(** [case <-w.ctx: return]. *)
Definition consumer_exit (s : astate) : option astate :=
  match cons s with
  | CSelect => if ctx_closed s then Some (set_cons CReturned s) else None
  | _ => None
  end.

(** [Close]: [CompareAndSwapInt32(&w.closed, 0, 1)]; a second call
    returns [ErrClosed] at once. *)
Definition close_cas (s : astate) : astate * option (result unit) :=
  if closed s then (s, Some (Err ErrClosed))
  else (mkA (aw s) (queue s) (pool s) true (ctx_closed s) (cons s) (chunkers s) CloseCtx (writers s), None).

(** [close(w.ctx)]. *)
Definition close_ctx (s : astate) : option astate :=
  match clo s with
  | CloseCtx => Some (mkA (aw s) (queue s) (pool s) (closed s) true (cons s) (chunkers s) Draining (writers s))
  | _ => None
  end.

(** One turn of [onClose]: write a queued slice; on an error the send on
    the unbuffered [errChan] finds no receiver (every receive of it is in
    a [select] with a [default]), so the loop returns, leaving the rest
    of the queue; an empty queue ends the loop. *)
Definition close_drain (s : astate) : option astate :=
  match clo s with
  | Draining =>
      match queue s with
      | [] => Some (set_clo Finishing s)
      | b :: q =>
          let '(w', r) := on_fs (FS.Write (file (aw s)) b) (aw s) in
          Some (match r with
                | Ok _ => set_qp q (pool_put b (pool s)) (set_aw w' s)
                | Err _ => set_clo Finishing (set_qp q (pool_put b (pool s)) (set_aw w' s))
                end)
      end
  | _ => None
  end.

(** [return w.file.Close()]. *)
Definition close_finish (s : astate) : option (astate * result unit) :=
  match clo s with
  | Finishing => let '(w', r) := on_fs (FS.Close (file (aw s))) (aw s) in
                 Some (set_clo Finished (set_aw w' s), r)
  | _ => None
  end.

(** What a step shows of the calls: a [Write] of [b] returning [r], a
    [Write] of [b] entering its chunk loop, a call in its loop returning
    [n], a [Write] of [b] finding [closed] clear, a [Close] returning
    [r], or an internal step. *)
Inductive label :=
| LWrite (b : bytes) (r : result Z)
| LWriteEnter (b : bytes)
| LWriteCheck (b : bytes)
| LReturn (n : Z)
| LClose (r : result unit)
| LTau.

(** The label of a [Write]'s [fire] case by its result. *)
Definition fire_label (b : bytes) (r : result (option Z)) : label :=
  match r with
  | Err e => LWrite b (Err e)
  | Ok (Some n) => LWrite b (Ok n)
  | Ok None => LWriteEnter b
  end.

(** The steps of the writer and of the goroutines around it.  A [select]
    picks any ready case; [default] is taken only when none is.  A [Write]
    whose [select] directly follows its load of [closed] is one step
    ([as_write_*]); [as_write_check] and the [as_sel_*] steps are the same
    call with other goroutines running in between, the [select] no longer
    looking at [closed]. *)
Inductive astep (s : astate) : label -> astate -> Prop :=
| as_write_closed b : closed s = true -> astep s (LWrite b (Err ErrClosed)) s
| as_write_err b e s' : closed s = false -> write_err s = Some (e, s') ->
    astep s (LWrite b (Err e)) s'
| as_write_fire_err b e s' : closed s = false -> write_fire b s = Some (s', Err e) ->
    astep s (LWrite b (Err e)) s'
| as_write_fire_ret b n s' : closed s = false -> write_fire b s = Some (s', Ok (Some n)) ->
    astep s (LWrite b (Ok n)) s'
| as_write_fire_loop b s' : closed s = false -> write_fire b s = Some (s', Ok None) ->
    astep s (LWriteEnter b) s'
| as_write_default b : closed s = false -> write_err s = None -> write_fire b s = None ->
    queue_full s = false -> astep s (LWrite b (Ok (Z.of_nat (length b)))) (write_default b s)
| as_write_check b : closed s = false ->
    astep s (LWriteCheck b) (set_writers (writers s ++ [WChecked b]) s)
| as_sel_err k b e s' : writers s !! k = Some (WChecked b) -> write_err s = Some (e, s') ->
    astep s (LWrite b (Err e)) (set_writers (delete k (writers s)) s')
| as_sel_fire k b r s' : writers s !! k = Some (WChecked b) -> write_fire b s = Some (s', r) ->
    astep s (fire_label b r) (set_writers (delete k (writers s)) s')
| as_sel_default k b : writers s !! k = Some (WChecked b) -> write_err s = None ->
    write_fire b s = None -> queue_full s = false ->
    astep s (LWrite b (Ok (Z.of_nat (length b)))) (write_default b (set_writers (delete k (writers s)) s))
| as_sel_block k b : writers s !! k = Some (WChecked b) -> write_err s = None ->
    write_fire b s = None -> queue_full s = true ->
    astep s LTau (set_qp (queue s) (snd (pool_get (pool s))) (set_writers (<[k := WSending b]> (writers s)) s))
| as_send k b : writers s !! k = Some (WSending b) -> queue_full s = false ->
    astep s (LWrite b (Ok (Z.of_nat (length b))))
      (set_qp (queue s ++ [b]) (pool s) (set_writers (delete k (writers s)) s))
| as_chunk k s' : chunk_step k s = Some (s', None) -> astep s LTau s'
| as_chunk_ret k n s' : chunk_step k s = Some (s', Some n) -> astep s (LReturn n) s'
| as_recv s' : consumer_recv s = Some s' -> astep s LTau s'
| as_cwrite s' : consumer_write s = Some s' -> astep s LTau s'
| as_cexit s' : consumer_exit s = Some s' -> astep s LTau s'
| as_close_call s' : close_cas s = (s', None) -> astep s LTau s'
| as_close_ret s' r : close_cas s = (s', Some r) -> astep s (LClose r) s'
| as_close_ctx s' : close_ctx s = Some s' -> astep s LTau s'
| as_close_drain s' : close_drain s = Some s' -> astep s LTau s'
| as_close_finish s' r : close_finish s = Some (s', r) -> astep s (LClose r) s'
| as_bg : astep s LTau (set_aw (fst (run_bg (aw s))) s)
| as_mgr m' : mstep (cf (aw s)) (mgr (aw s)) m' -> astep s LTau (set_aw (set_mgr m' (aw s)) s)
| as_cload s' : consumer_load s = Some s' -> astep s LTau s'.

(** The bytes accepted and not yet written: the slice the consumer
    holds, then the queue in order. *)
Definition pending (s : astate) : bytes :=
  match cons s with CHolding b | CLoaded _ b => b | _ => [] end ++ concat (queue s).

(** The plain writer an asynchronous one stands for: its pending bytes
    appended to the file of its handle. *)
Definition aflushed (s : astate) : world := append_active (pending s) (aw s).

(** A writer with no rotation pending or under way and no [Close], whose
    consumer, if it has loaded [w.file], loaded the current handle: the
    setting in which it is meant to behave as the plain writer. *)
Definition quiet (s : astate) : Prop :=
  closed s = false /\ ctx_closed s = false /\ clo s = NoClose /\ chunkers s = [] /\ writers s = [] /\
  (forall e b, cons s <> CBlocked e b) /\ (forall h b, cons s = CLoaded h b -> h = file (aw s)) /\
  fire (mgr (aw s)) = [] /\ bg (aw s) = [] /\
  is_Some (FS.handles (wfs (aw s)) !! file (aw s)).

(** The state [NewWriterFromConfig] returns in mode ["async"]: an empty
    queue, [closed] clear, and the consumer started and at its [select]
    ([wr.wg.Wait()] waits for it). *)
Definition async_start (w : world) : astate := mkA w [] [] false false CSelect [] NoClose [].

(** The invariant of the asynchronous writer: until [Close] has closed
    the file, the writer's invariant holds; the queue is within its
    capacity; [closed] is set
    exactly when [Close] has started, and before [ctx] is closed; the
    consumer returns only after [ctx] is closed.  (The consumer may block
    on [errChan] before [Close]: see [stale_handle_error_stolen].) *)
Definition async_inv (s : astate) : Prop :=
  (clo s <> Finished -> writer_inv (aw s)) /\ length (queue s) <= QueueSize /\
  (closed s = false <-> clo s = NoClose) /\
  (ctx_closed s = true -> closed s = true) /\ (cons s = CReturned -> ctx_closed s = true).

(** No [Write] call is between its load of [closed] and its [select]. *)
Definition checked_free (ws : list wcall) : Prop :=
  Forall (fun c => match c with WChecked _ => False | WSending _ => True end) ws.

End Async.

Lemma checked_free_lookup (ws : list wcall) (k : nat) (b : bytes) :
  checked_free ws -> ws !! k = Some (WChecked b) -> False.
Proof. intros Hw Hk. exact (Forall_lookup_1 _ _ _ _ Hw Hk). Qed.

Section ChunkLoop.
Context `{Env} `{Gzip}.

Lemma chunk_once_app (p : list Z) (r ch r' : bytes) (p' : list Z) :
  chunk_once p r = (ch, r', p') -> ch ++ r' = r.
Proof. unfold chunk_once. destruct (pool_get p). intros [= <- <- _]. apply take_drop. Qed.

Lemma pool_get_pos (p : list Z) :
  Forall (fun L => 0 < L)%Z p -> (0 < fst (pool_get p))%Z /\ Forall (fun L => 0 < L)%Z (snd (pool_get p)).
Proof. destruct p as [|L p]; cbn; [done|]. by inversion 1. Qed.

(** With slices of positive length, every turn of the loop copies at
    least one byte. *)
Lemma chunk_once_progress (p : list Z) (r ch r' : bytes) (p' : list Z) :
  Forall (fun L => 0 < L)%Z p -> r <> [] -> chunk_once p r = (ch, r', p') ->
  length r' < length r /\ Forall (fun L => 0 < L)%Z p'.
Proof.
  intros Hp Hr. unfold chunk_once. destruct (pool_get_pos p Hp) as [Hc Hp'].
  destruct (pool_get p) as [cap p0]. cbn in *. intros [= _ <- <-]. split; [|done].
  rewrite length_drop. destruct r; [done|]. cbn [length]. lia.
Qed.

(** C23: termination: when every pooled slice has a positive length, the
    chunk loop of a call running alone ends within [length b] turns. *)
Theorem chunk_loop_terminates (fuel : nat) (p : list Z) (b : bytes) :
  Forall (fun L => 0 < L)%Z p -> length b <= fuel -> is_Some (chunk_loop fuel p b).
Proof.
  revert p b. induction fuel as [|f IH]; intros p b Hp Hl.
  - destruct b; [by eexists|cbn in Hl; lia].
  - destruct b as [|x r]; [by eexists|]. cbn [chunk_loop].
    destruct (chunk_once p (x :: r)) as [[ch r'] p'] eqn:E.
    destruct (chunk_once_progress p (x :: r) _ _ _ Hp ltac:(discriminate) E) as [Hlt Hp'].
    destruct (IH p' r' Hp' ltac:(cbn in *; lia)) as [[cs p''] ->]. by eexists.
Qed.

(** Round trip: the chunks the loop queues, put back together, are
    the bytes of the call. *)
Theorem chunk_loop_concat (fuel : nat) (p : list Z) (b : bytes) (cs : list bytes) (p' : list Z) :
  chunk_loop fuel p b = Some (cs, p') -> concat cs = b.
Proof.
  revert p b cs p'. induction fuel as [|f IH]; intros p b cs p'.
  - destruct b; cbn; [by intros [= <- _]|done].
  - destruct b as [|x r]; cbn [chunk_loop]; [by intros [= <- _]|].
    destruct (chunk_once p (x :: r)) as [[ch r'] p0] eqn:E.
    destruct (chunk_loop f p0 r') as [[cs0 p1]|] eqn:E2; cbn; [|done].
    intros [= <- _]. cbn. rewrite (IH _ _ _ _ E2). by apply (chunk_once_app p _ _ _ p0).
Qed.

Lemma queue_full_false (s : astate) : length (queue s) < QueueSize -> queue_full s = false.
Proof. apply Nat.leb_gt. Qed.

(** With slices of positive length every chunk is non-empty, so there
    are at most as many chunks as bytes. *)
Lemma chunk_loop_length (f : nat) (p : list Z) (b : bytes) (cs : list bytes) (p' : list Z) :
  Forall (fun L => 0 < L)%Z p -> chunk_loop f p b = Some (cs, p') -> length cs <= length b.
Proof.
  revert p b cs p'. induction f as [|f IH]; intros p b cs p' Hp.
  { destruct b; cbn; [by intros [= <- _]|done]. }
  destruct b as [|x r]; cbn [chunk_loop]; [by intros [= <- _]|].
  destruct (chunk_once p (x :: r)) as [[ch r'] p0] eqn:E.
  destruct (chunk_once_progress p (x :: r) _ _ _ Hp ltac:(discriminate) E) as [Hlt Hp0].
  destruct (chunk_loop f p0 r') as [[cs0 p1]|] eqn:E2; cbn; [|done].
  intros [= <- _]. pose proof (IH _ _ _ _ Hp0 E2). cbn [length] in *. lia.
Qed.

(** A call in its chunk loop that runs alone takes, for each chunk of
    [chunk_loop], a [Get]/[copy] step and a send step, then returns. *)
Lemma chunk_steps_run (f : nat) (s : astate) (l : Z) (b : bytes) (cs : list bytes) (p' : list Z) :
  chunkers s = [mkChunker l b None] -> length (queue s) + length cs <= QueueSize ->
  chunk_loop f (pool s) b = Some (cs, p') ->
  lstar astep s (concat (replicate (length cs) [LTau; LTau]) ++ [LReturn l])
    (mkA (aw s) (queue s ++ cs) p' (closed s) (ctx_closed s) (cons s) [] (clo s) (writers s)).
Proof.
  revert s b cs. induction f as [|f IH]; intros s b cs Hc Hq Hl.
  all: destruct b as [|x r]; [cbn in Hl; injection Hl as <- <-; rewrite app_nil_r;
         apply lstar_one, (as_chunk_ret _ 0); unfold chunk_step; by rewrite Hc|].
  { done. }
  cbn [chunk_loop] in Hl.
  destruct (chunk_once (pool s) (x :: r)) as [[ch r'] p0] eqn:E.
  destruct (chunk_loop f p0 r') as [[cs0 p1]|] eqn:E2; cbn in Hl; [|done].
  injection Hl as <- <-. cbn [length] in Hq.
  set (s1 := mkA (aw s) (queue s) p0 (closed s) (ctx_closed s) (cons s)
                 [mkChunker l r' (Some ch)] (clo s) (writers s)).
  set (s2 := mkA (aw s) (queue s ++ [ch]) p0 (closed s) (ctx_closed s) (cons s)
                 [mkChunker l r' None] (clo s) (writers s)).
  apply (lstar_step _ _ _ s1).
  { apply (as_chunk _ 0). unfold chunk_step. rewrite Hc. cbn -[chunk_once]. by rewrite E. }
  apply (lstar_step _ _ _ s2).
  { apply (as_chunk _ 0). unfold chunk_step. cbn -[queue_full].
    rewrite queue_full_false; [reflexivity|cbn; lia]. }
  replace (queue s ++ ch :: cs0) with (queue s2 ++ cs0) by (cbn; by rewrite <- app_assoc).
  apply (IH s2 r'); [done| |done]. cbn. rewrite length_app. cbn. lia.
Qed.

(** C22: a [Write] that takes [fire] and runs alone (no other call, no
    consumer step in between) reopens the file, then queues chunks whose
    concatenation is its bytes, each taken from the pool and copied
    before it is sent, and returns [len(b)]. *)
Theorem rotating_write_alone (s : astate) (b : bytes) (n : string) (rest : list string) (w1 : world) :
  closed s = false -> chunkers s = [] -> b <> [] -> Forall (fun L => 0 < L)%Z (pool s) ->
  length (queue s) + length b <= QueueSize -> fire (mgr (aw s)) = n :: rest ->
  Reopen n (set_mgr (set_fire rest (mgr (aw s))) (aw s)) = (w1, Ok tt) ->
  exists cs s', lstar astep s (LWriteEnter b :: concat (replicate (length cs) [LTau; LTau]) ++
                               [LReturn (Z.of_nat (length b))]) s' /\
    concat cs = b /\ queue s' = queue s ++ cs /\ aw s' = w1 /\ chunkers s' = [].
Proof.
  intros Hc Hch Hb Hp Hq Hf HR.
  destruct (chunk_loop_terminates (length b) (pool s) b Hp ltac:(done)) as [[cs p'] Hl].
  pose proof (chunk_loop_length _ _ _ _ _ Hp Hl) as Hlen.
  set (s1 := mkA w1 (queue s) (pool s) (closed s) (ctx_closed s) (cons s)
                 [mkChunker (Z.of_nat (length b)) b None] (clo s) (writers s)).
  exists cs, (mkA w1 (queue s ++ cs) p' (closed s) (ctx_closed s) (cons s) [] (clo s) (writers s)).
  split_and!; try done; [|by apply (chunk_loop_concat _ _ _ _ _ Hl)].
  apply (lstar_step _ _ _ s1).
  { apply as_write_fire_loop; [done|]. unfold write_fire, recv_fire. rewrite Hf, HR, Hch.
    destruct b; [done|]. reflexivity. }
  apply (chunk_steps_run (length b) s1 _ b cs p'); [done|cbn; lia|done].
Qed.

End ChunkLoop.

Section Races.
Context `{Env} `{Gzip}.

(** C16: liveness: a [Write] of non-empty bytes in its chunk loop, when
    the pool hands it a slice of length 0 (put back after an empty
    [Write]), copies nothing, queues an empty chunk and keeps its bytes;
    the consumer writes the empty chunk and puts the empty slice back,
    which is the state it started from.  This cycle can run forever: the
    call never returns. *)
Theorem zero_slice_livelock (s : astate) (c : chunker) (p : list Z) (i : nat) (d : bytes) (n : nat) :
  chunkers s = [c] -> rest c <> [] -> held c = None -> pool s = 0%Z :: p -> queue s = [] ->
  cons s = CSelect ->
  FS.handles (wfs (aw s)) !! file (aw s) = Some i -> FS.inodes (wfs (aw s)) !! i = Some d ->
  lstar astep s (concat (replicate n [LTau; LTau; LTau; LTau; LTau])) s.
Proof.
  intros Hc Hr Hhe Hp Hq Hco Hh Hd. apply lstar_iterate.
  destruct s as [w q p0 cl cc co ch cl' ws]; cbn in *; subst. destruct c as [l r h]; cbn in Hr, Hhe; subst.
  destruct r as [|x r]; [done|].
  eapply lstar_step.
  { apply (as_chunk _ 0). unfold chunk_step. cbn [chunkers queue pool lookup list_lookup rest held].
    unfold chunk_once. cbn [pool_get]. rewrite Z.min_l by lia. reflexivity. }
  eapply lstar_step; [apply (as_chunk _ 0); reflexivity|].
  eapply lstar_step; [by apply as_recv|].
  eapply lstar_step; [by apply as_cload|].
  eapply lstar_step.
  { apply as_cwrite. unfold consumer_write. cbn -[on_fs]. rewrite (on_fs_Write_active _ _ i Hh).
    reflexivity. }
  change (Z.to_nat 0) with O. cbn -[append_active]. rewrite (append_active_nil _ _ _ Hh Hd). constructor.
Qed.

(** Every step after [Close] leaves [closed] set, and a consumer blocked
    on its error send stays blocked: the only receive of [errChan] is in a
    [Write] that finds [closed] clear. *)
Lemma astep_blocked (s : astate) (l : label) (s' : astate) (e : goerr) (b : bytes) :
  closed s = true -> cons s = CBlocked e b -> checked_free (writers s) -> astep s l s' ->
  closed s' = true /\ cons s' = CBlocked e b /\ checked_free (writers s').
Proof.
  intros Hc Hb Hw Hs.
  destruct Hs as [| |b0 e0 s0 ? Hf|b0 n s0 ? Hf|b0 s0 ? Hf| |b0 ?|k b0 e0 s0 Hk ?|k b0 r0 s0 Hk ?
                 |k b0 Hk ???|k b0 Hk ???|k b0 Hk ?|k s0 Hk|k n s0 Hk|s0 Hr|s0 Hr|s0 Hr
                 |s0 Hr|s0 r Hr|s0 Hr|s0 Hr|s0 r Hr| |m' ?|s0 Hr]; try congruence;
    try by destruct (checked_free_lookup _ _ _ Hw Hk).
  all: unfold chunk_step, consumer_recv, consumer_load, consumer_write, consumer_exit, close_cas, close_ctx,
         close_drain, close_finish in *; rewrite ?Hc, ?Hb in *.
  all: repeat case_match; simplify_eq/=; split_and!; try done; by apply Forall_delete.
Qed.

Lemma append_active_lookup (w : world) (b : bytes) (i : nat) (d : bytes) :
  FS.handles (wfs w) !! file w = Some i -> FS.inodes (wfs w) !! i = Some d ->
  FS.inodes (wfs (append_active b w)) !! i = Some (d ++ b).
Proof. intros Hh Hd. unfold append_active. rewrite Hh, Hd. cbn. apply lookup_insert_eq. Qed.

(** The drain loop of [onClose] through an open handle: it writes the
    whole queue, in order. *)
Lemma close_drain_all (q : list bytes) (s : astate) (i : nat) (d : bytes) :
  clo s = Draining -> queue s = q -> FS.handles (wfs (aw s)) !! file (aw s) = Some i ->
  FS.inodes (wfs (aw s)) !! i = Some d ->
  exists s', lstar astep s (replicate (length q) LTau) s' /\ queue s' = [] /\ clo s' = Draining /\
    FS.inodes (wfs (aw s')) !! i = Some (d ++ concat q) /\
    FS.handles (wfs (aw s')) = FS.handles (wfs (aw s)) /\ file (aw s') = file (aw s) /\
    cons s' = cons s /\ closed s' = closed s /\ ctx_closed s' = ctx_closed s /\
    writers s' = writers s /\ mgr (aw s') = mgr (aw s).
Proof.
  revert s d. induction q as [|b q IH]; intros s d Hcl Hq Hh Hd.
  { exists s. split; [constructor|]. rewrite app_nil_r. done. }
  set (s1 := set_qp q (pool_put b (pool s)) (set_aw (append_active b (aw s)) s)).
  destruct (append_active_handles (aw s) b) as [Hh1 Hf1].
  destruct (IH s1 (d ++ b)) as (s' & Hrun & Hq' & Hcl' & Hd' & Hh' & Hf' & Hc' & Hcl2 & Hx & Hw & Hm);
    cbn; try done.
  - by rewrite Hh1, Hf1.
  - by apply append_active_lookup.
  - exists s'. split; [|rewrite <- app_assoc in Hd'; cbn in *; rewrite Hh', Hh1, Hf', Hf1, Hm, append_active_mgr; done].
    apply (lstar_step _ _ _ s1); [|done]. apply as_close_drain.
    unfold close_drain. rewrite Hcl, Hq. by rewrite (on_fs_Write_active _ _ i Hh).
Qed.

(** C8: [Close] racing with the consumer loses data and leaks the
    goroutine: when the consumer has received the first queued slice but
    not yet written it, [Close] drains the rest of the queue, closes the
    file and returns [nil]; the consumer's write then fails on the closed
    file and it blocks on [errChan].  The file holds the later slices and
    not the first one. *)
Theorem close_race_drops (s : astate) (b1 : bytes) (q : list bytes) (i : nat) (d : bytes) :
  queue s = b1 :: q -> cons s = CSelect -> closed s = false -> clo s = NoClose ->
  FS.handles (wfs (aw s)) !! file (aw s) = Some i -> FS.inodes (wfs (aw s)) !! i = Some d ->
  exists s', lstar astep s ([LTau; LTau; LTau] ++ replicate (length q) LTau ++ [LTau; LClose (Ok tt); LTau; LTau]) s' /\
    cons s' = CBlocked ErrFileClosed b1 /\ closed s' = true /\
    FS.inodes (wfs (aw s')) !! i = Some (d ++ concat q).
Proof.
  intros Hq Hc Hcl Hno Hh Hd.
  set (s3 := mkA (aw s) q (pool s) true true (CHolding b1) (chunkers s) Draining (writers s)).
  assert (H3 : lstar astep s [LTau; LTau; LTau] s3).
  { eapply lstar_step; [apply as_recv; unfold consumer_recv; rewrite Hc, Hq; reflexivity|].
    eapply lstar_step; [apply as_close_call; unfold close_cas; cbn; rewrite Hcl; reflexivity|].
    eapply lstar_step; [apply as_close_ctx; reflexivity|]. constructor. }
  destruct (close_drain_all q s3 i d) as (s4 & H4 & Hq4 & Hcl4 & Hd4 & Hh4 & Hf4 & Hc4 & Hcd4 & _); try done.
  set (s5 := set_clo Finishing s4).
  set (s6 := set_clo Finished (set_aw (set_fs (FS.set_handles (delete (file (aw s4)) (FS.handles (wfs (aw s4))))
                                                  (wfs (aw s4))) (aw s4)) s5)).
  set (s7 := set_cons (CLoaded (file (aw s6)) b1) s6).
  exists (set_cons (CBlocked ErrFileClosed b1) s7). split_and!; try done.
  apply (lstar_app _ _ _ _ _ _ H3). apply (lstar_app _ _ _ _ _ _ H4).
  eapply lstar_step; [apply as_close_drain; unfold close_drain; rewrite Hcl4, Hq4; reflexivity|].
  eapply lstar_step.
  { apply as_close_finish. unfold close_finish. cbn [clo s5 set_clo]. unfold on_fs.
    rewrite (FS.Close_ok _ _ i) by (cbn; rewrite Hh4, Hf4; exact Hh). reflexivity. }
  eapply (lstar_step _ _ _ s7); [apply as_cload; unfold consumer_load; cbn; by rewrite Hc4|].
  apply lstar_one, as_cwrite. unfold consumer_write. cbn.
  unfold on_fs, FS.Write. cbn. rewrite lookup_delete_eq. reflexivity.
Qed.

(** C19: after [Close], a consumer blocked on its error send stays blocked
    whatever the other goroutines do, once no [Write] that found [closed]
    clear is still before its [select]: the goroutine [w.writer()] leaks. *)
Theorem blocked_after_close (s : astate) (ls : list label) (s' : astate) (e : goerr) (b : bytes) :
  closed s = true -> cons s = CBlocked e b -> checked_free (writers s) ->
  lstar astep s ls s' -> cons s' = CBlocked e b.
Proof.
  intros Hc Hb Hw Hs.
  refine (proj1 (proj2 (lstar_invariant _
    (fun x => closed x = true /\ cons x = CBlocked e b /\ checked_free (writers x)) _ _ _ _ Hs _)));
    [|done]. intros x l y (Hx1 & Hx2 & Hx3). by apply astep_blocked.
Qed.

Lemma fire_label_write (b : bytes) (r : result (option Z)) (b' : bytes) (n : Z) :
  fire_label b r = LWrite b' (Ok n) -> r = Ok (Some n) /\ b' = b.
Proof. destruct r as [[]|]; cbn; intros; by simplify_eq. Qed.

(** A [fire] case that returns at once did so on empty bytes. *)
Lemma write_fire_ret (b : bytes) (s s' : astate) (n : Z) :
  write_fire b s = Some (s', Ok (Some n)) -> n = 0%Z /\ b = [].
Proof. unfold write_fire. repeat case_match; intros; by simplify_eq/=. Qed.

(** A [Write] that returns without error reports [len(b)] bytes. *)
Lemma astep_write_len (s : astate) (b : bytes) (s' : astate) (n : Z) :
  astep s (LWrite b (Ok n)) s' -> n = Z.of_nat (length b).
Proof.
  intros Hs. inversion Hs; subst; try done;
    try match goal with H : fire_label _ _ = _ |- _ => apply fire_label_write in H as [-> ->] end;
    match goal with Hf : write_fire _ _ = Some (_, Ok (Some _)) |- _ =>
      by destruct (write_fire_ret _ _ _ _ Hf) as [-> ->] end.
Qed.

(** A [Write] that starts after [Close], when no other call is inside
    [Write], returns [ErrClosed] and changes nothing. *)
Theorem Write_after_Close (s : astate) (b : bytes) (r : result Z) (s' : astate) :
  closed s = true -> writers s = [] -> astep s (LWrite b r) s' -> r = Err ErrClosed /\ s' = s.
Proof.
  intros Hc Hw Hs. inversion Hs; subst; try congruence; try done;
    match goal with H : writers s !! _ = _ |- _ => by rewrite Hw, lookup_nil in H end.
Qed.

Lemma recv_fire_none (m : manager) : fire m = [] -> recv_fire m = None.
Proof. unfold recv_fire. by intros ->. Qed.

(** C6: refinement: while no rotation or [Close] is under way, every step
    of the asynchronous writer, seen through [aflushed] (its pending bytes
    written out), is a step of the plain writer: a [Write] returns what the
    plain [Write] returns and leaves the state it leaves; every other step
    (a consumer step, the start of [Close], a background task) changes
    nothing, or is a step of the manager. *)
Theorem astep_refines (s : astate) (l : label) (s' : astate) :
  quiet s -> astep s l s' ->
  match l with
  | LWrite b r => (aflushed s', r) = Writer.Write b (aflushed s)
  | _ => aflushed s' = aflushed s \/ wstep (aflushed s) (aflushed s')
  end.
Proof.
  intros (Hc & Hx & Hcl & Hch & Hws & Hb & HL & Hf & Hbg & [i Hh]) Hs.
  assert (Hfn : forall b, write_fire b s = None) by (intros b; unfold write_fire; by rewrite recv_fire_none).
  destruct (append_active_handles (aw s) (pending s)) as [Hh1 Hf1].
  destruct Hs as [b ?|b e s0 ? He|b e s0 ? Hw|b n s0 ? Hw|b s0 ? Hw|b|b ?|k b e s0 Hk ?|k b r s0 Hk ?
                 |k b Hk ???|k b Hk ???|k b Hk ?|k s0 Hk|k n s0 Hk|s0 Hr|s0 Hr
                 |s0 Hr|s0 Hr|s0 r Hr|s0 Hr|s0 Hr|s0 r Hr| |m' Hm|s0 Hr]; try congruence;
    try (rewrite Hws, lookup_nil in Hk; discriminate).
  - unfold write_err in He. destruct (cons s) eqn:E; try done. by destruct (Hb e0 b0).
  - unfold aflushed. rewrite (Write_idle _ _ i), append_active_app; try by rewrite ?append_active_mgr.
    2: by rewrite Hh1, Hf1.
    f_equal. unfold pending. cbn [queue write_default set_qp cons]. rewrite concat_app. cbn [concat]. by rewrite app_nil_r, app_assoc.
  - by left.
  - unfold chunk_step in Hk. by rewrite Hch, lookup_nil in Hk.
  - unfold chunk_step in Hk. by rewrite Hch, lookup_nil in Hk.
  - left. unfold consumer_recv in Hr. destruct (cons s) eqn:E; try done.
    destruct (queue s) as [|b q] eqn:Eq; [done|]. injection Hr as <-.
    unfold aflushed, pending. cbn. by rewrite E, Eq.
  - left. unfold consumer_write in Hr. destruct (cons s) eqn:E; try done.
    rewrite (HL _ _ eq_refl), (on_fs_Write_active _ _ i Hh) in Hr. injection Hr as <-.
    unfold aflushed, pending. cbn. by rewrite E, append_active_app.
  - unfold consumer_exit in Hr. rewrite Hx in Hr. by destruct (cons s).
  - left. unfold close_cas in Hr. rewrite Hc in Hr. injection Hr as <-. by destruct s.
  - unfold close_cas in Hr. by rewrite Hc in Hr.
  - unfold close_ctx in Hr. by rewrite Hcl in Hr.
  - unfold close_drain in Hr. by rewrite Hcl in Hr.
  - unfold close_finish in Hr. by rewrite Hcl in Hr.
  - left. unfold run_bg. rewrite Hbg. by destruct s.
  - right. unfold aflushed. cbn [aw set_aw]. rewrite append_active_set_mgr.
    unfold pending. cbn. apply ws_mgr. by rewrite append_active_cf, append_active_mgr.
  - left. unfold consumer_load in Hr. destruct (cons s) eqn:E; try done. injection Hr as <-.
    unfold aflushed, pending. cbn. by rewrite E.
Qed.

(** C17: a rotation moves bytes already accepted into the new segment:
    a slice queued by a [Write] that has returned, still in the queue when
    the next [Write] rotates, is written by the consumer through the new
    handle: the historical file keeps the old segment without it, and the
    new active file starts with it. *)
Theorem rotation_misplaces_queued (s : astate) (q1 b : bytes) (n : string) (rest : list string)
    (i : nat) (d : bytes) :
  queue s = [q1] -> cons s = CSelect -> closed s = false -> b <> [] ->
  fire (mgr (aw s)) = n :: rest -> FS.fs_wf (wfs (aw s)) ->
  FS.dir (wfs (aw s)) !! absPath (aw s) = Some i -> FS.inodes (wfs (aw s)) !! i = Some d ->
  absPath (aw s) ∉ FS.denied (wfs (aw s)) -> n ∉ FS.denied (wfs (aw s)) -> n <> absPath (aw s) ->
  exists s', lstar astep s [LWriteEnter b; LTau; LTau; LTau] s' /\
    FS.contents (wfs (aw s')) n = Some d /\ FS.contents (wfs (aw s')) (absPath (aw s')) = Some q1.
Proof.
  intros Hq Hc Hcl Hb Hfire (Hd & _ & _) Hp Hseg Hpd Hnd Hne.
  assert (Hik : i <> FS.next_id (wfs (aw s))) by (pose proof (proj2 (Hd _ _ Hp)); lia).
  set (w1 := reopened (set_mgr (set_fire rest (mgr (aw s))) (aw s)) n i).
  set (s1 := mkA w1 [q1] (pool s) false (ctx_closed s) CSelect
                 (chunkers s ++ [mkChunker (Z.of_nat (length b)) b None]) (clo s) (writers s)).
  assert (H1 : astep s (LWriteEnter b) s1).
  { apply as_write_fire_loop; [done|]. unfold write_fire, recv_fire. rewrite Hfire.
    rewrite (Reopen_ok (set_mgr (set_fire rest (mgr (aw s))) (aw s)) n i Hp Hnd Hpd Hne). destruct b; [done|]. unfold s1. by rewrite Hq, Hc, Hcl. }
  set (s2 := set_cons (CHolding q1) (set_qp [] (pool s1) s1)).
  set (s3 := set_cons (CLoaded (file w1) q1) s2).
  exists (set_cons CSelect (set_qp [] (pool_put q1 (pool s3)) (set_aw (append_active q1 w1) s3))).
  split.
  - apply (lstar_step _ _ _ _ _ _ H1). apply (lstar_step _ _ _ s2); [by apply as_recv|].
    apply (lstar_step _ _ _ s3); [by apply as_cload|].
    apply lstar_one, as_cwrite. unfold consumer_write. cbn [cons s3 set_cons].
    rewrite (on_fs_Write_active _ _ (FS.next_id (wfs (aw s)))); [done|]. cbn. apply lookup_insert_eq.
  - unfold append_active, FS.contents. cbn. simplify_map_eq/=. split; [done|]. by simplify_map_eq/=.
Qed.

Lemma retain_off (n : string) (w : world) : (MaxRemain (cf w) <= 0)%Z -> retain n w = (w, Ok tt).
Proof. intros Hm. unfold retain. by rewrite (proj2 (Z.ltb_ge _ _) Hm). Qed.

(** The goroutine of [Reopen] without compression and retention only
    runs its deferred [oldfile.Close()]. *)
Lemma run_bg_close (w : world) (t : bgtask) (rest : list bgtask) (j : nat) :
  bg w = t :: rest -> Compress (cf w) = false -> (MaxRemain (cf w) <= 0)%Z ->
  FS.handles (wfs w) !! oldfile t = Some j ->
  fst (run_bg w) = mkWorld (FS.set_handles (delete (oldfile t) (FS.handles (wfs w))) (wfs w))
                           (mgr w) (file w) (absPath w) (cf w) (rq w) rest (logs w).
Proof.
  destruct w as [fs m f p c q bgs l]. cbn. intros -> Hc Hm Hh.
  cbv [run_bg bg_run st_bind st_get st_finally]. cbn -[retain]. rewrite Hc, retain_off by exact Hm.
  unfold on_fs. cbn. by rewrite (FS.Close_ok _ _ j Hh).
Qed.

(** C10: the consumer loads [w.file] with no lock against [Reopen]: when
    it has received a slice and loaded the handle, a [Write] that takes
    [fire] swaps in a new file and starts the goroutine whose deferred
    [Close] closes the loaded handle (no compression, no retention: the
    default configuration); the consumer's write then fails and it blocks
    on [errChan] before any [Close].  The next [Write] receives that error
    and returns it without queuing its own bytes, and the slice is in
    neither file nor pending: it is lost. *)
Theorem stale_handle_error_stolen (s : astate) (q1 b2 : bytes) (n : string) (i : nat) (d : bytes) :
  queue s = [q1] -> cons s = CSelect -> closed s = false -> clo s = NoClose ->
  fire (mgr (aw s)) = [n] -> bg (aw s) = [] -> Compress (cf (aw s)) = false ->
  (MaxRemain (cf (aw s)) <= 0)%Z -> FS.fs_wf (wfs (aw s)) ->
  FS.dir (wfs (aw s)) !! absPath (aw s) = Some i -> FS.handles (wfs (aw s)) !! file (aw s) = Some i ->
  FS.inodes (wfs (aw s)) !! i = Some d ->
  absPath (aw s) ∉ FS.denied (wfs (aw s)) -> n ∉ FS.denied (wfs (aw s)) -> n <> absPath (aw s) ->
  exists s', lstar astep s [LTau; LTau; LWrite [] (Ok 0%Z); LTau; LTau; LWrite b2 (Err ErrFileClosed)] s' /\
    closed s' = false /\ clo s' = NoClose /\ pending s' = [] /\
    FS.contents (wfs (aw s')) n = Some d /\ FS.contents (wfs (aw s')) (absPath (aw s')) = Some [].
Proof.
  intros Hq Hc Hcl Hno Hf Hbg Hcomp Hmr (Hd & _ & _ & Hk) Hp Hh Hi Hpd Hnd Hne.
  assert (Hik : i <> FS.next_id (wfs (aw s))) by (pose proof (proj2 (Hd _ _ Hp)); lia).
  pose proof (Hk _ _ Hh) as Hlt. cbn in Hlt.
  set (w1 := reopened (set_mgr (set_fire [] (mgr (aw s))) (aw s)) n i).
  set (s2 := set_cons (CLoaded (file (aw s)) q1) (set_cons (CHolding q1) (set_qp [] (pool s) s))).
  set (s3 := set_aw w1 s2).
  assert (Hbg1 : bg w1 = [mkTask (file (aw s)) n]) by (cbn; by rewrite Hbg).
  assert (Hr : fst (run_bg w1) =
                 mkWorld (FS.set_handles (delete (file (aw s)) (FS.handles (wfs w1))) (wfs w1))
                         (mgr w1) (file w1) (absPath w1) (cf w1) (rq w1) [] (logs w1)).
  { apply (run_bg_close _ _ _ i Hbg1); [done|done|]. cbn. rewrite lookup_insert_ne; [done|lia]. }
  eexists. split.
  { eapply lstar_step; [apply as_recv; unfold consumer_recv; rewrite Hc, Hq; reflexivity|].
    eapply (lstar_step _ _ _ s2); [apply as_cload; reflexivity|].
    eapply (lstar_step _ _ _ s3).
    { apply as_write_fire_ret; [done|]. unfold write_fire, recv_fire. change (aw s2) with (aw s). rewrite Hf.
      by rewrite (Reopen_ok (set_mgr (set_fire [] (mgr (aw s))) (aw s)) n i Hp Hnd Hpd Hne). }
    eapply lstar_step; [apply as_bg|].
    eapply lstar_step.
    { apply as_cwrite. unfold consumer_write. change (aw (set_aw (fst (run_bg (aw s3))) s3)) with (fst (run_bg w1)).
      change (cons (set_aw (fst (run_bg (aw s3))) s3)) with (CLoaded (file (aw s)) q1). rewrite Hr.
      unfold on_fs, FS.Write. cbn. rewrite lookup_delete_eq. reflexivity. }
    apply lstar_one, as_write_err; [exact Hcl | reflexivity]. }
  cbn. split_and!; try done; unfold FS.contents; cbn.
  - rewrite lookup_insert_ne by congruence. rewrite lookup_insert_eq. cbn.
    rewrite lookup_insert_ne by congruence. exact Hi.
  - rewrite lookup_insert_eq. cbn. apply lookup_insert_eq.
Qed.

(** Once [Close] has returned and the consumer has returned on [ctx],
    nothing takes a slice out of the queue: every step keeps the queue as
    a prefix. *)
Lemma astep_stuck (s : astate) (l : label) (s' : astate) :
  closed s = true -> cons s = CReturned -> clo s = Finished -> astep s l s' ->
  closed s' = true /\ cons s' = CReturned /\ clo s' = Finished /\ exists q, queue s' = queue s ++ q.
Proof.
  intros Hc Hr Hf Hs.
  destruct Hs; try congruence;
    unfold write_err, write_fire, chunk_step, consumer_recv, consumer_load, consumer_write, consumer_exit,
      close_cas, close_ctx, close_drain, close_finish in *; rewrite ?Hc, ?Hr, ?Hf in *;
    repeat case_match; simplify_eq/=; split_and!; try done;
    first [exists []; by rewrite app_nil_r | by eexists].
Qed.

Lemma lstar_stuck (s : astate) (ls : list label) (s' : astate) (b : bytes) (q : list bytes) :
  closed s = true -> cons s = CReturned -> clo s = Finished -> queue s = b :: q ->
  lstar astep s ls s' -> exists q', queue s' = b :: q'.
Proof.
  intros Hc Hr Hf Hq Hs.
  refine (proj2 (proj2 (proj2 (lstar_invariant _
    (fun x => closed x = true /\ cons x = CReturned /\ clo x = Finished /\ exists q', queue x = b :: q')
    _ _ _ _ Hs _))));
    [|by eauto]. intros x l y (Hx1 & Hx2 & Hx3 & q1 & Hq1) Hxy.
  destruct (astep_stuck x l y Hx1 Hx2 Hx3 Hxy) as (? & ? & ? & q2 & Hq2).
  split_and!; try done. exists (q1 ++ q2). by rewrite Hq2, Hq1.
Qed.

(** C9: a [Write] that loads [closed] before [Close] sets it can take
    its [select] after [Close] has drained the queue, closed the file and
    returned [nil], and after the consumer has returned on [ctx]: its
    [default] branch queues its bytes and returns [len(b)] without error,
    the file holds only what was queued before, and the bytes stay in the
    queue in every later state: they are never written. *)
Theorem checked_write_lost (s : astate) (b : bytes) (q : list bytes) (i : nat) (d : bytes) :
  queue s = q -> cons s = CSelect -> closed s = false -> clo s = NoClose -> writers s = [] ->
  fire (mgr (aw s)) = [] ->
  FS.handles (wfs (aw s)) !! file (aw s) = Some i -> FS.inodes (wfs (aw s)) !! i = Some d ->
  exists s', lstar astep s ([LWriteCheck b; LTau; LTau] ++ replicate (length q) LTau ++
                            [LTau; LClose (Ok tt); LTau; LWrite b (Ok (Z.of_nat (length b)))]) s' /\
    FS.inodes (wfs (aw s')) !! i = Some (d ++ concat q) /\
    forall ls s'', lstar astep s' ls s'' -> exists q', queue s'' = b :: q'.
Proof.
  intros Hq Hc Hcl Hno Hws Hf Hh Hd.
  set (s3 := mkA (aw s) q (pool s) true true CSelect (chunkers s) Draining [WChecked b]).
  assert (H3 : lstar astep s [LWriteCheck b; LTau; LTau] s3).
  { eapply lstar_step; [by apply as_write_check|].
    eapply lstar_step; [apply as_close_call; unfold close_cas; cbn; rewrite Hcl; reflexivity|].
    apply lstar_one, as_close_ctx. unfold close_ctx, s3. cbn. by rewrite Hq, Hc, Hws. }
  destruct (close_drain_all q s3 i d) as (s4 & H4 & Hq4 & Hcl4 & Hd4 & Hh4 & Hf4 & Hc4 & Hcl' & Hx4 & Hw4 & Hm4);
    try done.
  set (s5 := set_clo Finishing s4).
  set (s6 := set_cons CReturned (set_clo Finished
               (set_aw (set_fs (FS.set_handles (delete (file (aw s4)) (FS.handles (wfs (aw s4))))
                                 (wfs (aw s4))) (aw s4)) s5))).
  assert (Hfire : write_fire b s6 = None).
  { unfold write_fire. cbn. rewrite Hm4. unfold s3. cbn. by rewrite (recv_fire_none _ Hf). }
  exists (write_default b (set_writers (delete 0 (writers s6)) s6)). split_and!.
  - apply (lstar_app _ _ _ _ _ _ H3), (lstar_app _ _ _ _ _ _ H4).
    eapply lstar_step; [apply as_close_drain; unfold close_drain; rewrite Hcl4, Hq4; reflexivity|].
    eapply lstar_step.
    { apply as_close_finish. unfold close_finish. cbn [clo s5 set_clo]. unfold on_fs.
      rewrite (FS.Close_ok _ _ i) by (cbn; rewrite Hh4, Hf4; exact Hh). reflexivity. }
    eapply (lstar_step _ _ _ s6); [apply as_cexit; unfold consumer_exit; cbn; by rewrite Hc4, Hx4|].
    apply lstar_one, (as_sel_default _ 0); [cbn; by rewrite Hw4 | done | done |].
    unfold queue_full. cbn. by rewrite Hq4.
  - done.
  - intros ls s'' Hs. apply (lstar_stuck _ _ _ b [] ) in Hs; [done|..]; cbn; by rewrite ?Hcl', ?Hq4.
Qed.

End Races.
Section Invariant.
Context `{Env} `{Gzip}.

Lemma writer_inv_set_mgr (m : manager) (w : world) : writer_inv (set_mgr m w) <-> writer_inv w.
Proof. by destruct w. Qed.

(** A write through the handle of a writer satisfying its invariant
    succeeds and keeps the invariant. *)
Lemma inv_write (w : world) (b : bytes) :
  writer_inv w ->
  on_fs (FS.Write (file w) b) w = (append_active b w, Ok (Z.of_nat (length b))) /\
  writer_inv (append_active b w).
Proof.
  intros Hw. pose proof Hw as (Hwf & [i Hh] & Hbg). rewrite (on_fs_Write_active _ _ i Hh).
  split; [done|].
  change (append_active b w) with (fst (append_active b w, Ok (Z.of_nat (length b)))).
  rewrite <- (on_fs_Write_active _ _ i Hh). apply on_fs_preserves; [|done].
  apply keeps_frame. intros. apply FS.Write_keeps.
Qed.

(** A [select] may take [fire] after [Close] has closed the file (see
    [as_sel_fire]); the writer's invariant is then not needed. *)
Lemma write_fire_inv (b : bytes) (s s' : astate) (r : result (option Z)) :
  async_inv s -> write_fire b s = Some (s', r) -> async_inv s'.
Proof.
  intros (Hw & Hq & Hcl & Hctx & Hret) Hf. unfold write_fire in Hf.
  destruct (recv_fire _) as [[n m']|]; [|done].
  pose proof (fun Hfin => Reopen_preserves n (set_mgr m' (aw s))
                (proj2 (writer_inv_set_mgr _ _) (Hw Hfin))) as HR.
  destruct (Reopen n _) as [w' [[]|e]]; [destruct b|]; injection Hf as <- <-;
    unfold async_inv; cbn; split_and!; done.
Qed.

Lemma async_inv_set_writers (ws : list wcall) (s : astate) :
  async_inv s -> async_inv (set_writers ws s).
Proof. by destruct s. Qed.

Lemma chunk_step_inv (k : nat) (s s' : astate) (r : option Z) :
  async_inv s -> chunk_step k s = Some (s', r) -> async_inv s'.
Proof.
  intros (Hw & Hq & Hcl & Hctx & Hret) Hk. unfold chunk_step in Hk.
  destruct (chunkers s !! k) as [c|]; [|done]. destruct (held c) as [ch|].
  - destruct (queue_full s) eqn:Ef; [done|]. apply Nat.leb_gt in Ef.
    injection Hk as <- <-. unfold async_inv; cbn. rewrite length_app. cbn. split_and!; done || lia.
  - destruct (rest c); [|destruct (chunk_once _ _) as [[ch r'] p']];
      injection Hk as <- <-; unfold async_inv; cbn; split_and!; done.
Qed.

(** A write through any handle, open or not, keeps the writer's
    invariant. *)
Lemma inv_write_any (w : world) (h : FS.handle) (b : bytes) :
  writer_inv w -> writer_inv (fst (on_fs (FS.Write h b) w)).
Proof. intros Hw. apply on_fs_preserves; [|done]. apply keeps_frame. intros. apply FS.Write_keeps. Qed.

(** The obligations left once a step has been computed. *)
Local Ltac inv_tac :=
  unfold async_inv; cbn [aw queue pool closed ctx_closed cons chunkers clo set_aw set_qp set_cons
                          set_clo set_writers write_default];
  split_and!; intros;
  try first [done | congruence | lia
            | match goal with Hw : _ -> writer_inv ?w |- writer_inv ?w => by apply Hw end
            | match goal with Hx : _ -> ?g |- ?g => by apply Hx end
            | match goal with Hcl : closed ?s = false <-> _ |- closed ?s = true =>
                pose proof (proj1 Hcl) as Hc1; destruct (closed s); [done|];
                specialize (Hc1 eq_refl); congruence end
            | match goal with Hcl : closed ?s = false <-> _ |- closed ?s = false <-> _ =>
                split; intros Hx; [apply Hcl in Hx|]; congruence end].

Lemma astep_inv (s : astate) (l : label) (s' : astate) :
  async_inv s -> astep s l s' -> async_inv s'.
Proof.
  intros Hi Hs. pose proof Hi as (Hw & Hq & Hcl & Hctx & Hret).
  destruct Hs as [b ?|b e s0 ? He|b e s0 ? Hf|b n s0 ? Hf|b s0 ? Hf|b ? ? ? Hfull|b ?|k b e s0 ? He
                 |k b r s0 ? Hf|k b ? ? ? Hfull|k b ? ? ? ?|k b ? Hfull|k s0 Hk|k n s0 Hk
                 |s0 Hr|s0 Hr|s0 Hr|s0 Hr|s0 r Hr|s0 Hr|s0 Hr|s0 r Hr| |m' Hm|s0 Hr];
    try solve [done | eapply write_fire_inv; eauto | eapply chunk_step_inv; eauto
              | apply async_inv_set_writers; eapply write_fire_inv; eauto
              | apply async_inv_set_writers; done].
  - unfold write_err in He. destruct (cons s) eqn:E; try done. injection He as <- <-. inv_tac.
  - apply Nat.leb_gt in Hfull. inv_tac. rewrite length_app. cbn. lia.
  - unfold write_err in He. destruct (cons s) eqn:E; try done. injection He as <- <-. inv_tac.
  - first [inv_tac; fail | apply Nat.leb_gt in Hfull; inv_tac; rewrite length_app; cbn; lia].
  - first [inv_tac; fail | apply Nat.leb_gt in Hfull; inv_tac; rewrite length_app; cbn; lia].
  - unfold consumer_recv in Hr. destruct (cons s), (queue s) eqn:Eq; try done. injection Hr as <-.
    inv_tac. cbn in Hq. lia.
  - unfold consumer_write in Hr. destruct (cons s) as [| |h b| |] eqn:E; try done.
    pose proof (fun Hfin => inv_write_any (aw s) h b (Hw Hfin)) as Hw'.
    destruct (on_fs _ _) as [w' r'] eqn:Ew. cbn in Hw'.
    destruct r'; injection Hr as <-; inv_tac.
  - unfold consumer_exit in Hr. destruct (cons s); try done. destruct (ctx_closed s) eqn:E; [|done].
    injection Hr as <-. inv_tac.
  - unfold close_cas in Hr. destruct (closed s) eqn:E; [done|]. injection Hr as <-.
    assert (clo s = NoClose) as Hno by (by apply Hcl). inv_tac. apply Hw. by rewrite Hno.
  - unfold close_cas in Hr. destruct (closed s); by injection Hr as <-.
  - unfold close_ctx in Hr. destruct (clo s) eqn:E; try done. injection Hr as <-. inv_tac.
  - unfold close_drain in Hr. destruct (clo s) eqn:E; try done.
    destruct (queue s) as [|b q] eqn:Eq; [injection Hr as <-; inv_tac|].
    destruct (inv_write (aw s) b (Hw ltac:(done))) as [Ew Hw']. rewrite Ew in Hr.
    injection Hr as <-. cbn in Hq. inv_tac.
  - unfold close_finish in Hr. destruct (clo s) eqn:E; try done. destruct (on_fs _ _) as [w' r'].
    injection Hr as <- <-. inv_tac.
  - inv_tac; first [by apply run_bg_preserves, Hw | by apply writer_inv_set_mgr, Hw].
  - unfold consumer_load in Hr. destruct (cons s); try done. injection Hr as <-. inv_tac.
Qed.


Lemma async_start_inv (w : world) : writer_inv w -> async_inv (async_start w).
Proof. intros Hw. unfold async_inv; cbn. split_and!; try done; lia. Qed.

End Invariant.
End Async.

(** * Witnesses on concrete states *)
Module AsyncWitness.
Import Config Manager Writer Async.

Definition cfga : Config := WithAsynchronous NewDefaultConfig.

(** "./log/log.log" holds [a], bound to handle 1. *)
Definition fsa : FS.fs := FS.mkFS {["log/log.log" := 0]} {[0 := [Byte.x61]]} {[1 := 0]} 2 ∅.
Definition mgr_idle : manager := mkManager 0 0 [] false false true.
Definition mgr_rot : manager := mkManager 0 0 ["log/log.log.1"] false false true.
Definition wa : world := mkWorld fsa mgr_idle 1 "log/log.log" cfga [] [] [].
Definition wa_rot : world := mkWorld fsa mgr_rot 1 "log/log.log" cfga [] [] [].

(** One slice [b] queued, nothing else under way. *)
Definition a_idle : astate := mkA wa [[Byte.x62]] [] false false CSelect [] NoClose [].

Lemma chunk_loop_terminates_witness :
  Forall (fun L => 0 < L)%Z [2%Z] /\ is_Some (chunk_loop 3 [2%Z] [Byte.x61; Byte.x62; Byte.x63]).
Proof. split; [by_decide|]. apply chunk_loop_terminates; [by_decide|cbn; lia]. Defined.

Lemma chunk_loop_concat_witness :
  concat [[Byte.x61; Byte.x62]; [Byte.x63]] = [Byte.x61; Byte.x62; Byte.x63].
Proof. apply (chunk_loop_concat 3 [2%Z] _ _ []). vm_compute. reflexivity. Defined.

(** A call of one byte in its loop, when the pool holds an empty slice. *)
Definition a_zero : astate :=
  mkA wa [] [0%Z] false false CSelect [mkChunker 1 [Byte.x63] None] NoClose [].

Lemma zero_slice_livelock_witness :
  lstar astep a_zero (concat (replicate 2 [LTau; LTau; LTau; LTau; LTau])) a_zero.
Proof.
  apply (zero_slice_livelock a_zero (mkChunker 1 [Byte.x63] None) [] 0 [Byte.x61] 2);
    first [reflexivity | discriminate].
Defined.

(** Two slices queued: [b], then [c]. *)
Definition a_two : astate := mkA wa [[Byte.x62]; [Byte.x63]] [] false false CSelect [] NoClose [].

Lemma close_race_drops_witness :
  exists s', lstar astep a_two ([LTau; LTau; LTau] ++ replicate 1 LTau ++ [LTau; LClose (Ok tt); LTau; LTau]) s' /\
    cons s' = CBlocked ErrFileClosed [Byte.x62] /\ closed s' = true /\
    FS.inodes (wfs (aw s')) !! 0 = Some ([Byte.x61] ++ concat [[Byte.x63]]).
Proof.
  apply (close_race_drops a_two [Byte.x62] [[Byte.x63]] 0 [Byte.x61]);
    reflexivity.
Defined.

(** After [Close], with the consumer blocked. *)
Definition a_leak : astate :=
  mkA (set_fs (FS.set_handles ∅ fsa) wa) [] [] true true (CBlocked ErrFileClosed [Byte.x62]) [] Finished [].

Lemma blocked_after_close_witness : cons a_leak = CBlocked ErrFileClosed [Byte.x62].
Proof.
  apply (blocked_after_close a_leak [LWrite [Byte.x63] (Err ErrClosed); LClose (Err ErrClosed)] a_leak);
    [reflexivity | reflexivity | constructor |].
  apply (lstar_step _ _ _ a_leak); [by apply as_write_closed|].
  apply lstar_one. apply as_close_ret. reflexivity.
Defined.

Lemma Write_after_Close_witness : Err ErrClosed = Err (A:=Z) ErrClosed /\ a_leak = a_leak.
Proof. apply (Write_after_Close a_leak [Byte.x63]); [reflexivity | reflexivity | by apply as_write_closed]. Defined.

Lemma astep_refines_witness :
  (aflushed (write_default [Byte.x63] a_idle), Ok (Z.of_nat (length [Byte.x63]))) =
    Writer.Write [Byte.x63] (aflushed a_idle).
Proof.
  refine (astep_refines a_idle (LWrite [Byte.x63] (Ok (Z.of_nat (length [Byte.x63]))))
            (write_default [Byte.x63] a_idle) _ _).
  - split_and!; first [reflexivity | discriminate | (intros ?? Hl; discriminate Hl) | by eexists].
  - apply as_write_default; reflexivity.
Defined.


(** [b] queued and a name pending. *)
Definition a_rot : astate := mkA wa_rot [[Byte.x62]] [] false false CSelect [] NoClose [].

Lemma rotation_misplaces_queued_witness :
  exists s', lstar astep a_rot [LWriteEnter [Byte.x63]; LTau; LTau; LTau] s' /\
    FS.contents (wfs (aw s')) "log/log.log.1" = Some [Byte.x61] /\
    FS.contents (wfs (aw s')) (absPath (aw s')) = Some [Byte.x62].
Proof.
  apply (rotation_misplaces_queued a_rot [Byte.x62] [Byte.x63] "log/log.log.1" [] 0 [Byte.x61]);
    first [reflexivity | discriminate | by_decide].
Defined.

Lemma stale_handle_error_stolen_witness :
  exists s', lstar astep a_rot [LTau; LTau; LWrite [] (Ok 0%Z); LTau; LTau;
                               LWrite [Byte.x63] (Err ErrFileClosed)] s' /\
    closed s' = false /\ clo s' = NoClose /\ pending s' = [] /\
    FS.contents (wfs (aw s')) "log/log.log.1" = Some [Byte.x61] /\
    FS.contents (wfs (aw s')) (absPath (aw s')) = Some [].
Proof.
  apply (stale_handle_error_stolen a_rot [Byte.x62] [Byte.x63] "log/log.log.1" 0 [Byte.x61]);
    first [reflexivity | by_decide | (vm_compute; lia)].
Defined.

(** Two concurrent calls: a rotating [Write] of [abc] whose first pooled
    slice holds two bytes, and a [Write] of [x] that runs between its two
    chunks. *)
Definition a_int : astate := mkA wa_rot [] [2%Z] false false CSelect [] NoClose [].
Definition abc : bytes := [Byte.x61; Byte.x62; Byte.x63].
Definition chunk_next (s : astate) : astate := from_option fst a_int (chunk_step 0 s).
Definition i1 : astate := from_option fst a_int (write_fire abc a_int).
Definition i3 : astate := chunk_next (chunk_next i1).
Definition i4 : astate := write_default [Byte.x78] i3.
Definition i7 : astate := chunk_next (chunk_next (chunk_next i4)).
Definition drain_one (s : astate) : astate :=
  default s ((consumer_recv s ≫= consumer_load) ≫= consumer_write).
Definition i10 : astate := drain_one (drain_one (drain_one i7)).

Lemma drain_one_steps (s : astate) (s1 s2 s3 : astate) :
  consumer_recv s = Some s1 -> consumer_load s1 = Some s2 -> consumer_write s2 = Some s3 ->
  lstar astep s [LTau; LTau; LTau] s3.
Proof.
  intros H1 H2 H3. apply (lstar_step _ _ _ s1); [by apply as_recv|].
  apply (lstar_step _ _ _ s2); [by apply as_cload|]. by apply lstar_one, as_cwrite.
Qed.

(** C18: a [Write] on the rotation path is not atomic: its chunks are
    queued one by one, and a concurrent [Write] can queue its bytes in
    between, so the file holds [ab], then [x], then [c]. *)
Example chunked_write_interleaves :
  exists s', lstar astep a_int ([LWriteEnter abc; LTau; LTau; LWrite [Byte.x78] (Ok 1%Z); LTau; LTau;
                                 LReturn 3%Z] ++ replicate 9 LTau) s' /\
    FS.contents (wfs (aw s')) (absPath (aw s')) = Some [Byte.x61; Byte.x62; Byte.x78; Byte.x63].
Proof.
  exists i10. split; [|vm_compute; reflexivity].
  apply (lstar_app _ _ i7).
  - apply (lstar_step _ _ _ i1); [apply as_write_fire_loop; vm_compute; reflexivity|].
    apply (lstar_step _ _ _ (chunk_next i1)); [apply (as_chunk _ 0); vm_compute; reflexivity|].
    apply (lstar_step _ _ _ i3); [apply (as_chunk _ 0); vm_compute; reflexivity|].
    apply (lstar_step _ _ _ i4); [apply as_write_default; vm_compute; reflexivity|].
    apply (lstar_step _ _ _ (chunk_next i4)); [apply (as_chunk _ 0); vm_compute; reflexivity|].
    apply (lstar_step _ _ _ (chunk_next (chunk_next i4))); [apply (as_chunk _ 0); vm_compute; reflexivity|].
    apply lstar_one, (as_chunk_ret _ 0); vm_compute; reflexivity.
  - refine (lstar_app _ _ (drain_one i7) _ [LTau; LTau; LTau] (replicate 6 LTau) _ _);
      [eapply drain_one_steps; vm_compute; reflexivity|].
    refine (lstar_app _ _ (drain_one (drain_one i7)) _ [LTau; LTau; LTau] [LTau; LTau; LTau] _ _);
      eapply drain_one_steps; vm_compute; reflexivity.
Qed.

(** The world after the rotation of [a_int]. *)
Definition w_rot1 : world := fst (Reopen "log/log.log.1" (set_mgr (set_fire [] mgr_rot) wa_rot)).

Lemma rotating_write_alone_witness :
  exists cs s', lstar astep a_int (LWriteEnter abc :: concat (replicate (length cs) [LTau; LTau]) ++
                                   [LReturn (Z.of_nat (length abc))]) s' /\
    concat cs = abc /\ queue s' = queue a_int ++ cs /\ aw s' = w_rot1 /\ chunkers s' = [].
Proof.
  apply (rotating_write_alone a_int abc "log/log.log.1" [] w_rot1);
    first [reflexivity | discriminate | by_decide | (unfold QueueSize; cbn; lia) | vm_compute; reflexivity].
Defined.

Lemma checked_write_lost_witness :
  exists s', lstar astep a_idle ([LWriteCheck [Byte.x63]; LTau; LTau] ++ replicate 1 LTau ++
                                 [LTau; LClose (Ok tt); LTau; LWrite [Byte.x63] (Ok 1%Z)]) s' /\
    FS.inodes (wfs (aw s')) !! 0 = Some ([Byte.x61] ++ concat [[Byte.x62]]) /\
    forall ls s'', lstar astep s' ls s'' -> exists q', queue s'' = [Byte.x63] :: q'.
Proof. apply (checked_write_lost a_idle [Byte.x63] [[Byte.x62]] 0 [Byte.x61]); reflexivity. Defined.

End AsyncWitness.
