(* ===== verification/Constructor.v ===== *)
(** * Constructor: [NewWriterFromConfig] and [NewWriter] ([src/rollingwriter/writer.go])

    The constructor checks the two names, creates the log directory, opens
    the active file, starts the manager, and, when [MaxRemain] is positive,
    scans the directory for historical files of this logger, sorts them by
    their time tag and pushes them through the retention queue, deleting
    the oldest beyond [MaxRemain].  Only then does it look at [WriterMode].
    The [make] calls that Go rejects at run time (the channel
    [rollingfilech] past the allocation limit, the ["buffer"] mode's slice
    when twice [BufferWriterThreshold] wraps negative or is too large) are
    the error [Panic], after the effects done before them.
    The model is one function from the disk (and the clock) to the disk and
    the result; the log lines of evictions are kept in the writer's world.
    [start] is the writer value of each mode, [RollingWriterI] the [Write]
    half of the [RollingWriter] interface with an instance per writer
    type, and [NewWriterFromConfigFile] reads the configuration from a
    file through the decoder interface [Decoders]. *)

From S2P Require Import Prelude GoLib Config SizeParser FileSys Manager Retention Writer BufferWriter Async.

Module Constructor.
Import Config Manager Writer.

(** The four writer types of the [switch c.WriterMode]. *)
Inductive mode := ModeNone | ModeLock | ModeAsync | ModeBuffer.

#[export] Instance mode_eq_dec : EqDecision mode.
Proof. solve_decision. Defined.

(** The [RollingWriter] returned: its type and the [Writer] it embeds. *)
Record rolling_writer := mkRW { rw_mode : mode; rw_world : world }.

Section Constructor.
Context `{Env}.

(** [fileSuffix[1:]] where [fileSuffix := path.Ext(name)]. *)
Definition suffix_tag (name : string) : string :=
  let suf := Path.Ext name in String.substring 1 (String.length suf - 1) suf.

(** The test of the scan loop: the name contains [FileName + ".log"], has
    an extension of more than one byte, and the extension parses as a time
    in [TimeTagFormat]. *)
Definition is_history (c : Config) (name : string) : bool :=
  Strings.Contains name (FileName c +:+ ".log") &&
  (1 <? String.length (Path.Ext name))%nat &&
  bool_decide (is_Some (Parse (TimeTagFormat c) (suffix_tag name))).

(** [for _, fi := range dir { if fi.IsDir() { continue } ... }]. *)
Fixpoint scan (c : Config) (entries : list FS.dirent) : list string :=
  match entries with
  | [] => []
  | e :: rest =>
      if FS.de_isdir e then scan c rest
      else if is_history c (FS.de_name e) then FS.de_name e :: scan c rest
      else scan c rest
  end.

(** The key of the [sort.Slice] comparison; [time.Parse]'s error is
    ignored there, which gives the zero time.  [sort.Slice] is not stable
    and above 12 elements is a pattern-defeating quicksort, so the order
    it gives files with equal tags is unspecified; [sort_by_time] is its
    insertion sort (the algorithm up to 12 elements), and the theorems
    use only that the result is a permutation sorted by tag
    ([sort_by_time_spec]). *)
Definition time_of (c : Config) (name : string) : Z :=
  default 0%Z (Parse (TimeTagFormat c) (suffix_tag name)).

Definition sort_by_time (c : Config) (files : list string) : list string :=
  Sort.insertion_sort (fun a b => (time_of c a <? time_of c b)%Z) files.

(** The paths the constructor pushes into [rollingfilech], in order. *)
Definition history_paths (c : Config) (s : FS.fs) : list string :=
  map (fun f => Path.Join [LogPath c; f]) (sort_by_time c (scan c (FS.ReadDir (LogPath c) s))).

(** The [if c.MaxRemain > 0] block, on the writer just built. *)
Definition init_retention (w : world) : world :=
  let c := cf w in
  if (0 <? MaxRemain c)%Z then
    match Retention.enqueue_all (retention_cap c) (history_paths c (wfs w))
                                (Retention.mkRS [] (wfs w) (logs w)) with
    | Some rs => set_rq_fs_logs (Retention.items rs) (Retention.rfs rs) (Retention.rlog rs) w
    | None => w
    end
  else w.

(** [switch c.WriterMode]. *)
Definition mode_of (m : string) : option mode :=
  if String.eqb m "none" then Some ModeNone
  else if String.eqb m "lock" then Some ModeLock
  else if String.eqb m "async" then Some ModeAsync
  else if String.eqb m "buffer" then Some ModeBuffer
  else None.

(** [make(chan string, c.MaxRemain)] under [if c.MaxRemain > 0] does
    not panic (a [string] takes 16 bytes). *)
Definition rollingfilech_ok (c : Config) : bool :=
  negb (0 <? MaxRemain c)%Z || Runtime.makechan_ok 16 (MaxRemain c).

(** [make([]byte, 0, c.BufferWriterThreshold*2)] does not panic; the
    product wraps as an [int]. *)
Definition buffer_ok (c : Config) : bool :=
  Runtime.makeslice_ok (wrap64 (BufferWriterThreshold c * 2)).

(** [switch c.WriterMode] on the writer [w] built so far; the ["buffer"]
    case makes its buffer. *)
Definition mode_switch (c : Config) (w : world) : FS.fs * result rolling_writer :=
  match mode_of (WriterMode c) with
  | Some ModeBuffer =>
      if buffer_ok c then (wfs w, Ok (mkRW ModeBuffer w))
      else (wfs w, Err (Panic "makeslice: cap out of range"))
  | Some md => (wfs w, Ok (mkRW md w))
  | None => (wfs w, Err ErrInvalidArgument)
  end.

(** [ParseVolume] of the size policy does not panic on a bad slice. *)
Definition volume_ok (c : Config) : bool :=
  negb (RollingPolicy c =? VolumeRolling)%Z ||
  match SizeParser.ParseVolume (RollingVolumeSize c) with Err (Panic _) => false | _ => true end.

(** Nothing the constructor calls panics on [c]: [NewManager]'s
    [ParseVolume] and the two [make]s. *)
Definition panic_free (c : Config) : bool :=
  volume_ok c && rollingfilech_ok c && (negb (String.eqb (WriterMode c) "buffer") || buffer_ok c).

(** [NewWriterFromConfig(c)] at time [now] on disk [s]. *)
Definition NewWriterFromConfig (c : Config) (now : Z) (s : FS.fs) : FS.fs * result rolling_writer :=
  if String.eqb (LogPath c) "" || String.eqb (FileName c) "" then (s, Err ErrInvalidArgument)
  else
    let '(s, r) := FS.MkdirAll (LogPath c) s in
    match r with
    | Err e => (s, Err e)
    | Ok _ =>
        let filepath := LogFilePath c in
        let '(s, r) := FS.OpenFile filepath s in
        match r with
        | Err e => (s, Err e)
        | Ok file =>
            match NewManager c now with
            | Err e => (s, Err e)
            | Ok mng =>
                if negb (rollingfilech_ok c) then (s, Err (Panic "makechan: size out of range")) else
                mode_switch c (init_retention (mkWorld s mng file filepath c [] [] []))
            end
        end
    end.

(** [NewWriter(ops...)]: the options applied to the default configuration. *)
Definition NewWriter (ops : list Option) (now : Z) (s : FS.fs) : FS.fs * result rolling_writer :=
  NewWriterFromConfig (apply_options ops) now s.

(** The decoders [NewWriterFromConfigFile] calls: [json.Unmarshal] and
    [yaml.Unmarshal] into a [Config] that already holds the defaults (a
    field the input does not set keeps its value).  They are libraries;
    the class is their interface. *)
Class Decoders := {
  json_Unmarshal : bytes -> Config -> result Config;
  yaml_Unmarshal : bytes -> Config -> result Config
}.

(** [NewWriterFromConfigFile(path, typ)]: open the file, read it, decode
    it by [typ] over the defaults (another [typ] decodes nothing), and
    build the writer; the deferred [file.Close()] runs last. *)
Definition NewWriterFromConfigFile `{Decoders} (path typ : string) (now : Z) : st FS.fs rolling_writer :=
  file <- FS.Open path ;;
  st_finally
    (let cfg := NewDefaultConfig in
     buf <- FS.ReadAll file ;;
     cfg <- (if String.eqb typ "json" then st_lift (json_Unmarshal buf cfg)
             else if String.eqb typ "yaml" then st_lift (yaml_Unmarshal buf cfg)
             else st_ret cfg) ;;
     NewWriterFromConfig cfg now)
    (FS.Close file).

(** What the [switch c.WriterMode] stores in [rollingWriter]: the
    [Writer] itself, a [LockedWriter] around it, an [AsynchronousWriter]
    whose consumer goroutine has started, or a [BufferWriter] with an
    empty buffer. *)
Inductive running :=
| RNone (w : world)
| RLock (w : world)
| RAsync (a : Async.astate)
| RBuffer (b : BufferWriter.bwriter).

(** The [Write] half of the [RollingWriter] interface ([io.Writer]):
    from state [s], a call [Write(b)] can return [r] and leave [s'] (a
    relation, since the asynchronous writer's [select] is not
    deterministic), with [io.Writer]'s law that a call returning no error
    has written all of [b].  For the asynchronous writer the relation is a
    call that returns in the step of its [select]; a call on the rotation
    branch returns later, from its chunk loop ([Async.rotating_write_alone]
    gives its result). *)
Class RollingWriterI (S : Type) := {
  rw_write : S -> bytes -> S -> result Z -> Prop;
  rw_write_len : forall s b s' n, rw_write s b s' (Ok n) -> n = Z.of_nat (length b)
}.

#[export] Instance Writer_rw : RollingWriterI world :=
  {| rw_write w b w' r := Writer.Write b w = (w', r); rw_write_len := Writer.Write_len |}.
#[export] Instance BufferWriter_rw : RollingWriterI BufferWriter.bwriter :=
  {| rw_write s b s' r := BufferWriter.Write b s = (s', r); rw_write_len := BufferWriter.BWrite_len |}.
#[export] Instance Async_rw : RollingWriterI Async.astate :=
  {| rw_write s b s' r := Async.astep s (Async.LWrite b r) s'; rw_write_len := Async.astep_write_len |}.

Definition start (rw : rolling_writer) : running :=
  let w := rw_world rw in
  match rw_mode rw with
  | ModeNone => RNone w
  | ModeLock => RLock w
  | ModeAsync => RAsync (Async.async_start w)
  | ModeBuffer => RBuffer (BufferWriter.mkBW w [] false)
  end.

End Constructor.

Section ConstructorFacts.
Context `{Env}.

Lemma scan_mode (md : string) (c : Config) (l : list FS.dirent) :
  scan (set_WriterMode md c) l = scan c l.
Proof. induction l as [|e l IH]; [done|]. cbn. by rewrite IH. Qed.

Lemma history_paths_mode (md : string) (c : Config) (s : FS.fs) :
  history_paths (set_WriterMode md c) s = history_paths c s.
Proof. unfold history_paths. by rewrite scan_mode. Qed.

Lemma init_retention_mode (md : string) (s : FS.fs) (m : manager) (f : FS.handle) (p : string) (c : Config) :
  wfs (init_retention (mkWorld s m f p (set_WriterMode md c) [] [] [])) =
  wfs (init_retention (mkWorld s m f p c [] [] [])).
Proof.
  unfold init_retention. cbn [cf wfs logs].
  change (MaxRemain (set_WriterMode md c)) with (MaxRemain c).
  change (retention_cap (set_WriterMode md c)) with (retention_cap c).
  rewrite history_paths_mode.
  destruct (0 <? MaxRemain c)%Z; [|done].
  by destruct (Retention.enqueue_all _ _ _).
Qed.

Lemma NewManager_no_panic (c : Config) (now : Z) (m : string) :
  volume_ok c = true -> NewManager c now <> Err (Panic m).
Proof. unfold volume_ok, NewManager. repeat case_match; cbn; congruence. Qed.

(** The constructor panics only in a [make]: on a configuration where
    neither panics, every error it returns is an error value. *)
Lemma NewWriterFromConfig_no_panic (c : Config) (now : Z) (s : FS.fs) (m : string) :
  panic_free c = true -> snd (NewWriterFromConfig c now s) <> Err (Panic m).
Proof.
  intros Hp. apply andb_prop in Hp as [Hp Hb]. apply andb_prop in Hp as [Hv Hr].
  pose proof (NewManager_no_panic c now m Hv) as Hn.
  unfold NewWriterFromConfig, FS.MkdirAll, FS.OpenFile, FS.new_handle, mode_switch, mode_of in *.
  rewrite Hr. cbn [negb]. repeat case_match; simplify_eq/=; try done.
  all: intros [= ->]; by apply Hn.
Qed.

Lemma mode_switch_fs (c : Config) (w : world) : fst (mode_switch c w) = wfs w.
Proof. unfold mode_switch. by repeat case_match. Qed.

Lemma mode_switch_ok (c : Config) (w : world) (s' : FS.fs) (rw : rolling_writer) :
  mode_switch c w = (s', Ok rw) ->
  s' = wfs w /\ rw = mkRW (rw_mode rw) w /\ mode_of (WriterMode c) = Some (rw_mode rw).
Proof. unfold mode_switch. repeat case_match; intros; by simplify_eq/=. Qed.

Lemma NewWriterFromConfig_inv (c : Config) (now : Z) (s s' : FS.fs) (rw : rolling_writer) :
  FS.fs_wf s -> NewWriterFromConfig c now s = (s', Ok rw) -> writer_inv (rw_world rw).
Proof.
  intros Hwf Hrun. unfold NewWriterFromConfig in Hrun.
  destruct (_ || _); [discriminate|]. unfold FS.MkdirAll in Hrun.
  destruct (decide _); [discriminate|].
  pose proof (FS.OpenFile_spec (LogFilePath c) s Hwf) as Ho.
  destruct (FS.OpenFile _ s) as [s1 [f|e]]; [|discriminate].
  destruct Ho as (Hwf1 & _ & _ & Hf). destruct (Hf f eq_refl) as [_ Hopen].
  destruct (NewManager c now) as [m|e]; [|discriminate].
  destruct (rollingfilech_ok c); cbn [negb] in Hrun; [|discriminate].
  destruct (mode_switch_ok _ _ _ _ Hrun) as (_ & -> & _). cbn [rw_world].
  unfold init_retention. cbn [cf wfs logs].
  destruct (0 <? MaxRemain c)%Z eqn:Hpos; [|by split_and!].
  apply Z.ltb_lt in Hpos.
  destruct (Retention.enqueue_all_spec (retention_cap c) (history_paths c s1)
              (Retention.mkRS [] s1 [])) as (rs & E & _ & F);
    [unfold retention_cap; lia | cbn; lia |].
  rewrite E. cbn [Retention.items Retention.rfs app] in F.
  unfold writer_inv, set_rq_fs_logs; cbn [wfs file bg]. rewrite F.
  pose proof (remove_all_keeps (FS.handles s1) (FS.next_id s1)
                (firstn_over (retention_cap c) (history_paths c s1)) s1
                (conj Hwf1 (conj eq_refl eq_refl))) as (Hw2 & Hh2 & _).
  split_and!; [exact Hw2 | rewrite Hh2; exact Hopen | constructor].
Qed.

Lemma NewWriterFromConfig_mode (c : Config) (now : Z) (s s' : FS.fs) (rw : rolling_writer) :
  NewWriterFromConfig c now s = (s', Ok rw) -> mode_of (WriterMode c) = Some (rw_mode rw).
Proof.
  intros Hrun. unfold NewWriterFromConfig in Hrun.
  destruct (_ || _); [discriminate|]. destruct (FS.MkdirAll _ s) as [s0 [[]|e]]; [|discriminate].
  destruct (FS.OpenFile _ s0) as [s1 [f|e]]; [|discriminate].
  destruct (NewManager c now) as [m|e]; [|discriminate].
  destruct (rollingfilech_ok c); cbn [negb] in Hrun; [|discriminate].
  by destruct (mode_switch_ok _ _ _ _ Hrun) as (_ & _ & ->).
Qed.

(** C33: the startup scan takes as a historical file every name that
    contains [FileName + ".log"] and ends in ['.'] and a tag that parses
    in [TimeTagFormat], whatever precedes or follows: the names the
    manager produces ([FileName.log.TAG] and [FileName.log.gz.TAG]), and
    equally the files of another logger whose file name ends with this
    one's ([myapp.log.TAG] for [FileName = "app"]); its sort key is the
    parsed tag. *)
Theorem is_history_shape (c : Config) (pre mid tag : string) (t : Z) :
  Forall (fun b => b <> "."%char /\ b <> "/"%char) (list_ascii_of_string tag) -> tag <> EmptyString ->
  Parse (TimeTagFormat c) tag = Some t ->
  let name := pre +:+ FileName c +:+ ".log" +:+ mid +:+ String "." tag in
  is_history c name = true /\ time_of c name = t.
Proof.
  intros Hf Hne Hp name.
  assert (He : Path.Ext name = String "." tag).
  { unfold name. rewrite !string_app_assoc. apply Ext_tag, Hf. }
  assert (Hs : suffix_tag name = tag).
  { unfold suffix_tag. rewrite He. cbn [String.length String.substring].
    replace (S (String.length tag) - 1)%nat with (String.length tag) by lia. apply substring_full. }
  unfold is_history, time_of. rewrite Hs, He, Hp. split; [|done].
  apply andb_true_intro; split; [apply andb_true_intro; split|].
  - unfold name. apply Contains_app_r. rewrite string_app_assoc.
    apply Contains_prefix, prefix_app.
  - destruct tag; [done|]. apply Nat.ltb_lt. cbn. lia.
  - by apply bool_decide_eq_true.
Qed.

(** The [sort.Slice] of the startup scan orders the historical
    files by their time tag: the result is a permutation of the scanned
    names, ascending by [time.Parse] of the tag. *)
Theorem sort_by_time_spec (c : Config) (files : list string) :
  sort_by_time c files ≡ₚ files /\
  StronglySorted (fun a b => time_of c a <= time_of c b)%Z (sort_by_time c files).
Proof. apply (insertion_sort_spec (time_of c)). Qed.

(** C30: an unknown [WriterMode] is rejected only after every side
    effect: the disk after the failed constructor is exactly the disk after
    a ["lock"] constructor (the active file created and opened, the
    surplus historical files deleted), and the error is
    [ErrInvalidArgument] exactly when the ["lock"] constructor succeeds. *)
Theorem NewWriterFromConfig_invalid_mode (c : Config) (now : Z) (s : FS.fs) :
  mode_of (WriterMode c) = None ->
  NewWriterFromConfig c now s =
    (fst (NewWriterFromConfig (WithLock c) now s),
     match snd (NewWriterFromConfig (WithLock c) now s) with
     | Ok _ => Err ErrInvalidArgument
     | Err e => Err e
     end).
Proof.
  intros Hm. unfold NewWriterFromConfig.
  change (LogPath (WithLock c)) with (LogPath c). change (FileName (WithLock c)) with (FileName c).
  change (LogFilePath (WithLock c)) with (LogFilePath c).
  change (NewManager (WithLock c) now) with (NewManager c now).
  change (rollingfilech_ok (WithLock c)) with (rollingfilech_ok c).
  destruct (_ || _); [done|].
  destruct (FS.MkdirAll _ s) as [s0 [[]|e]]; [|done].
  destruct (FS.OpenFile _ s0) as [s1 [f|e]]; [|done].
  destruct (NewManager c now) as [m|e]; [|done]. destruct (rollingfilech_ok c); [|done]. cbn [negb].
  unfold mode_switch. change (mode_of (WriterMode (WithLock c))) with (Some ModeLock). rewrite Hm.
  cbn [fst snd]. unfold WithLock. by rewrite init_retention_mode.
Qed.

(** C31: in mode ["buffer"], when [BufferWriterThreshold*2] (wrapped as
    an [int]) is negative or above the runtime's [maxAlloc], the
    constructor never returns a writer: [make] panics in the [switch],
    after every side effect, exactly where the ["lock"] constructor
    succeeds, and the disk is the one the ["lock"] constructor leaves. *)
Theorem NewWriterFromConfig_buffer_panics (c : Config) (now : Z) (s : FS.fs) :
  WriterMode c = "buffer" -> buffer_ok c = false ->
  NewWriterFromConfig c now s =
    (fst (NewWriterFromConfig (WithLock c) now s),
     match snd (NewWriterFromConfig (WithLock c) now s) with
     | Ok _ => Err (Panic "makeslice: cap out of range")
     | Err e => Err e
     end).
Proof.
  intros Hm Hb. unfold NewWriterFromConfig.
  change (LogPath (WithLock c)) with (LogPath c). change (FileName (WithLock c)) with (FileName c).
  change (LogFilePath (WithLock c)) with (LogFilePath c).
  change (NewManager (WithLock c) now) with (NewManager c now).
  change (rollingfilech_ok (WithLock c)) with (rollingfilech_ok c).
  destruct (_ || _); [done|].
  destruct (FS.MkdirAll _ s) as [s0 [[]|e]]; [|done].
  destruct (FS.OpenFile _ s0) as [s1 [f|e]]; [|done].
  destruct (NewManager c now) as [m|e]; [|done]. destruct (rollingfilech_ok c); [|done]. cbn [negb].
  unfold mode_switch. change (mode_of (WriterMode (WithLock c))) with (Some ModeLock). rewrite Hm, Hb.
  cbn [fst snd mode_of String.eqb]. unfold WithLock. by rewrite init_retention_mode.
Qed.

(** C14: a successful constructor with [MaxRemain > 0] opens the
    active file, orders the historical files the scan found by their time
    tag (oldest first; [sort.Slice] may order equal tags either way), then
    keeps in [rollingfilech] the paths of the newest [MaxRemain] of them,
    in that order, and deletes the others from the disk, oldest first. *)
Theorem NewWriterFromConfig_retention (c : Config) (now : Z) (s s' : FS.fs) (rw : rolling_writer) :
  NewWriterFromConfig c now s = (s', Ok rw) -> (0 < MaxRemain c)%Z ->
  exists s1 l, FS.OpenFile (LogFilePath c) s = (s1, Ok (file (rw_world rw))) /\
    l ≡ₚ scan c (FS.ReadDir (LogPath c) s1) /\
    StronglySorted (fun a b => time_of c a <= time_of c b)%Z l /\
    wfs (rw_world rw) = s' /\
    rq (rw_world rw) = lastn (retention_cap c) (map (fun f => Path.Join [LogPath c; f]) l) /\
    s' = Retention.remove_all (firstn_over (retention_cap c) (map (fun f => Path.Join [LogPath c; f]) l)) s1.
Proof.
  intros Hrun Hpos. unfold NewWriterFromConfig in Hrun.
  destruct (_ || _); [discriminate|]. unfold FS.MkdirAll in Hrun.
  destruct (decide _); [discriminate|].
  destruct (FS.OpenFile _ s) as [s1 [f|e]] eqn:Ho; [|discriminate].
  destruct (NewManager c now) as [m|e]; [|discriminate].
  destruct (rollingfilech_ok c); cbn [negb] in Hrun; [|discriminate].
  unfold init_retention in Hrun. cbn [cf wfs logs] in Hrun.
  replace (0 <? MaxRemain c)%Z with true in Hrun by (symmetry; by apply Z.ltb_lt).
  destruct (Retention.enqueue_all_spec (retention_cap c) (history_paths c s1)
              (Retention.mkRS [] s1 [])) as (rs & E & I & F);
    [unfold retention_cap; lia | cbn; lia |].
  rewrite E in Hrun. destruct (mode_switch_ok _ _ _ _ Hrun) as (-> & -> & _).
  destruct (sort_by_time_spec c (scan c (FS.ReadDir (LogPath c) s1))) as [Hp Hs].
  exists s1, (sort_by_time c (scan c (FS.ReadDir (LogPath c) s1))). cbn. by rewrite I, F.
Qed.

(** C3: a writer built by [NewWriterFromConfig] on a well-formed disk,
    in any state it reaches by writes, goroutine runs and manager steps,
    never fails a write with a closed file: a [Write] returns [len(b)], or,
    when it took a pending name, the error of the rename (missing active
    file, or the name not creatable) or of opening the fresh file. *)
Theorem NewWriterFromConfig_Write_result (c : Config) (now : Z) (s s' : FS.fs)
    (rw : rolling_writer) (w : world) (b : bytes) :
  FS.fs_wf s -> NewWriterFromConfig c now s = (s', Ok rw) -> star wstep (rw_world rw) w ->
  snd (Write b w) = Ok (Z.of_nat (length b)) \/
  exists n rest, fire (mgr w) = n :: rest /\
    (snd (Write b w) = Err (ErrNotExist "rename" (absPath w)) \/
     snd (Write b w) = Err (ErrPermission "rename" n) \/
     snd (Write b w) = Err (ErrPermission "open" (absPath w))).
Proof.
  intros Hwf Hrun Hs. apply Write_result.
  apply (star_invariant _ _ wstep_preserves _ _ Hs). exact (NewWriterFromConfig_inv _ _ _ _ _ Hwf Hrun).
Qed.

(** C21: composition of the constructor with the asynchronous writer: in
    mode ["async"], [NewWriterFromConfig] on a well-formed disk starts an
    [AsynchronousWriter] every run of which keeps the invariant
    [async_inv]: the queue within [QueueSize], the handle open until
    [Close] closes it, the consumer blocked only after that. *)
Theorem NewWriterFromConfig_async (c : Config) (now : Z) (s s' : FS.fs) (rw : rolling_writer) :
  FS.fs_wf s -> WriterMode c = "async" -> NewWriterFromConfig c now s = (s', Ok rw) ->
  exists a0, start rw = RAsync a0 /\
    forall ls a, lstar Async.astep a0 ls a -> Async.async_inv a.
Proof.
  intros Hwf Hm Hrun. pose proof (NewWriterFromConfig_mode _ _ _ _ _ Hrun) as Hmd.
  rewrite Hm in Hmd. cbn in Hmd. injection Hmd as Hmd.
  exists (Async.async_start (rw_world rw)). split; [unfold start; by rewrite <- Hmd|].
  intros ls a Hs. refine (lstar_invariant _ _ Async.astep_inv _ _ _ Hs _).
  apply Async.async_start_inv. exact (NewWriterFromConfig_inv _ _ _ _ _ Hwf Hrun).
Qed.

Lemma Open_ReadAll (path : string) (s s1 : FS.fs) (h : FS.handle) :
  FS.Open path s = (s1, Ok h) -> exists d, FS.ReadAll h s1 = (s1, Ok d).
Proof.
  unfold FS.Open, FS.new_handle. destruct (FS.dir s !! path) as [i|]; [|done].
  intros [= <- <-]. unfold FS.ReadAll. cbn. rewrite lookup_insert_eq. by eexists.
Qed.

(** C40: [NewWriterFromConfigFile] with a [typ] other than ["json"] and
    ["yaml"] does not reject it: it reads the file, ignores what it holds,
    builds the writer from the defaults, and closes the file; the result
    is that of [NewWriterFromConfig] on the default configuration. *)
Theorem NewWriterFromConfigFile_unknown_type `{Decoders} (path typ : string) (now : Z)
    (s s1 : FS.fs) (h : FS.handle) :
  String.eqb typ "json" = false -> String.eqb typ "yaml" = false -> FS.Open path s = (s1, Ok h) ->
  NewWriterFromConfigFile path typ now s =
    (fst (FS.Close h (fst (NewWriterFromConfig NewDefaultConfig now s1))),
     snd (NewWriterFromConfig NewDefaultConfig now s1)).
Proof.
  intros Hj Hy Ho. destruct (Open_ReadAll _ _ _ _ Ho) as [d Hr].
  unfold NewWriterFromConfigFile. rewrite (st_bind_ok _ _ _ _ _ Ho). unfold st_finally.
  rewrite (st_bind_ok _ _ _ _ _ Hr). rewrite Hj, Hy. cbv [st_bind st_ret].
  by destruct (NewWriterFromConfig NewDefaultConfig now s1).
Qed.

End ConstructorFacts.
End Constructor.

(** ** Witnesses *)
Module ConstructorWitness.
Import Config Constructor.

(** A log directory with three files of logger "app", one of logger
    "myapp", and the active file not yet created. *)
Definition disk0 : FS.fs :=
  FS.mkFS (<["log/app.log.300" := 2]> (<["log/app.log.100" := 0]>
            (<["log/myapp.log.200" := 1]> (<["log/app.log.50" := 3]> ∅))))
          (<[0 := []]> (<[1 := []]> (<[2 := []]> (<[3 := []]> ∅)))) ∅ 4 ∅.

Definition cfg_app : Config := apply_options [WithFileName "app"; WithMaxRemain 2; WithoutRollingPolicy].

Lemma is_history_shape_witness :
  is_history cfg_app ("my" +:+ FileName cfg_app +:+ ".log" +:+ "" +:+ String "." "200") = true /\
  time_of cfg_app ("my" +:+ FileName cfg_app +:+ ".log" +:+ "" +:+ String "." "200") = 200%Z.
Proof. apply (is_history_shape cfg_app "my" "" "200" 200); [by_decide | by_decide | reflexivity]. Defined.

Lemma NewWriterFromConfig_invalid_mode_witness :
  NewWriterFromConfig (set_WriterMode "bogus" cfg_app) 0 disk0 =
    (fst (NewWriterFromConfig (WithLock (set_WriterMode "bogus" cfg_app)) 0 disk0),
     match snd (NewWriterFromConfig (WithLock (set_WriterMode "bogus" cfg_app)) 0 disk0) with
     | Ok _ => Err ErrInvalidArgument
     | Err e => Err e
     end).
Proof. apply NewWriterFromConfig_invalid_mode. reflexivity. Defined.

(** The writer [NewWriterFromConfig cfg_app] builds on [disk0]. *)
Definition rw_app : rolling_writer :=
  match snd (NewWriterFromConfig cfg_app 0 disk0) with
  | Ok rw => rw
  | Err _ => mkRW ModeNone (Writer.mkWorld disk0 (Manager.mkManager 0 0 [] false false false) 0 "" cfg_app [] [] [])
  end.

Lemma NewWriterFromConfig_retention_witness :
  exists s1 l, FS.OpenFile (LogFilePath cfg_app) disk0 = (s1, Ok (Writer.file (rw_world rw_app))) /\
    l ≡ₚ scan cfg_app (FS.ReadDir (LogPath cfg_app) s1) /\
    StronglySorted (fun a b => time_of cfg_app a <= time_of cfg_app b)%Z l /\
    Writer.wfs (rw_world rw_app) = fst (NewWriterFromConfig cfg_app 0 disk0) /\
    Writer.rq (rw_world rw_app) = lastn (Writer.retention_cap cfg_app) (map (fun f => Path.Join [LogPath cfg_app; f]) l) /\
    fst (NewWriterFromConfig cfg_app 0 disk0) =
      Retention.remove_all (firstn_over (Writer.retention_cap cfg_app)
                              (map (fun f => Path.Join [LogPath cfg_app; f]) l)) s1.
Proof.
  apply (NewWriterFromConfig_retention cfg_app 0 disk0); [vm_compute; reflexivity | reflexivity].
Defined.

Lemma NewWriterFromConfig_Write_result_witness :
  snd (Writer.Write [Byte.x62] (rw_world rw_app)) = Ok (Z.of_nat (length [Byte.x62])) \/
  exists n rest, Manager.fire (Writer.mgr (rw_world rw_app)) = n :: rest /\
    (snd (Writer.Write [Byte.x62] (rw_world rw_app)) = Err (ErrNotExist "rename" (Writer.absPath (rw_world rw_app))) \/
     snd (Writer.Write [Byte.x62] (rw_world rw_app)) = Err (ErrPermission "rename" n) \/
     snd (Writer.Write [Byte.x62] (rw_world rw_app)) = Err (ErrPermission "open" (Writer.absPath (rw_world rw_app)))).
Proof.
  apply (NewWriterFromConfig_Write_result cfg_app 0 disk0 (fst (NewWriterFromConfig cfg_app 0 disk0))
           rw_app (rw_world rw_app) [Byte.x62]);
    [by_decide | vm_compute; reflexivity | apply star_refl].
Defined.

(** The same logger in mode ["async"]. *)
Definition cfg_async : Config := WithAsynchronous cfg_app.
Definition rw_async : rolling_writer :=
  match snd (NewWriterFromConfig cfg_async 0 disk0) with
  | Ok rw => rw
  | Err _ => rw_app
  end.

Lemma NewWriterFromConfig_async_witness :
  exists a0, start rw_async = RAsync a0 /\
    forall ls a, lstar Async.astep a0 ls a -> Async.async_inv a.
Proof.
  apply (NewWriterFromConfig_async cfg_async 0 disk0 (fst (NewWriterFromConfig cfg_async 0 disk0)));
    [by_decide | reflexivity | vm_compute; reflexivity].
Defined.

(** Decoders that accept every input and set no field, and a disk
    holding one configuration file. *)
#[local] Instance TestDecoders : Decoders := {| json_Unmarshal _ c := Ok c; yaml_Unmarshal _ c := Ok c |}.
Definition diskc : FS.fs := FS.mkFS {["conf/w.toml" := 0]} {[0 := [Byte.x61]]} ∅ 1 ∅.

Lemma NewWriterFromConfigFile_unknown_type_witness :
  NewWriterFromConfigFile "conf/w.toml" "toml" 0 diskc =
    (fst (FS.Close 1 (fst (NewWriterFromConfig NewDefaultConfig 0 (fst (FS.Open "conf/w.toml" diskc))))),
     snd (NewWriterFromConfig NewDefaultConfig 0 (fst (FS.Open "conf/w.toml" diskc)))).
Proof. apply NewWriterFromConfigFile_unknown_type; reflexivity. Defined.

(** [cfg_app] in mode ["buffer"] with a negative threshold. *)
Definition cfg_neg : Config := WithBufferThreshold (-1) (WithBuffer cfg_app).

Lemma NewWriterFromConfig_buffer_panics_witness :
  NewWriterFromConfig cfg_neg 0 disk0 =
    (fst (NewWriterFromConfig (WithLock cfg_neg) 0 disk0),
     match snd (NewWriterFromConfig (WithLock cfg_neg) 0 disk0) with
     | Ok _ => Err (Panic "makeslice: cap out of range")
     | Err e => Err e
     end).
Proof. apply NewWriterFromConfig_buffer_panics; reflexivity. Defined.

End ConstructorWitness.
