(* ===== verification/Logx.v ===== *)
(** * Logx: the package [logx] ([src/logx.go])

    [logx] builds a zap logger with one core per appender of its
    configuration: each appender's [rollingwriter.Config] goes through
    [NewWriterFromConfig] (os.Stdout when that returns an error; a panic
    inside it ends [Init]), and the cores share
    the encoder chosen by [Type] and the time layout [Format].  The
    package's [var (...)] block binds [Debug], [Debugf], ... to the
    package variable [logger] when the package is initialised.

    zap is a library: the part of it the package relies on is its
    contract here ([Level], the encoders, cores and loggers, [WithOptions],
    [Sugar] and [Sync]), in a Section of its own, and is not mapped to
    the sources.  The encoders' output format is not modelled.
    [logLevel] calls [strings.ToLower], whose non-ASCII case mapping reads
    [unicode]'s tables; the Sections that use it take them as the class
    [Unicode.CaseTables]. *)

From S2P Require Import Prelude GoLib Config FileSys Manager Retention Writer BufferWriter Async Constructor.

Module Logx.
Import Config Writer Constructor.

(** ** The contract of zap *)

(** [zapcore.Level], from [DebugLevel = -1] to [FatalLevel = 5]. *)
Inductive Level := DebugLevel | InfoLevel | WarnLevel | ErrorLevel | DPanicLevel | PanicLevel | FatalLevel.

#[export] Instance Level_eq_dec : EqDecision Level.
Proof. solve_decision. Defined.

Definition level_rank (l : Level) : Z :=
  match l with
  | DebugLevel => -1 | InfoLevel => 0 | WarnLevel => 1 | ErrorLevel => 2
  | DPanicLevel => 3 | PanicLevel => 4 | FatalLevel => 5
  end.

(** [zapcore.NewJSONEncoder] and [zapcore.NewConsoleEncoder]. *)
Inductive encoding := JSONEncoder | ConsoleEncoder.

#[export] Instance encoding_eq_dec : EqDecision encoding.
Proof. solve_decision. Defined.

(** The fields of [zapcore.EncoderConfig] the package sets: the keys, and
    the layout its [EncodeTime] closure formats with.  The level, duration
    and caller encoders and the line ending are zap's defaults. *)
Record encoder_config := mkEncCfg {
  MessageKey : string; LevelKey : string; TimeKey : string;
  CallerKey : string; StacktraceKey : string; TimeLayout : string
}.

(** The [WriteSyncer] of a core: [zapcore.AddSync] of what
    [NewWriterFromConfig] returned, or of [os.Stdout]. *)
Inductive sink := SinkRolling (r : running) | SinkStdout.

(** [zapcore.NewCore(enc, ws, level)]. *)
Record core := mkCore { encoder_of : encoding; config_of : encoder_config; out : sink; level_of : Level }.

(** [zap.New(zapcore.NewTee(cores...), opts...)]: the cores in order, and
    the options [AddCaller], [AddStacktrace(lvl)], [Development]. *)
Record zlogger := mkLogger {
  cores : list core; add_caller : bool; stack_level : option Level; development : bool
}.

(** [logger.WithOptions(zap.AddStacktrace(lvl))] and
    [logger.WithOptions(zap.Development())]: a changed copy of the logger;
    the receiver is left as it was. *)
Definition with_stacktrace (lvl : Level) (l : zlogger) : zlogger :=
  mkLogger (cores l) (add_caller l) (Some lvl) (development l).
Definition with_development (l : zlogger) : zlogger :=
  mkLogger (cores l) (add_caller l) (stack_level l) true.

(** A [*zap.Logger] variable: nil, or a logger. *)
Abbreviation logger_ptr := (option zlogger).

(** [Logger.Sugar()] begins with [log.clone()], which copies [*log]:
    on a nil receiver it panics. *)
Record sugared := mkSugared { desugar : zlogger }.
Definition Sugar (l : logger_ptr) : result sugared :=
  match l with
  | None => Err (Panic "nil pointer dereference")
  | Some l => Ok (mkSugared l)
  end.

(** The [Sync] of a core's [WriteSyncer]: [zapcore.AddSync] wraps a
    writer without a [Sync] method (no rolling writer has one) in a
    wrapper whose [Sync] returns nil; [os.Stdout.Sync()] returns the
    error [stdout_err] of the file's fsync. *)
Definition sync_sink (stdout_err : option goerr) (o : sink) : result unit :=
  match o with
  | SinkRolling _ => Ok tt
  | SinkStdout => match stdout_err with Some e => Err e | None => Ok tt end
  end.

(** ** The package *)

(** [appender]: a level name and a pointer to a rolling-writer
    configuration, nil when the appender has no [rolling] section. *)
Record appender := mkAppender { ALevel : string; Rolling : option Config }.

(** [logx.Config]; the field [Type] is [Type_] ([Type] is a keyword). *)
Record LConfig := mkLConfig {
  Format : string; Type_ : string; Stacktrace : bool; Development : bool;
  Appenders : list appender
}.

(** [newEncoderConfig(format)]. *)
Definition newEncoderConfig (format : string) : encoder_config :=
  mkEncCfg "msg" "level" "ts" "file" "stacktrace" format.

Section Case.
Context `{Unicode.CaseTables}.

(** [encoder(typ, config)]: the encoder kind; the configuration is the
    core's. *)
Definition encoder (typ : string) : encoding :=
  let typ := Strings.TrimSpace (Strings.ToLower typ) in
  if String.eqb typ "json" then JSONEncoder
  else if String.eqb typ "console" then ConsoleEncoder
  else JSONEncoder.

(** [logLevel(level)]. *)
Definition logLevel (level : string) : Level :=
  let level := Strings.TrimSpace (Strings.ToLower level) in
  if String.eqb level "debug" then DebugLevel
  else if String.eqb level "info" then InfoLevel
  else if String.eqb level "warn" then WarnLevel
  else if String.eqb level "error" then ErrorLevel
  else if String.eqb level "panic" then PanicLevel
  else if String.eqb level "fatal" then FatalLevel
  else InfoLevel.

End Case.

(** [runner()], given [os.Hostname()] and [filepath.Abs(os.Args[0])]:
    it computes [pwd] and returns [path]. *)
Definition runner (hostname path : string) : string * string :=
  let pwd := Path.Dir path in
  let _ := pwd in
  (hostname, path).

(** The [var (...)] block: each variable is a method value of [logger]
    ([Debug = logger.Debug]) or of [logger.Sugar()] ([Debugf =
    logger.Sugar().Debugf]). *)
Inductive binding := OfLogger | OfSugar.

Definition var_block : list (string * binding) :=
  [("Debug", OfLogger); ("Debugf", OfSugar); ("Info", OfLogger); ("Infof", OfSugar);
   ("Warn", OfLogger); ("Warnf", OfSugar); ("Error", OfLogger); ("Errorf", OfSugar);
   ("DPanic", OfLogger); ("DPanicf", OfSugar); ("Panic", OfLogger); ("Panicf", OfSugar);
   ("Fatal", OfLogger); ("Fatalf", OfSugar)].

(** Evaluate the block in order on the current [logger]: a method value
    keeps its receiver as it is now; [Sugar()] is called now.  The result
    is the receiver each variable is bound to. *)
Fixpoint init_vars (logger : logger_ptr) (vs : list (string * binding))
    : result (list (string * logger_ptr)) :=
  match vs with
  | [] => Ok []
  | (name, OfLogger) :: rest => bs <-? init_vars logger rest ;; Ok ((name, logger) :: bs)
  | (name, OfSugar) :: rest =>
      sl <-? Sugar logger ;;
      bs <-? init_vars logger rest ;; Ok ((name, Some (desugar sl)) :: bs)
  end.

(** Package initialisation: [var logger *zap.Logger] is nil when the
    block runs. *)
Definition package_init : result (list (string * logger_ptr)) := init_vars None var_block.

(** [GetLogger()] and [GetSLogger()] on the package variable [logger]. *)
Definition GetLogger (logger : logger_ptr) : logger_ptr := logger.
Definition GetSLogger (logger : logger_ptr) : result sugared := Sugar logger.

Section Init.
Context `{Env} `{Unicode.CaseTables}.

(** [writer, err := rollingwriter.NewWriterFromConfig(app.Rolling); if
    err != nil { writer = os.Stdout }]: a panic of the constructor is not
    an [err] and goes on up. *)
Definition writer_or_stdout (r : result rolling_writer) : result sink :=
  match r with
  | Ok rw => Ok (SinkRolling (start rw))
  | Err (Panic m) => Err (Panic m)
  | Err _ => Ok SinkStdout
  end.

(** The loop of [Init] over [cfg.Appenders]: [NewWriterFromConfig] on the
    disk as the earlier appenders left it, [os.Stdout] on an error, and a
    nil [Rolling] dereferenced by [NewWriterFromConfig]. *)
Fixpoint build_cores (enc : encoding) (ecfg : encoder_config) (apps : list appender)
    (now : Z) (s : FS.fs) : FS.fs * result (list core) :=
  match apps with
  | [] => (s, Ok [])
  | a :: rest =>
      match Rolling a with
      | None => (s, Err (Panic "nil pointer dereference"))
      | Some rc =>
          let '(s1, r) := NewWriterFromConfig rc now s in
          match writer_or_stdout r with
          | Err e => (s1, Err e)
          | Ok ws =>
              let '(s2, r2) := build_cores enc ecfg rest now s1 in
              (s2, cs <-? r2 ;; Ok (mkCore enc ecfg ws (logLevel (ALevel a)) :: cs))
          end
      end
  end.

(** [Init(cfg)], given the host name and the absolute path of the
    binary: the line it prints, and the logger it stores in [logger].
    The result of [logger.WithOptions(zap.Development())] is dropped. *)
Definition Init (cfg : LConfig) (hostname path : string) (now : Z) (s : FS.fs)
    : FS.fs * string * result zlogger :=
  let '(hn, pwd) := runner hostname path in
  let line := "HostName: " +:+ hn +:+ ", Workerspace: " +:+ pwd +:+ String "010"%char EmptyString in
  let config := newEncoderConfig (Format cfg) in
  let enc := encoder (Type_ cfg) in
  let '(s', r) := build_cores enc config (Appenders cfg) now s in
  (s', line,
   Logs <-? r ;;
   let logger := mkLogger Logs true None false in
   let logger := if Stacktrace cfg then with_stacktrace ErrorLevel logger else logger in
   let logger := if Development cfg then (let _ := with_development logger in logger) else logger in
   Ok logger).

(** [Close()]: [logger.Sync()], the errors of the cores' [Sync] in order
    (the first one is what [multierr] reports first); on an error, the
    entry [logger.Error("closed err", ...)] is logged. *)
Definition Close (stdout_err : option goerr) (l : zlogger) : option (Level * string * goerr) :=
  match foldr (fun c acc => match sync_sink stdout_err (out c) with Err e => Some e | Ok _ => acc end)
              None (cores l) with
  | Some e => Some (ErrorLevel, "closed err", e)
  | None => None
  end.

End Init.
Section LogxFacts.
Context `{Env} `{Unicode.CaseTables}.

Lemma lower_upper_byte (c : ascii) : Strings.lower_byte (Strings.upper_byte c) = Strings.lower_byte c.
Proof. destruct c as [[] [] [] [] [] [] [] []]; reflexivity. Qed.

Lemma upper_byte_ascii (c : ascii) :
  (Utf8.bval (Strings.upper_byte c) <? Utf8.RuneSelf)%Z = (Utf8.bval c <? Utf8.RuneSelf)%Z.
Proof. destruct c as [[] [] [] [] [] [] [] []]; reflexivity. Qed.

Lemma is_ascii_ToUpper (s : string) : Strings.is_ascii (Strings.ToUpper s) = Strings.is_ascii s.
Proof.
  induction s as [|c s IH]; [done|]. unfold Strings.is_ascii, Strings.ToUpper in *. cbn.
  by rewrite upper_byte_ascii, IH.
Qed.

Lemma ToLower_ToUpper (s : string) :
  Strings.is_ascii s = true -> Strings.ToLower (Strings.ToUpper s) = Strings.ToLower s.
Proof.
  intros Ha. unfold Strings.ToLower. rewrite is_ascii_ToUpper, Ha. clear Ha.
  induction s as [|c s IH]; [done|]. unfold Strings.ToUpper in *. cbn. by rewrite lower_upper_byte, IH.
Qed.

Lemma TrimSpace_space (s : string) : Strings.TrimSpace (String " " s) = Strings.TrimSpace s.
Proof. reflexivity. Qed.

Lemma ToLower_space (s : string) : Strings.ToLower (String " " s) = String " " (Strings.ToLower s).
Proof.
  unfold Strings.ToLower, Strings.map_lower, Strings.is_ascii. cbn [list_ascii_of_string forallb length].
  assert (Hsp : Utf8.bval " " = 32%Z) by reflexivity. rewrite Hsp. cbn. by destruct (forallb _ _).
Qed.

(** The six names of the [switch] of [logLevel] and their levels. *)
Definition level_names : list (string * Level) :=
  [("debug", DebugLevel); ("info", InfoLevel); ("warn", WarnLevel); ("error", ErrorLevel);
   ("panic", PanicLevel); ("fatal", FatalLevel)].

(** C37: [logLevel] gives each of the six names its zap level and every
    other name, once lower-cased and trimmed as [strings.ToLower] and
    [strings.TrimSpace] do, [InfoLevel]; it ignores leading white space
    and, on ASCII input, case; it never gives [DPanicLevel].  (Beyond
    ASCII the case folding is [unicode.ToLower]'s: see
    [logLevel_dotted_capital].) *)
Theorem logLevel_spec (s : string) :
  Forall (fun nl => logLevel nl.1 = nl.2) level_names /\
  (Forall (fun nl => Strings.TrimSpace (Strings.ToLower s) <> nl.1) level_names -> logLevel s = InfoLevel) /\
  (Strings.is_ascii s = true -> logLevel (Strings.ToUpper s) = logLevel s) /\
  logLevel (String " " s) = logLevel s /\ logLevel s <> DPanicLevel.
Proof.
  split_and!.
  - repeat constructor.
  - intros Hn. repeat (apply Forall_cons in Hn as [? Hn]). cbn in *. unfold logLevel.
    repeat (rewrite (proj2 (String.eqb_neq _ _)) by done). done.
  - intros Ha. unfold logLevel. by rewrite ToLower_ToUpper.
  - unfold logLevel. by rewrite ToLower_space, TrimSpace_space.
  - unfold logLevel. by repeat case_match.
Qed.

(** C11: importing the package panics: the [var (...)] block calls
    [logger.Sugar()] (for [Debugf]) while [logger] is still nil.  On a nil
    logger the block fails exactly when it has a [Sugar()] entry, and
    otherwise binds every method value to the nil receiver, which [Init]
    never updates. *)
Theorem package_init_panics :
  package_init = Err (Panic "nil pointer dereference") /\
  forall vs, init_vars None vs =
    if existsb (fun v => match snd v with OfSugar => true | OfLogger => false end) vs
    then Err (Panic "nil pointer dereference")
    else Ok (map (fun v => (fst v, None)) vs).
Proof.
  split; [reflexivity|]. induction vs as [|[n []] vs IH]; [done| |done].
  cbn. rewrite IH. by destruct (existsb _ vs).
Qed.

Lemma writer_or_stdout_err (r : result rolling_writer) (e : goerr) :
  writer_or_stdout r = Err e -> exists m, e = Panic m /\ r = Err (Panic m).
Proof. destruct r as [|[]]; cbn; intros; simplify_eq; eauto. Qed.

(** An appender's configuration on which the constructor does not panic
    (none when the [rolling] section is missing). *)
Definition appender_safe (a : appender) : Prop := from_option (fun rc => panic_free rc = true) True (Rolling a).

Lemma build_cores_spec (enc : encoding) (ecfg : encoder_config) (apps : list appender) (now : Z) (s : FS.fs) :
  (forall e, snd (build_cores enc ecfg apps now s) = Err e -> exists m, e = Panic m) /\
  (Forall appender_safe apps ->
   (snd (build_cores enc ecfg apps now s) = Err (Panic "nil pointer dereference") <->
    Exists (fun a => Rolling a = None) apps)) /\
  forall cs, snd (build_cores enc ecfg apps now s) = Ok cs ->
    map level_of cs = map (fun a => logLevel (ALevel a)) apps /\
    Forall (fun c => encoder_of c = enc /\ config_of c = ecfg) cs.
Proof.
  revert s. induction apps as [|a apps IH]; intros s.
  { cbn. split_and!; [done|split; [done|inversion 1]|]. intros cs [= <-]. done. }
  cbn [build_cores]. destruct (Rolling a) as [rc|] eqn:Ha.
  - destruct (NewWriterFromConfig rc now s) as [s1 r] eqn:En.
    destruct (writer_or_stdout r) as [ws|e] eqn:Ew.
    + destruct (IH s1) as (IHp & IHe & IHo).
      destruct (build_cores enc ecfg apps now s1) as [s2 [cs0|e]]; cbn in *.
      * split_and!; [done| |].
        -- intros Hs. apply Forall_cons in Hs as [_ Hs]. split; [done|]. intros Hx.
           apply Exists_cons in Hx as [Hx|Hx]; [congruence|]. apply IHe in Hx; [discriminate|exact Hs].
        -- intros cs [= <-]. destruct (IHo cs0 eq_refl) as [Hl Hf]. split; [cbn; by rewrite Hl|].
           constructor; [split; reflexivity|exact Hf].
      * split_and!; [exact IHp| |done]. intros Hs. apply Forall_cons in Hs as [_ Hs].
        rewrite Exists_cons. split; [intros He; right; by apply IHe|].
        intros [Hx|Hx]; [congruence|]. by apply IHe.
    + destruct (writer_or_stdout_err _ _ Ew) as (m & -> & ->). cbn.
      split_and!; [intros ? [= <-]; by eexists| |done]. intros Hs. apply Forall_cons in Hs as [Hs _].
      unfold appender_safe in Hs. rewrite Ha in Hs. cbn in Hs.
      destruct (NewWriterFromConfig_no_panic rc now s m Hs). by rewrite En.
  - cbn. split_and!; [intros ? [= <-]; by eexists|intros _; split; [intros _; by apply Exists_cons; left|done]|done].
Qed.

(** C24: [Init] prints the binary's path as the work directory ([runner]
    returns [path], not [pwd]), then a newline; it fails only by a panic
    (a constructor's error falls back to [os.Stdout]); when no
    constructor call can panic (no bad [ParseVolume] slice, no [make]
    out of range), it panics exactly when an appender has no [rolling]
    section (its nil [*Config] is dereferenced), after the earlier
    appenders' writers were created; otherwise the logger has one core
    per appender, in order, with the level [logLevel] gives, all sharing
    the encoder and its configuration, with [AddCaller] and, when
    [Stacktrace] is set, stack traces from [ErrorLevel] on. *)
Theorem Init_spec (cfg : LConfig) (h p : string) (now : Z) (s s' : FS.fs) (line : string) (r : result zlogger) :
  Init cfg h p now s = (s', line, r) ->
  line = "HostName: " +:+ h +:+ ", Workerspace: " +:+ p +:+ String "010"%char EmptyString /\
  (forall e, r = Err e -> exists m, e = Panic m) /\
  (Forall appender_safe (Appenders cfg) ->
   (r = Err (Panic "nil pointer dereference") <-> Exists (fun a => Rolling a = None) (Appenders cfg))) /\
  forall l, r = Ok l ->
    map level_of (cores l) = map (fun a => logLevel (ALevel a)) (Appenders cfg) /\
    Forall (fun c => encoder_of c = encoder (Type_ cfg) /\ config_of c = newEncoderConfig (Format cfg)) (cores l) /\
    add_caller l = true /\ stack_level l = (if Stacktrace cfg then Some ErrorLevel else None).
Proof.
  unfold Init, runner. destruct (build_cores_spec (encoder (Type_ cfg)) (newEncoderConfig (Format cfg))
                                  (Appenders cfg) now s) as (Hp & He & Ho).
  destruct (build_cores _ _ _ now s) as [s1 [cs|e]]; cbn in *; intros [= <- <- <-].
  - split_and!; [done|done| |].
    + intros Hs. split; [done|]. intros Hx. by apply (He Hs) in Hx.
    + intros l Hl. destruct (Ho cs eq_refl) as [Hlv Hf].
      destruct (Stacktrace cfg), (Development cfg); injection Hl as <-; cbn; done.
  - split_and!; [done| intros ? [= <-]; by apply Hp | |by intros l].
    intros Hs. split; intros Hx; [apply (He Hs); by injection Hx as -> | apply (He Hs) in Hx; by injection Hx as ->].
Qed.

(** C32: the [Development] flag has no effect: [Init] drops the logger
    [WithOptions(zap.Development())] returns, so the configuration with
    the flag set builds the same logger as without it. *)
Theorem Init_development_ignored (f t : string) (st : bool) (apps : list appender)
    (h p : string) (now : Z) (s : FS.fs) :
  Init (mkLConfig f t st true apps) h p now s = Init (mkLConfig f t st false apps) h p now s.
Proof.
  unfold Init. cbn [Development Appenders Format Type_ Stacktrace].
  destruct (build_cores _ _ _ _ _) as [s1 [cs|e]]; reflexivity.
Qed.

End LogxFacts.
End Logx.

(** * Witnesses *)
Module LogxWitness.
Import Logx ConstructorWitness.

(** A part of Go's [unicode.ToLower] table: the Latin-1 capitals and the
    dotted capital [U+0130], which lowers to ['i']. *)
#[local] Instance case_tables_part : Unicode.CaseTables :=
  {| Unicode.to_lower_table r :=
       if ((192 <=? r) && (r <=? 222) && negb (r =? 215))%Z then (r + 32)%Z
       else if (r =? 304)%Z then 105%Z else r |}.

Lemma logLevel_spec_witness :
  Forall (fun nl => logLevel nl.1 = nl.2) level_names /\
  (Forall (fun nl => Strings.TrimSpace (Strings.ToLower "verbose") <> nl.1) level_names ->
   logLevel "verbose" = InfoLevel) /\
  (Strings.is_ascii "verbose" = true -> logLevel (Strings.ToUpper "verbose") = logLevel "verbose") /\
  logLevel (String " " "verbose") = logLevel "verbose" /\ logLevel "verbose" <> DPanicLevel.
Proof. apply logLevel_spec. Defined.

(** ["PANİC"] (the [İ] is [0xC4 0xB0]) is not ASCII, so [strings.ToLower]
    maps it rune by rune, to ["panic"]. *)
Example logLevel_dotted_capital :
  logLevel (String "P" (String "A" (String "N" (String "196"%char (String "176"%char (String "C" EmptyString))))))
  = PanicLevel.
Proof. vm_compute. reflexivity. Qed.

(** One appender at level ["WARN"] writing through [cfg_app] on [disk0]. *)
Definition lcfg : LConfig := mkLConfig "2006-01-02" "console" true false [mkAppender "WARN" (Some cfg_app)].
Definition init_out : FS.fs * string * result zlogger := Init lcfg "host" "/opt/app/server" 0 disk0.

Lemma Init_spec_witness :
  snd (fst init_out) = "HostName: " +:+ "host" +:+ ", Workerspace: " +:+ "/opt/app/server" +:+
                         String "010"%char EmptyString /\
  (forall e, snd init_out = Err e -> exists m, e = Panic m) /\
  (Forall appender_safe (Appenders lcfg) ->
   (snd init_out = Err (Panic "nil pointer dereference") <-> Exists (fun a => Rolling a = None) (Appenders lcfg))) /\
  forall l, snd init_out = Ok l ->
    map level_of (cores l) = map (fun a => logLevel (ALevel a)) (Appenders lcfg) /\
    Forall (fun c => encoder_of c = encoder (Type_ lcfg) /\ config_of c = newEncoderConfig (Format lcfg)) (cores l) /\
    add_caller l = true /\ stack_level l = (if Stacktrace lcfg then Some ErrorLevel else None).
Proof.
  apply (Init_spec lcfg "host" "/opt/app/server" 0 disk0 (fst (fst init_out))).
  unfold init_out. by destruct (Init _ _ _ _ _) as [[? ?] ?].
Defined.

(** The same appender in mode ["buffer"] with [BufferWriterThreshold =
    -1]: [make] panics inside the constructor, and so does [Init]. *)
Example Init_buffer_negative_threshold :
  snd (Init (mkLConfig "2006-01-02" "console" true false [mkAppender "WARN" (Some cfg_neg)])
            "host" "/opt/app/server" 0 disk0) = Err (Panic "makeslice: cap out of range").
Proof. vm_compute. reflexivity. Qed.

End LogxWitness.
